(** * Rental calculators of [utils/rent_tools.py]

    A shallow embedding of the three tools the tenant chat exposes:
    [calculate_rent], [calculate_moveout_date] and
    [get_repair_responsibility], together with the parts of the Python
    run time they lean on:

    - [str]: byte strings holding UTF-8 text; [str.lower], [in] and [repr]
      are modelled on ASCII text, where they coincide with Python's;
    - [float]: IEEE-754 binary64, through the reference operations of
      [SpecFloat] at precision 53 and maximal exponent 1024;
    - [int]: unbounded integers ([Z]);
    - exceptions: a result type carrying the exception and its message;
    - [datetime]: the proleptic Gregorian calendar of CPython's
      [datetime] module (years 1 to 9999), with its ordinal conversions. *)

From Stdlib Require Import ZArith Lia Bool List String Ascii.
From Stdlib Require Import SpecFloat DecimalString.
Import ListNotations.

Local Open Scope string_scope.
Local Open Scope Z_scope.

(** ** Exceptions *)

Module Py.

Inductive exn : Type :=
| ValueError (msg : string)
| OverflowError (msg : string).

(** [str(e)] *)
Definition str_exn (e : exn) : string :=
  match e with
  | ValueError msg => msg
  | OverflowError msg => msg
  end.

Inductive result (A : Type) : Type :=
| Ok (a : A)
| Raise (e : exn).

Arguments Ok {A} a.
Arguments Raise {A} e.

Definition bind {A B : Type} (r : result A) (k : A -> result B) : result B :=
  match r with
  | Ok a => k a
  | Raise e => Raise e
  end.

End Py.

Import Py.

Notation "x <- c1 ;; c2" := (bind c1 (fun x => c2))
  (at level 61, c1 at next level, right associativity).

(** ** Strings *)

Module PyStr.

(** The newline of an f-string's [\n]. *)
Definition nl : string := String (ascii_of_nat 10) EmptyString.

(** [str(n)] and [f"{n}"] for an [int]. *)
Definition str_int (n : Z) : string := NilZero.string_of_int (Z.to_int n).

(** The capital letters of ASCII; a text whose cased letters are all in
    ASCII is lowered by [str.lower] letter by letter. *)
Definition is_upper (c : ascii) : bool :=
  let n := nat_of_ascii c in (65 <=? n)%nat && (n <=? 90)%nat.

Definition lower_char (c : ascii) : ascii :=
  if is_upper c then ascii_of_nat (nat_of_ascii c + 32) else c.

(** [s.lower()] *)
Fixpoint lower (s : string) : string :=
  match s with
  | EmptyString => EmptyString
  | String c s' => String (lower_char c) (lower s')
  end.

(** [s.startswith(p)] *)
Fixpoint startswith (p s : string) : bool :=
  match p, s with
  | EmptyString, _ => true
  | String a p', String b s' => Ascii.eqb a b && startswith p' s'
  | String _ _, EmptyString => false
  end.

(** [sub in s] *)
Fixpoint contains (sub s : string) : bool :=
  startswith sub s ||
  match s with
  | EmptyString => false
  | String _ s' => contains sub s'
  end.

Definition hex_digit (n : nat) : ascii :=
  if (n <? 10)%nat then ascii_of_nat (48 + n) else ascii_of_nat (87 + n).

(** One character of [repr(s)] inside the quote [q], for a character of
    ASCII: the quote and the backslash after a backslash, the control
    characters escaped, the others as they are.  ([repr] also escapes the
    characters beyond ASCII that are not printable, such as U+00A0; the
    properties that read a [repr] are stated for texts of ASCII.) *)
Definition repr_char (q c : ascii) : string :=
  let n := nat_of_ascii c in
  if Ascii.eqb c q || Ascii.eqb c "\" then String "\" (String c EmptyString)
  else if (n =? 9)%nat then "\t"
  else if (n =? 10)%nat then "\n"
  else if (n =? 13)%nat then "\r"
  else if (n <? 32)%nat || (n =? 127)%nat then
    String "\" (String "x" (String (hex_digit (n / 16))
                            (String (hex_digit (n mod 16)) EmptyString)))
  else String c EmptyString.

Fixpoint repr_body (q : ascii) (s : string) : string :=
  match s with
  | EmptyString => EmptyString
  | String c s' => repr_char q c ++ repr_body q s'
  end.

Fixpoint has_char (x : ascii) (s : string) : bool :=
  match s with
  | EmptyString => false
  | String c s' => Ascii.eqb c x || has_char x s'
  end.

Definition squote : ascii := ascii_of_nat 39.
Definition dquote : ascii := ascii_of_nat 34.

(** [repr(s)]: double quotes when the text has a single quote and no
    double quote, single quotes otherwise. *)
Definition repr (s : string) : string :=
  let q := if has_char squote s && negb (has_char dquote s) then dquote else squote in
  String q (repr_body q s ++ String q EmptyString).

End PyStr.

(** ** Floats *)

Module PyFloat.

Definition prec : Z := 53.
Definition emax : Z := 1024.

Definition float : Type := spec_float.

(** The values a Python [float] can hold. *)
Definition is_float (x : float) : bool := valid_binary prec emax x.

Definition mul : float -> float -> float := SFmul prec emax.
Definition add : float -> float -> float := SFadd prec emax.
Definition sub : float -> float -> float := SFsub prec emax.
Definition ltb : float -> float -> bool := SFltb.
Definition leb : float -> float -> bool := SFleb.
(** [x > y] *)
Definition gtb (x y : float) : bool := SFltb y x.
(** [x >= y] *)
Definition geb (x y : float) : bool := SFleb y x.

(** The float nearest to an integer (ties to even); an infinity when the
    integer is beyond the range of binary64. *)
Definition round_int (n : Z) : float := binary_normalize prec emax n 0 false.

(** The implicit conversion of an [int] operand of a float operation:
    [OverflowError] when the integer rounds beyond the largest float. *)
Definition of_int (n : Z) : result float :=
  match round_int n with
  | S754_infinity _ => Raise (OverflowError "int too large to convert to float")
  | x => Ok x
  end.

(** [x * n] for a float [x] and an int [n]. *)
Definition mul_int (x : float) (n : Z) : result float :=
  y <- of_int n ;; Ok (mul x y).

(** Float literals of the source. *)
Definition zero : float := S754_zero false.
Definition f200 : float := Eval vm_compute in round_int 200.

(** [2.0 ** 56], from which on consecutive floats are 16 or more apart. *)
Definition two_pow_56 : float := Eval vm_compute in round_int (2 ^ 56).

(** [max(a, b)]: the first argument unless the second is greater. *)
Definition max (a b : float) : float := if gtb b a then b else a.

(** *** [format(x, ".2f")] *)

Definition str_nat2 (n : Z) : string :=
  if n <? 10 then "0" ++ PyStr.str_int n else PyStr.str_int n.

(** The magnitude [m * 2^e] in hundredths, rounded to nearest, ties to
    even. *)
Definition hundredths (m : positive) (e : Z) : Z :=
  match e with
  | Zneg k =>
      let d := Z.pow_pos 2 k in
      let n := Zpos m * 100 in
      let q := n / d in
      let r := n mod d in
      if (d <? 2 * r) || ((d =? 2 * r) && Z.odd q) then q + 1 else q
  | _ => Zpos m * 2 ^ e * 100
  end.

Definition fixed2 (m : positive) (e : Z) : string :=
  let h := hundredths m e in
  PyStr.str_int (h / 100) ++ "." ++ str_nat2 (h mod 100).

Definition format_2f (x : float) : string :=
  match x with
  | S754_nan => "nan"
  | S754_infinity s => if s then "-inf" else "inf"
  | S754_zero s => if s then "-0.00" else "0.00"
  | S754_finite s m e => (if s then "-" else "") ++ fixed2 m e
  end.

(** *** Exact values

    Every binary64 value is a multiple of [2^-1074]: [units m e] is the
    value of a mantissa and an exponent counted in that unit, and
    [scaled x] the value of a finite [x]. *)
Definition units (m : positive) (e : Z) : Z := Zpos m * 2 ^ (e + 1074).

Definition scaled (x : float) : option Z :=
  match x with
  | S754_zero _ => Some 0
  | S754_finite s m e =>
      if -1074 <=? e then Some (cond_Zopp s (units m e)) else None
  | _ => None
  end.

(** A mantissa from which nothing has been shifted out yet. *)
Definition exact_record (m : Z) : shr_record :=
  {| shr_m := m; shr_r := false; shr_s := false |}.

End PyFloat.

(** ** Dates

    CPython's [datetime] for the calls the tools make: a [datetime] parsed
    by [strptime(s, "%Y-%m-%d")] is at midnight, and a [timedelta] built from
    whole days keeps it there, so a date is its year, month and day.  The
    ordinal conversions follow [_ymd2ord] and [_ord2ymd] of the module, the
    messages are those of the C implementation of CPython 3.11. *)

Module PyDatetime.

Definition MINYEAR : Z := 1.
Definition MAXYEAR : Z := 9999.
(** [date(9999, 12, 31).toordinal()] *)
Definition MAXORDINAL : Z := 3652059.

Definition DAYS_IN_MONTH : list Z :=
  [-1; 31; 28; 31; 30; 31; 30; 31; 31; 30; 31; 30; 31].

Definition DAYS_BEFORE_MONTH : list Z :=
  [-1; 0; 31; 59; 90; 120; 151; 181; 212; 243; 273; 304; 334].

Definition is_leap (year : Z) : bool :=
  (year mod 4 =? 0) && (negb (year mod 100 =? 0) || (year mod 400 =? 0)).

Definition days_before_year (year : Z) : Z :=
  let y := year - 1 in
  y * 365 + y / 4 - y / 100 + y / 400.

Definition days_in_month (year month : Z) : Z :=
  if (month =? 2) && is_leap year then 29
  else nth (Z.to_nat month) DAYS_IN_MONTH 0.

Definition days_before_month (year month : Z) : Z :=
  nth (Z.to_nat month) DAYS_BEFORE_MONTH 0 +
  (if (2 <? month) && is_leap year then 1 else 0).

Definition ymd2ord (year month day : Z) : Z :=
  days_before_year year + days_before_month year month + day.

Definition DI400Y : Z := 146097.
Definition DI100Y : Z := 36524.
Definition DI4Y : Z := 1461.

Definition ord2ymd (n : Z) : Z * Z * Z :=
  let n := n - 1 in
  let n400 := n / DI400Y in
  let n := n mod DI400Y in
  let year := n400 * 400 + 1 in
  let n100 := n / DI100Y in
  let n := n mod DI100Y in
  let n4 := n / DI4Y in
  let n := n mod DI4Y in
  let n1 := n / 365 in
  let n := n mod 365 in
  let year := year + (n100 * 100 + n4 * 4 + n1) in
  if (n1 =? 4) || (n100 =? 4) then (year - 1, 12, 31)
  else
    let leapyear := (n1 =? 3) && (negb (n4 =? 24) || (n100 =? 3)) in
    let month := Z.shiftr (n + 50) 5 in
    let preceding :=
      nth (Z.to_nat month) DAYS_BEFORE_MONTH 0 +
      (if (2 <? month) && leapyear then 1 else 0) in
    if n <? preceding then
      let month := month - 1 in
      let preceding :=
        preceding - (nth (Z.to_nat month) DAYS_IN_MONTH 0 +
                     (if (month =? 2) && leapyear then 1 else 0)) in
      (year, month, n - preceding + 1)
    else (year, month, n - preceding + 1).

(** A [datetime] at midnight. *)
Record datetime : Type := { year : Z; month : Z; day : Z }.

(** The constructor [datetime(year, month, day)] with its field checks. *)
Definition new_datetime (y m d : Z) : result datetime :=
  if (y <? MINYEAR) || (MAXYEAR <? y) then
    Raise (ValueError ("year " ++ PyStr.str_int y ++ " is out of range"))
  else if (m <? 1) || (12 <? m) then
    Raise (ValueError "month must be in 1..12")
  else if (d <? 1) || (days_in_month y m <? d) then
    Raise (ValueError "day is out of range for month")
  else Ok {| year := y; month := m; day := d |}.

Definition toordinal (t : datetime) : Z := ymd2ord (year t) (month t) (day t).

Definition fromordinal (n : Z) : datetime :=
  let '(y, m, d) := ord2ymd n in {| year := y; month := m; day := d |}.

(** [timedelta(days=n)], kept as its number of days. *)
Definition timedelta_days (n : Z) : result Z :=
  if (n <? - 2147483648) || (2147483647 <? n) then
    Raise (OverflowError "Python int too large to convert to C int")
  else if (n <? - 999999999) || (999999999 <? n) then
    Raise (OverflowError ("days=" ++ PyStr.str_int n ++
                          "; must have magnitude <= 999999999"))
  else Ok n.

(** [t + delta] *)
Definition add_days (t : datetime) (delta : Z) : result datetime :=
  let n := toordinal t + delta in
  if (1 <=? n) && (n <=? MAXORDINAL) then Ok (fromordinal n)
  else Raise (OverflowError "date value out of range").

(** [(a - b).days] *)
Definition sub_days (a b : datetime) : Z := toordinal a - toordinal b.

(** *** [strptime(s, "%Y-%m-%d")]

    [_strptime] compiles the format to the regular expression
    [(?P<Y>\d\d\d\d)-(?P<m>1[0-2]|0[1-9]|[1-9])-(?P<d>3[0-1]|[1-2]\d|0[1-9]|[1-9]| [1-9])]
    and matches it at the start of the text.  Each piece below takes the
    text and the continuation that matches what follows it; alternatives
    are tried in order and the first that lets the continuation succeed
    wins.  The digits are those of ASCII: this is [strptime] on the texts
    of ASCII ([\d] also takes the decimal digits of other scripts, so a
    text with such digits may parse). *)

Definition in_range (lo hi c : ascii) : bool :=
  (nat_of_ascii lo <=? nat_of_ascii c)%nat &&
  (nat_of_ascii c <=? nat_of_ascii hi)%nat.

Definition is_digit (c : ascii) : bool := in_range "0" "9" c.

Definition orelse {A : Type} (x y : option A) : option A :=
  match x with
  | Some _ => x
  | None => y
  end.

Definition re_chr {A : Type} (x : ascii) (s : string)
    (k : string -> option A) : option A :=
  match s with
  | String a rest => if Ascii.eqb a x then k rest else None
  | EmptyString => None
  end.

Definition re_one {A : Type} (lo hi : ascii) (s : string)
    (k : string -> string -> option A) : option A :=
  match s with
  | String a rest =>
      if in_range lo hi a then k (String a EmptyString) rest else None
  | EmptyString => None
  end.

Definition re_two {A : Type} (lo1 hi1 lo2 hi2 : ascii) (s : string)
    (k : string -> string -> option A) : option A :=
  match s with
  | String a (String b rest) =>
      if in_range lo1 hi1 a && in_range lo2 hi2 b
      then k (String a (String b EmptyString)) rest else None
  | _ => None
  end.

(** [(?P<Y>\d\d\d\d)] *)
Definition re_Y {A : Type} (s : string)
    (k : string -> string -> option A) : option A :=
  match s with
  | String a (String b (String c (String d rest))) =>
      if is_digit a && is_digit b && is_digit c && is_digit d
      then k (String a (String b (String c (String d EmptyString)))) rest
      else None
  | _ => None
  end.

(** [(?P<m>1[0-2]|0[1-9]|[1-9])] *)
Definition re_m {A : Type} (s : string)
    (k : string -> string -> option A) : option A :=
  orelse (re_two "1" "1" "0" "2" s k)
 (orelse (re_two "0" "0" "1" "9" s k)
         (re_one "1" "9" s k)).

(** [(?P<d>3[0-1]|[1-2]\d|0[1-9]|[1-9]| [1-9])] *)
Definition re_d {A : Type} (s : string)
    (k : string -> string -> option A) : option A :=
  orelse (re_two "3" "3" "0" "1" s k)
 (orelse (re_two "1" "2" "0" "9" s k)
 (orelse (re_two "0" "0" "1" "9" s k)
 (orelse (re_one "1" "9" s k)
         (re_two " " " " "1" "9" s k)))).

(** The groups [Y], [m], [d] of a match and the text left after it. *)
Definition match_ymd (s : string) : option (string * string * string * string) :=
  re_Y s (fun Y s1 =>
  re_chr "-" s1 (fun s2 =>
  re_m s2 (fun m s3 =>
  re_chr "-" s3 (fun s4 =>
  re_d s4 (fun d rest => Some (Y, m, d, rest)))))).

(** [int(g)] for a matched group: digits, after an optional blank. *)
Fixpoint int_group (acc : Z) (g : string) : Z :=
  match g with
  | EmptyString => acc
  | String c g' =>
      if is_digit c
      then int_group (acc * 10 + (Z.of_nat (nat_of_ascii c) - 48)) g'
      else int_group acc g'
  end.

Definition strptime_ymd (data_string : string) : result datetime :=
  match match_ymd data_string with
  | None =>
      Raise (ValueError ("time data " ++ PyStr.repr data_string ++
                         " does not match format '%Y-%m-%d'"))
  | Some (Y, m, d, rest) =>
      match rest with
      | String _ _ =>
          Raise (ValueError ("unconverted data remains: " ++ rest))
      | EmptyString =>
          new_datetime (int_group 0 Y) (int_group 0 m) (int_group 0 d)
      end
  end.

(** *** [strftime("%Y年%m月%d日")]

    [%m] and [%d] are two digits; [%Y] is the year padded to four digits,
    as the library documents it (before Python 3.13 the C library of some
    platforms left years below 1000 unpadded).  The format is taken to
    pass through unchanged, as it does where the C library handles UTF-8
    text. *)

Definition pad2 (n : Z) : string :=
  if n <? 10 then "0" ++ PyStr.str_int n else PyStr.str_int n.

Definition pad4 (n : Z) : string :=
  if n <? 10 then "000" ++ PyStr.str_int n
  else if n <? 100 then "00" ++ PyStr.str_int n
  else if n <? 1000 then "0" ++ PyStr.str_int n
  else PyStr.str_int n.

Definition strftime_cn (t : datetime) : string :=
  pad4 (year t) ++ "年" ++ pad2 (month t) ++ "月" ++ pad2 (day t) ++ "日".

End PyDatetime.

(** ** The tools of [utils/rent_tools.py] *)

Module RentTools.

Import PyStr PyFloat PyDatetime.

(** *** [calculate_rent] *)

Definition calculate_rent (monthly_rent : float) (stay_months : Z)
    (deposit : float) (is_early_termination : bool)
    (notice_period_months : Z) : result string :=
  total_rent <- mul_int monthly_rent stay_months ;;
  if is_early_termination then
    penalty <- mul_int monthly_rent notice_period_months ;;
    let refundable_deposit := max zero (sub deposit penalty) in
    Ok ("🏠 Rent Calculation Result:" ++ nl ++
        "- Monthly Rent: S$" ++ format_2f monthly_rent ++ nl ++
        "- Actual Stay Duration: " ++ str_int stay_months ++ " months" ++ nl ++
        "- Total Rent Payable: S$" ++ format_2f total_rent ++ nl ++
        "- Early Termination Penalty (Notice Period: " ++
          str_int notice_period_months ++ " months): S$" ++
          format_2f penalty ++ nl ++
        "- Deposit Paid: S$" ++ format_2f deposit ++ nl ++
        "- Refundable Deposit: S$" ++ format_2f refundable_deposit ++ nl ++
        "⚠️ Note: The penalty calculation is based on common rental contract terms and is subject to your specific contract.")
  else
    let refundable_deposit := deposit in
    Ok ("🏠 Rent Calculation Result:" ++ nl ++
        "- Monthly Rent: S$" ++ format_2f monthly_rent ++ nl ++
        "- Actual Stay Duration: " ++ str_int stay_months ++ " months" ++ nl ++
        "- Total Rent Payable: S$" ++ format_2f total_rent ++ nl ++
        "- Deposit Paid: S$" ++ format_2f deposit ++ nl ++
        "- Refundable Deposit (No Damage): S$" ++ format_2f refundable_deposit).

(** The amounts [calculate_rent] holds in its local variables when it
    returns; [penalty] exists on the early-termination path only. *)
Record RentAmounts : Type := {
  total_rent : float;
  penalty : option float;
  refundable_deposit : float
}.

Definition rent_amounts (monthly_rent : float) (stay_months : Z)
    (deposit : float) (is_early_termination : bool)
    (notice_period_months : Z) : result RentAmounts :=
  total_rent <- mul_int monthly_rent stay_months ;;
  if is_early_termination then
    penalty <- mul_int monthly_rent notice_period_months ;;
    let refundable_deposit := max zero (sub deposit penalty) in
    Ok {| total_rent := total_rent; penalty := Some penalty;
          refundable_deposit := refundable_deposit |}
  else
    let refundable_deposit := deposit in
    Ok {| total_rent := total_rent; penalty := None;
          refundable_deposit := refundable_deposit |}.

(** The text the f-strings of [calculate_rent] build from the inputs and
    the amounts. *)
Definition rent_report (monthly_rent : float) (stay_months : Z)
    (deposit : float) (notice_period_months : Z) (a : RentAmounts) : string :=
  match penalty a with
  | Some p =>
      "🏠 Rent Calculation Result:" ++ nl ++
      "- Monthly Rent: S$" ++ format_2f monthly_rent ++ nl ++
      "- Actual Stay Duration: " ++ str_int stay_months ++ " months" ++ nl ++
      "- Total Rent Payable: S$" ++ format_2f (total_rent a) ++ nl ++
      "- Early Termination Penalty (Notice Period: " ++
        str_int notice_period_months ++ " months): S$" ++
        format_2f p ++ nl ++
      "- Deposit Paid: S$" ++ format_2f deposit ++ nl ++
      "- Refundable Deposit: S$" ++ format_2f (refundable_deposit a) ++ nl ++
      "⚠️ Note: The penalty calculation is based on common rental contract terms and is subject to your specific contract."
  | None =>
      "🏠 Rent Calculation Result:" ++ nl ++
      "- Monthly Rent: S$" ++ format_2f monthly_rent ++ nl ++
      "- Actual Stay Duration: " ++ str_int stay_months ++ " months" ++ nl ++
      "- Total Rent Payable: S$" ++ format_2f (total_rent a) ++ nl ++
      "- Deposit Paid: S$" ++ format_2f deposit ++ nl ++
      "- Refundable Deposit (No Damage): S$" ++
        format_2f (refundable_deposit a)
  end.

(** *** [calculate_moveout_date] *)

(** The body of the [try] block. *)
Definition moveout_try (current_date : string) (notice_days : Z)
    : result string :=
  current <- strptime_ymd current_date ;;
  delta <- timedelta_days notice_days ;;
  moveout_date <- add_days current delta ;;
  let days_remaining := sub_days moveout_date current in
  Ok ("📅 Move-Out Date Calculation Result:" ++ nl ++
      "- Notice Submission Date: " ++ strftime_cn current ++ nl ++
      "- Notice Period: " ++ str_int notice_days ++ "天" ++ nl ++
      "- Move-Out Deadline: " ++ strftime_cn moveout_date ++ nl ++
      "- Days Remaining: " ++ str_int days_remaining ++ "天" ++ nl ++
      "✅ Please complete the move-out inspection and key handover before the deadline.").

(** The [except Exception as e] handler. *)
Definition moveout_except (e : exn) : string :=
  "❌ Date Calculation Error: " ++ str_exn e ++
  ". Please ensure the date format is YYYY-MM-DD (e.g., 2025-03-01).".

Definition calculate_moveout_date (current_date : string) (notice_days : Z)
    : string :=
  match moveout_try current_date notice_days with
  | Ok narrative => narrative
  | Raise e => moveout_except e
  end.

(** The dates [calculate_moveout_date] holds in its local variables when
    the [try] block completes. *)
Record MoveOutDates : Type := {
  current : datetime;
  moveout_date : datetime;
  days_remaining : Z
}.

Definition moveout_dates (current_date : string) (notice_days : Z)
    : result MoveOutDates :=
  current <- strptime_ymd current_date ;;
  delta <- timedelta_days notice_days ;;
  moveout_date <- add_days current delta ;;
  let days_remaining := sub_days moveout_date current in
  Ok {| current := current; moveout_date := moveout_date;
        days_remaining := days_remaining |}.

Definition moveout_report (notice_days : Z) (r : MoveOutDates) : string :=
  "📅 Move-Out Date Calculation Result:" ++ nl ++
  "- Notice Submission Date: " ++ strftime_cn (current r) ++ nl ++
  "- Notice Period: " ++ str_int notice_days ++ "天" ++ nl ++
  "- Move-Out Deadline: " ++ strftime_cn (moveout_date r) ++ nl ++
  "- Days Remaining: " ++ str_int (days_remaining r) ++ "天" ++ nl ++
  "✅ Please complete the move-out inspection and key handover before the deadline.".

(** *** [get_repair_responsibility]

    [cost > 0] and [cost <= 200] compare a float with an [int]; Python
    compares the exact values, which for these two integers is the
    comparison with the floats [0.0] and [200.0]. *)

Definition structural_keywords : list string :=
  ["light"; "roof"; "pipe"; "circuit"; "structure"].

Definition get_repair_responsibility (repair_type : string) (cost : float)
    : string :=
  let repair_type := lower repair_type in
  if contains "bulb" repair_type || contains "tube" repair_type then
    "💡 " ++ repair_type ++ " maintenance responsibility: Tenant bears (needs to be replaced by themselves, cost borne by themselves)"
  else if contains "air conditioner" repair_type then
    "❄️ " ++ repair_type ++ " maintenance responsibility:" ++ nl ++
    "- Regular maintenance (every 3 months): Landlord bears" ++ nl ++
    "- Normal wear and tear (non-human causes): Landlord bears" ++ nl ++
    "- Damage caused by improper use: Tenant bears" ++ nl ++
    "⚠️ Subject to specific contract terms."
  else if gtb cost zero then
    if leb cost f200 then
      "💰 " ++ repair_type ++ " maintenance (S$" ++ format_2f cost ++ "): Tenant bears full responsibility (small repair clause)"
    else
      let tenant_share := f200 in
      let landlord_share := sub cost f200 in
      "💰 " ++ repair_type ++ " maintenance (S$" ++ format_2f cost ++ "):" ++ nl ++
      "- Tenant bears: S$" ++ format_2f tenant_share ++ nl ++
      "- Landlord bears: S$" ++ format_2f landlord_share ++ nl ++
      "⚠️ Usually, the portion exceeding S$200 is borne by the landlord."
  else if existsb (fun k => contains k repair_type) structural_keywords then
    "🏗️ " ++ repair_type ++ " maintenance responsibility: Landlord bears (belongs to building structure or public facilities)"
  else
    "ℹ️ Unable to determine " ++ repair_type ++ " maintenance responsibility, please refer to the rental contract terms or provide more details.".

(** The branch [get_repair_responsibility] takes, with the shares it
    computes on the branch that has them. *)
Inductive RepairVerdict : Type :=
| TenantConsumable
| LandlordMaintained
| SmallRepair
| SharedCost (tenant_share landlord_share : float)
| Structural
| Undetermined.

Definition repair_verdict (repair_type : string) (cost : float)
    : RepairVerdict :=
  let repair_type := lower repair_type in
  if contains "bulb" repair_type || contains "tube" repair_type then
    TenantConsumable
  else if contains "air conditioner" repair_type then
    LandlordMaintained
  else if gtb cost zero then
    if leb cost f200 then SmallRepair
    else
      let tenant_share := f200 in
      let landlord_share := sub cost f200 in
      SharedCost tenant_share landlord_share
  else if existsb (fun k => contains k repair_type) structural_keywords then
    Structural
  else
    Undetermined.

(** The text each branch returns; [repair_type] is the lowered text. *)
Definition repair_report (repair_type : string) (cost : float)
    (v : RepairVerdict) : string :=
  match v with
  | TenantConsumable =>
      "💡 " ++ repair_type ++ " maintenance responsibility: Tenant bears (needs to be replaced by themselves, cost borne by themselves)"
  | LandlordMaintained =>
      "❄️ " ++ repair_type ++ " maintenance responsibility:" ++ nl ++
      "- Regular maintenance (every 3 months): Landlord bears" ++ nl ++
      "- Normal wear and tear (non-human causes): Landlord bears" ++ nl ++
      "- Damage caused by improper use: Tenant bears" ++ nl ++
      "⚠️ Subject to specific contract terms."
  | SmallRepair =>
      "💰 " ++ repair_type ++ " maintenance (S$" ++ format_2f cost ++ "): Tenant bears full responsibility (small repair clause)"
  | SharedCost tenant_share landlord_share =>
      "💰 " ++ repair_type ++ " maintenance (S$" ++ format_2f cost ++ "):" ++ nl ++
      "- Tenant bears: S$" ++ format_2f tenant_share ++ nl ++
      "- Landlord bears: S$" ++ format_2f landlord_share ++ nl ++
      "⚠️ Usually, the portion exceeding S$200 is borne by the landlord."
  | Structural =>
      "🏗️ " ++ repair_type ++ " maintenance responsibility: Landlord bears (belongs to building structure or public facilities)"
  | Undetermined =>
      "ℹ️ Unable to determine " ++ repair_type ++ " maintenance responsibility, please refer to the rental contract terms or provide more details."
  end.

End RentTools.

(** ** Reading the results

    The tools return text.  The definitions of this part name what the
    text says, in the vocabulary of the calculators' contract: the
    category of a repair and the shares of a split, the calendar day that
    follows a day, the occurrence of a keyword whatever its case. *)

Module Reading.

Import PyStr PyFloat PyDatetime RentTools.

Inductive Category : Type :=
| tenant_consumable
| landlord_maintained
| cost_split
| structural
| undetermined.

Definition category (v : RepairVerdict) : Category :=
  match v with
  | TenantConsumable => tenant_consumable
  | LandlordMaintained => landlord_maintained
  | SmallRepair => cost_split
  | SharedCost _ _ => cost_split
  | Structural => structural
  | Undetermined => undetermined
  end.

(** The category a narrative announces by the sign it opens with. *)
Definition category_of (narrative : string) : option Category :=
  if startswith "💡" narrative then Some tenant_consumable
  else if startswith "❄️" narrative then Some landlord_maintained
  else if startswith "💰" narrative then Some cost_split
  else if startswith "🏗️" narrative then Some structural
  else if startswith "ℹ️" narrative then Some undetermined
  else None.

(** The tenant's and the landlord's share of a cost-split verdict: the
    whole cost on the tenant under the small repair clause, the computed
    shares otherwise. *)
Definition split_shares (cost : float) (v : RepairVerdict)
    : option (float * float) :=
  match v with
  | SmallRepair => Some (cost, zero)
  | SharedCost tenant_share landlord_share =>
      Some (tenant_share, landlord_share)
  | _ => None
  end.

(** [kw] occurs in [s] whatever the case of the letters of [s]. *)
Definition occurs_ci (kw s : string) : Prop :=
  exists pre mid post, s = pre ++ mid ++ post /\ lower mid = kw.

(** The day after a day of the calendar. *)
Definition next_day (t : datetime) : datetime :=
  if day t <? days_in_month (year t) (month t) then
    {| year := year t; month := month t; day := day t + 1 |}
  else if month t <? 12 then
    {| year := year t; month := month t + 1; day := 1 |}
  else
    {| year := year t + 1; month := 1; day := 1 |}.

(** The day [n] calendar days after a day. *)
Fixpoint plus_days (n : nat) (t : datetime) : datetime :=
  match n with
  | O => t
  | S k => next_day (plus_days k t)
  end.

(** A day of the calendar, in any year from 1 on. *)
Definition is_date (t : datetime) : bool :=
  (1 <=? year t) && (1 <=? month t) && (month t <=? 12) &&
  (1 <=? day t) && (day t <=? days_in_month (year t) (month t)).

(** The narrative of the [except] handler. *)
Definition is_error_narrative (narrative : string) : bool :=
  startswith "❌ Date Calculation Error: " narrative.

(** An integer Python converts to [float] without [OverflowError]. *)
Definition convertible (n : Z) : bool :=
  match round_int n with
  | S754_infinity _ => false
  | _ => true
  end.

(** Whether the character [b] comes right after the character [a]
    somewhere in a text; [armed] tells that the text follows an [a]. *)
Fixpoint follows (a b : ascii) (armed : bool) (s : string) : bool :=
  match s with
  | EmptyString => false
  | String x s' =>
      (armed && Ascii.eqb x b) || follows a b (Ascii.eqb x a) s'
  end.

(** Every character of a text passes a test. *)
Fixpoint all_chars (P : ascii -> bool) (s : string) : bool :=
  match s with
  | EmptyString => true
  | String x s' => P x && all_chars P s'
  end.

(** The characters numbers are printed with. *)
Definition numeric_char (c : ascii) : bool :=
  is_digit c || has_char c "-.infa".

(** A character of ASCII that [repr] leaves as it is inside single
    quotes: printable, and neither the single quote nor the backslash. *)
Definition plain_char (c : ascii) : bool :=
  let n := nat_of_ascii c in
  (32 <=? n)%nat && (n <? 127)%nat &&
  negb (Ascii.eqb c squote || Ascii.eqb c "\").

(** A text of printable characters of ASCII without single quote or
    backslash. *)
Definition plain (s : string) : bool := all_chars plain_char s.

(** A date written as YYYY-MM-DD, as [date.isoformat()] writes it. *)
Definition isoformat (t : datetime) : string :=
  pad4 (year t) ++ "-" ++ pad2 (month t) ++ "-" ++ pad2 (day t).

(** The year [y] is written with four digits that read back as [y]. *)
Definition year_written (y : Z) : bool :=
  match pad4 y with
  | String a (String b (String c (String d EmptyString))) =>
      is_digit a && is_digit b && is_digit c && is_digit d &&
      (int_group 0 (pad4 y) =? y)
  | _ => false
  end.

End Reading.

(** ** The days of a year

    [_ord2ymd] first finds the year of an ordinal and the rank of the day
    in that year, then the month and the day from the rank.  [month_day]
    is that second step; it is checked against the months of a common
    year and of a leap year, day by day. *)

Module YearDays.

Import PyDatetime Reading.

(** The month and the day of the day of rank [n] (from 0) of a year. *)
Definition month_day (leapyear : bool) (n : Z) : Z * Z :=
  let month := Z.shiftr (n + 50) 5 in
  let preceding :=
    nth (Z.to_nat month) DAYS_BEFORE_MONTH 0 +
    (if (2 <? month) && leapyear then 1 else 0) in
  if n <? preceding then
    let month := month - 1 in
    let preceding :=
      preceding - (nth (Z.to_nat month) DAYS_IN_MONTH 0 +
                   (if (month =? 2) && leapyear then 1 else 0)) in
    (month, n - preceding + 1)
  else (month, n - preceding + 1).

(** [P] holds of the [k] integers from [lo] on. *)
Fixpoint holds_from (P : Z -> bool) (lo : Z) (k : nat) : bool :=
  match k with
  | O => true
  | S k' => P lo && holds_from P (lo + 1) k'
  end.

(** In the year [y], the day [d] of the month [m], when there is one and
    it is not the 366th of the year, is found back from its rank. *)
Definition day_found (y m d : Z) : bool :=
  let n := days_before_month y m + d - 1 in
  implb ((d <=? days_in_month y m) && (n <=? 364))
        (let '(m', d') := month_day (is_leap y) n in (m' =? m) && (d' =? d)).

Definition year_found (y : Z) : bool :=
  holds_from (fun m => holds_from (fun d => day_found y m d) 1 31) 1 12.

End YearDays.

(** ** Dates as [strptime] reads them

    The texts the pattern of [strptime(s, "%Y-%m-%d")] takes for a month
    and for a day, and the ways a date can be written with them. *)

Module Written.

Import PyStr PyDatetime Reading.

(** The texts of the group [m]: [1[0-2]], [0[1-9]], [[1-9]]. *)
Definition m_groups : list string :=
  ["10"; "11"; "12";
   "01"; "02"; "03"; "04"; "05"; "06"; "07"; "08"; "09";
   "1"; "2"; "3"; "4"; "5"; "6"; "7"; "8"; "9"].

(** The texts of two characters of the group [d]: [3[0-1]], [[1-2]\d],
    [0[1-9]] and [ [1-9]]. *)
Definition d_groups2 : list string :=
  ["30"; "31";
   "10"; "11"; "12"; "13"; "14"; "15"; "16"; "17"; "18"; "19";
   "20"; "21"; "22"; "23"; "24"; "25"; "26"; "27"; "28"; "29";
   "01"; "02"; "03"; "04"; "05"; "06"; "07"; "08"; "09";
   " 1"; " 2"; " 3"; " 4"; " 5"; " 6"; " 7"; " 8"; " 9"].

(** The texts of one character of the group [d]: [[1-9]]. *)
Definition d_groups1 : list string :=
  ["1"; "2"; "3"; "4"; "5"; "6"; "7"; "8"; "9"].

(** The ways to write a month: with two digits, or with one when it has
    one. *)
Definition month_texts (m : Z) : list string :=
  if m <? 10 then [pad2 m; str_int m] else [str_int m].

(** The ways to write a day: with two digits, or with one digit, alone or
    after a blank, when it has one. *)
Definition day_texts (d : Z) : list string :=
  if d <? 10 then [pad2 d; str_int d; " " ++ str_int d] else [str_int d].

(** The ways to write a date. *)
Definition date_texts (t : datetime) : list string :=
  flat_map (fun ms =>
    map (fun ds => pad4 (year t) ++ "-" ++ ms ++ "-" ++ ds)
        (day_texts (day t)))
    (month_texts (month t)).

(** A text of ASCII characters only. *)
Definition ascii_text (s : string) : bool :=
  all_chars (fun c => (nat_of_ascii c <? 128)%nat) s.

(** The ten digits. *)
Definition digits : list ascii :=
  ["0"; "1"; "2"; "3"; "4"; "5"; "6"; "7"; "8"; "9"]%char.

(** Four digits are the year they spell, written with four digits. *)
Definition year_read (a b c d : ascii) : bool :=
  let Y := String a (String b (String c (String d EmptyString))) in
  String.eqb (pad4 (int_group 0 Y)) Y.

(** A group of the pattern is a way to write the number it stands for. *)
Definition month_read (g : string) : bool :=
  let m := int_group 0 g in
  (1 <=? m) && (m <=? 12) && existsb (String.eqb g) (month_texts m).

Definition day_read (g : string) : bool :=
  let d := int_group 0 g in
  (1 <=? d) && (d <=? 31) && existsb (String.eqb g) (day_texts d).

(** [a < b] for two [datetime]s: by year, then month, then day. *)
Definition date_ltb (a b : datetime) : bool :=
  (year a <? year b) ||
  ((year a =? year b) &&
   ((month a <? month b) ||
    ((month a =? month b) && (day a <? day b)))).

End Written.

(** ** SHA-256

    [hashlib.sha256(data).hexdigest()], after FIPS 180-4: words of 32 bits
    as integers below [2^32], the message as its bytes. *)

Module Sha256.

Definition mask : Z := 0xffffffff.

Definition add32 (x y : Z) : Z := Z.land (x + y) mask.

Definition ROTR (n x : Z) : Z :=
  Z.land (Z.lor (Z.shiftr x n) (Z.shiftl x (32 - n))) mask.

Definition SHR (n x : Z) : Z := Z.shiftr x n.

Definition not32 (x : Z) : Z := Z.lxor x mask.

Definition Ch (x y z : Z) : Z := Z.lxor (Z.land x y) (Z.land (not32 x) z).

Definition Maj (x y z : Z) : Z :=
  Z.lxor (Z.lxor (Z.land x y) (Z.land x z)) (Z.land y z).

Definition Sigma0 (x : Z) : Z :=
  Z.lxor (Z.lxor (ROTR 2 x) (ROTR 13 x)) (ROTR 22 x).

Definition Sigma1 (x : Z) : Z :=
  Z.lxor (Z.lxor (ROTR 6 x) (ROTR 11 x)) (ROTR 25 x).

Definition sigma0 (x : Z) : Z :=
  Z.lxor (Z.lxor (ROTR 7 x) (ROTR 18 x)) (SHR 3 x).

Definition sigma1 (x : Z) : Z :=
  Z.lxor (Z.lxor (ROTR 17 x) (ROTR 19 x)) (SHR 10 x).

(** The first [n] primes after those of [found], by trial division from
    [k] on. *)
Fixpoint primes (fuel n : nat) (k : Z) (found : list Z) : list Z :=
  match fuel, n with
  | S fuel', S n' =>
      if forallb (fun p => negb (k mod p =? 0)) found
      then primes fuel' n' (k + 1) (found ++ [k])%list
      else primes fuel' n (k + 1) found
  | _, _ => found
  end.

(** The largest [r] with [r ^ e <= x], found bit by bit below [2 ^ bits]. *)
Fixpoint root (e : Z) (x : Z) (bits : nat) (r : Z) : Z :=
  match bits with
  | O => r
  | S bits' =>
      let r' := r + 2 ^ Z.of_nat bits' in
      root e x bits' (if r' ^ e <=? x then r' else r)
  end.

(** The first 32 bits of the fractional part of the root of order [e] of
    [p]. *)
Definition fraction (e p : Z) : Z :=
  Z.land (root e (Z.shiftl p (32 * e)) 48 0) mask.

(** The constants: from the cube roots of the first 64 primes. *)
Definition K : list Z :=
  Eval vm_compute in map (fraction 3) (primes 400 64 2 []).

(** The eight working variables, and the hash value between blocks. *)
Record state : Type := {
  va : Z; vb : Z; vc : Z; vd : Z; ve : Z; vf : Z; vg : Z; vh : Z
}.

(** The initial hash value: from the square roots of the first 8
    primes. *)
Definition H0 : state :=
  {| va := fraction 2 2; vb := fraction 2 3; vc := fraction 2 5;
     vd := fraction 2 7; ve := fraction 2 11; vf := fraction 2 13;
     vg := fraction 2 17; vh := fraction 2 19 |}.

(** The bytes of a text. *)
Fixpoint bytes (s : string) : list Z :=
  match s with
  | EmptyString => []
  | String c s' => Z.of_nat (nat_of_ascii c) :: bytes s'
  end.

(** The 64 bits of a length, high byte first. *)
Definition be64 (n : Z) : list Z :=
  map (fun i => Z.land (Z.shiftr n (8 * i)) 255) [7; 6; 5; 4; 3; 2; 1; 0].

(** The message, a bit 1, zeros up to 56 bytes modulo 64, and the length
    of the message in bits. *)
Definition pad (msg : list Z) : list Z :=
  let l := Z.of_nat (List.length msg) in
  (msg ++ [128] ++ repeat 0 (Z.to_nat ((55 - l) mod 64)) ++ be64 (8 * l))%list.

(** The words of a sequence of bytes, high byte first. *)
Fixpoint words (bs : list Z) : list Z :=
  match bs with
  | a :: b :: c :: d :: rest =>
      (Z.shiftl a 24 + Z.shiftl b 16 + Z.shiftl c 8 + d) :: words rest
  | _ => []
  end.

(** The blocks of 16 words. *)
Fixpoint blocks (n : nat) (ws : list Z) : list (list Z) :=
  match n with
  | O => []
  | S n' => firstn 16 ws :: blocks n' (skipn 16 ws)
  end.

(** The message schedule: [n] more words after those of [w]. *)
Fixpoint extend (n : nat) (w : list Z) : list Z :=
  match n with
  | O => w
  | S n' =>
      let t := List.length w in
      let x := add32 (add32 (add32 (sigma1 (nth (t - 2) w 0))
                                   (nth (t - 7) w 0))
                            (sigma0 (nth (t - 15) w 0)))
                     (nth (t - 16) w 0) in
      extend n' (w ++ [x])%list
  end.

Definition schedule (block : list Z) : list Z := extend 48 block.

(** One round, with its constant and its word of the schedule. *)
Definition round (s : state) (kw : Z * Z) : state :=
  let (k, w) := kw in
  let T1 := add32 (add32 (add32 (add32 (vh s) (Sigma1 (ve s)))
                                (Ch (ve s) (vf s) (vg s))) k) w in
  let T2 := add32 (Sigma0 (va s)) (Maj (va s) (vb s) (vc s)) in
  {| va := add32 T1 T2; vb := va s; vc := vb s; vd := vc s;
     ve := add32 (vd s) T1; vf := ve s; vg := vf s; vh := vg s |}.

Definition compress (h : state) (block : list Z) : state :=
  let s := fold_left round (combine K (schedule block)) h in
  {| va := add32 (va h) (va s); vb := add32 (vb h) (vb s);
     vc := add32 (vc h) (vc s); vd := add32 (vd h) (vd s);
     ve := add32 (ve h) (ve s); vf := add32 (vf h) (vf s);
     vg := add32 (vg h) (vg s); vh := add32 (vh h) (vh s) |}.

Definition digest (msg : list Z) : state :=
  let ws := words (pad msg) in
  fold_left compress (blocks (List.length ws / 16) ws) H0.

(** The hexadecimal digit of the four bits of [w] from bit [4 * i]. *)
Definition hex (w : Z) (i : Z) : ascii :=
  PyStr.hex_digit (Z.to_nat (Z.land (Z.shiftr w (4 * i)) 15)).

Definition hex8 (w : Z) (rest : string) : string :=
  String (hex w 7) (String (hex w 6) (String (hex w 5) (String (hex w 4)
 (String (hex w 3) (String (hex w 2) (String (hex w 1) (String (hex w 0)
  rest))))))).

Definition hexdigest (s : state) : string :=
  hex8 (va s) (hex8 (vb s) (hex8 (vc s) (hex8 (vd s)
 (hex8 (ve s) (hex8 (vf s) (hex8 (vg s) (hex8 (vh s) EmptyString))))))).

(** [hashlib.sha256(s.encode("utf-8")).hexdigest()] *)
Definition sha256_hexdigest (s : string) : string := hexdigest (digest (bytes s)).

End Sha256.

(** ** The accounts of [utils/user_auth.py]

    [db/users.json] holds a JSON object: for each role, the object of its
    accounts, by user name; an account is its password digest and its
    e-mail address.  A Python [dict] keeps its keys in the order they were
    added, and so does the file: a dict is the list of its items, in that
    order, each key once.  The state of the functions is the file. *)

Module UserAuth.

Section Dict.

Context {V : Type}.

(** [d.get(k)] *)
Fixpoint get (k : string) (d : list (string * V)) : option V :=
  match d with
  | [] => None
  | (k', v) :: d' => if String.eqb k' k then Some v else get k d'
  end.

(** [k in d] *)
Definition has (k : string) (d : list (string * V)) : bool :=
  match get k d with
  | Some _ => true
  | None => false
  end.

(** [d[k] = v]: in the place of the key, or at the end for a new key. *)
Fixpoint set (k : string) (v : V) (d : list (string * V))
    : list (string * V) :=
  match d with
  | [] => [(k, v)]
  | (k', v') :: d' =>
      if String.eqb k' k then (k, v) :: d' else (k', v') :: set k v d'
  end.

End Dict.

(** [{"password": ..., "email": ...}] *)
Record Account : Type := { password : string; email : string }.

Definition Accounts : Type := list (string * Account).

Definition Users : Type := list (string * Accounts).

(** The file [db/users.json]: [None] when there is no file or an empty
    one, its content otherwise. *)
Definition File : Type := option Users.

(** What [_init_user_db] leaves in the file: what is there, or the two
    roles without accounts. *)
Definition _init_user_db (file : File) : Users :=
  match file with
  | Some users => users
  | None => [("landlords", []); ("tenants", [])]
  end.

Definition _hash_password (p : string) : string :=
  Sha256.sha256_hexdigest p.

(** [register_user(username, password, role, email)]: the pair it
    returns, and the file it leaves. *)
Definition register_user (username password role email : string)
    (file : File) : (bool * string) * File :=
  let users := _init_user_db file in
  match get role users with
  | None => ((false, "Invalid user role."), Some users)
  | Some accounts =>
      if has username accounts then
        ((false, "Username " ++ username ++ " already exists."), Some users)
      else
        let accounts :=
          set username {| password := _hash_password password;
                          email := email |} accounts in
        let users := set role accounts users in
        ((true, "Registration successful, welcome " ++ username ++ "!"),
         Some users)
  end.

(** [authenticate_user(username, password, role)] *)
Definition authenticate_user (username password role : string)
    (file : File) : (bool * string) * File :=
  let users := _init_user_db file in
  match get role users with
  | None => ((false, "Invalid user role."), Some users)
  | Some accounts =>
      match get username accounts with
      | None => ((false, "User does not exist."), Some users)
      | Some account =>
          if negb (String.eqb (UserAuth.password account)
                              (_hash_password password))
          then ((false, "Incorrect password."), Some users)
          else ((true, "Login successful!"), Some users)
      end
  end.

End UserAuth.

(** ** The forms of [app.py] and [pages/register.py]

    What pressing the button of a form does, from the values of its
    widgets: the message the page shows, the page it switches to, and
    the file of the accounts afterwards. *)

Module Pages.

Import UserAuth.

(** The choice of [st.radio("...", ["Tenant", "Landlord"])]. *)
Inductive RoleDisplay : Type := Tenant | Landlord.

Definition label (r : RoleDisplay) : string :=
  match r with
  | Tenant => "Tenant"
  | Landlord => "Landlord"
  end.

(** [role_map[role_display]] in [app.py]. *)
Definition role_map (role_display : RoleDisplay) : string :=
  match role_display with
  | Tenant => "tenants"
  | Landlord => "landlords"
  end.

(** ["tenants" if role_display == "Tenant" else "landlords"] in
    [pages/register.py]. *)
Definition register_role (role_display : RoleDisplay) : string :=
  if String.eqb (label role_display) "Tenant" then "tenants" else "landlords".

(** What a page shows. *)
Inductive Shown : Type :=
| warning (msg : string)
| error (msg : string)
| success (msg : string).

(** [not s] for a text. *)
Definition empty (s : string) : bool :=
  match s with
  | EmptyString => true
  | String _ _ => false
  end.

(** The button "Register": what is shown, whether the page switches to
    [app.py], and the file. *)
Definition register_click (role_display : RoleDisplay)
    (landlord_key username password confirm email : string) (file : File)
    : Shown * bool * File :=
  let role := register_role role_display in
  if empty username || empty password then
    (warning "⚠️ Username and password cannot be empty.", false, file)
  else if negb (String.eqb password confirm) then
    (warning "⚠️ Passwords do not match.", false, file)
  else if String.eqb role "landlords" &&
          (empty landlord_key || negb (String.eqb landlord_key "ilovedss"))
  then (error "❌ Invalid landlord registration key.", false, file)
  else
    let '((ok, msg), file) := register_user username password role email file in
    if ok then
      (success "✅ Registration successful! Please return to the login page.",
       true, file)
    else (error msg, false, file).

(** [st.session_state] after a login: the user name and the role, when
    someone is logged in. *)
Definition Session : Type := option (string * string).

(** The button "Login": what is shown, the session, the page the
    browser is sent to, and the file. *)
Definition login_click (role_display : RoleDisplay)
    (username password : string) (session : Session) (file : File)
    : Shown * Session * option string * File :=
  let role := role_map role_display in
  if empty username || empty password then
    (warning "⚠️ Please enter your username and password.", session, None,
     file)
  else
    let '((ok, msg), file) := authenticate_user username password role file in
    if ok then
      (success "✅ Login successful! Redirecting...",
       Some (username, role),
       Some (if String.eqb role "landlords" then "pages/landlord_portal.py"
             else "pages/tenant_chat.py"),
       file)
    else (error msg, session, None, file).

End Pages.

(** ** Histories of the accounts

    The registrations made one after the other, from a file, and what
    they leave of a user name. *)

Module History.

Import PyDatetime Reading UserAuth Pages.

(** [users[role][username]], when there is one. *)
Definition account_of (username role : string) (users : Users)
    : option Account :=
  match get role users with
  | Some accounts => get username accounts
  | None => None
  end.

(** One call of [register_user]. *)
Record Registration : Type := {
  reg_username : string;
  reg_password : string;
  reg_role : string;
  reg_email : string
}.

Definition register (file : File) (r : Registration) : File :=
  snd (register_user (reg_username r) (reg_password r) (reg_role r)
         (reg_email r) file).

(** The file after the calls, in their order. *)
Definition registered (history : list Registration) (file : File) : File :=
  fold_left register history file.

Definition known_role (role : string) : bool :=
  String.eqb role "landlords" || String.eqb role "tenants".

(** The password of the first call for a user name in a role. *)
Fixpoint first_password (username role : string)
    (history : list Registration) : option string :=
  match history with
  | [] => None
  | r :: history' =>
      if String.eqb (reg_username r) username && String.eqb (reg_role r) role
      then Some (reg_password r)
      else first_password username role history'
  end.

(** One press of the button "Register", with the values of the form. *)
Record RegisterForm : Type := {
  form_role : RoleDisplay;
  form_key : string;
  form_username : string;
  form_password : string;
  form_confirm : string;
  form_email : string
}.

Definition submit (file : File) (f : RegisterForm) : File :=
  snd (register_click (form_role f) (form_key f) (form_username f)
         (form_password f) (form_confirm f) (form_email f) file).

Definition submitted (forms : list RegisterForm) (file : File) : File :=
  fold_left submit forms file.

(** The form passes the checks of the page. *)
Definition accepted (f : RegisterForm) : bool :=
  negb (empty (form_username f)) && negb (empty (form_password f)) &&
  String.eqb (form_password f) (form_confirm f) &&
  match form_role f with
  | Tenant => true
  | Landlord => String.eqb (form_key f) "ilovedss"
  end.

Definition same_role (a b : RoleDisplay) : bool :=
  match a, b with
  | Tenant, Tenant => true
  | Landlord, Landlord => true
  | _, _ => false
  end.

(** The first form accepted for a user name in a role. *)
Definition first_form (username : string) (role_display : RoleDisplay)
    (forms : list RegisterForm) : option RegisterForm :=
  find (fun f => accepted f && String.eqb (form_username f) username &&
                 same_role (form_role f) role_display) forms.

(** The call of [register_user] an accepted form makes. *)
Definition registration_of (f : RegisterForm) : Registration :=
  {| reg_username := form_username f;
     reg_password := form_password f;
     reg_role := register_role (form_role f);
     reg_email := form_email f |}.

(** The keys of a dict. *)
Definition keys {V : Type} (d : list (string * V)) : list string :=
  map fst d.

(** A digest as [hexdigest] writes it: 64 digits of base 16, the letters
    in lower case. *)
Definition hex_char (c : ascii) : bool :=
  is_digit c || in_range "a" "f" c.

Definition is_digest (s : string) : bool :=
  (String.length s =? 64)%nat && all_chars hex_char s.

(** The file holds the two roles, each user name once, and digests for
    passwords. *)
Definition sound (users : Users) : Prop :=
  keys users = ["landlords"; "tenants"] /\
  forall role accounts,
    get role users = Some accounts ->
    NoDup (keys accounts) /\
    forall username account,
      get username accounts = Some account ->
      is_digest (password account) = true.

End History.

(** ** The table of leases of [pages/landlord_portal.py]

    The rows the page builds from the [metadata.json] of each lease, the
    button that asks to delete a lease and the path removed when the
    deletion is confirmed. *)

Module LandlordPortal.

(** What [json.load] returns. *)
#[local] Unset Elimination Schemes.

Inductive json : Type :=
| JNull
| JBool (b : bool)
| JInt (n : Z)
| JFloat (x : PyFloat.float)
| JStr (s : string)
| JList (items : list json)
| JObj (fields : list (string * json)).

#[local] Set Elimination Schemes.

(** The truth value of a value in a condition. *)
Definition truthy (v : json) : bool :=
  match v with
  | JNull => false
  | JBool b => b
  | JInt n => negb (n =? 0)
  | JFloat x => match x with S754_zero _ => false | _ => true end
  | JStr s => negb (Pages.empty s)
  | JList items => match items with [] => false | _ => true end
  | JObj fields => match fields with [] => false | _ => true end
  end.

(** [m.get(k, default)] *)
Definition get_or (k : string) (default : json) (m : list (string * json))
    : json :=
  match UserAuth.get k m with
  | Some v => v
  | None => default
  end.

(** The row of a lease: its directory [name] and what its metadata [m]
    tell. *)
Definition row (name : string) (m : list (string * json)) : list json :=
  [JStr name;
   get_or "tenant_name" (JStr "?") m;
   get_or "monthly_rent" (JStr "?") m;
   get_or "last_updated" (JStr "?") m;
   get_or "version_note" (JStr "-") m;
   JStr (if truthy (get_or "cloud_link" JNull m) then "✅ 有" else "❌ 无");
   JStr name].

(** [r[i]] *)
Definition item (r : list json) (i : nat) : option json := nth_error r i.

(** The button of a row: the value it leaves in
    [st.session_state.delete_confirm]. *)
Definition delete_button (r : list json) : option json := item r 5.

(** [os.path.join("db", contract_id)] for a text that does not start
    with a slash. *)
Definition db_path (contract_id : string) : string := "db/" ++ contract_id.

(** "Confirm Delete": the directory [shutil.rmtree] is given, when the
    dialog is shown. *)
Definition confirm_delete (delete_confirm : option json) : option string :=
  match delete_confirm with
  | Some (JStr contract_id) =>
      if truthy (JStr contract_id) then Some (db_path contract_id) else None
  | _ => None
  end.

End LandlordPortal.

(** ** The reply of the agent in [pages/tenant_chat.py]

    What the chat shows of the result of [agent.invoke]: the first of
    its entries "output", "answer" and "result" that holds a text, what
    follows the last "Observation:" in it, without the white space
    around. *)

Module TenantChat.

Import PyStr.

Definition of_bytes (l : list nat) : string :=
  string_of_list_ascii (map ascii_of_nat l).

(** The characters [str.strip()] takes for white space, in UTF-8: the
    controls 9 to 13 and 28 to 31, the blank, U+0085, U+00A0, U+1680,
    U+2000 to U+200A, U+2028, U+2029, U+202F, U+205F and U+3000. *)
Definition spaces : list string :=
  map of_bytes
    [[9]; [10]; [11]; [12]; [13]; [28]; [29]; [30]; [31]; [32];
     [194; 133]; [194; 160]; [225; 154; 128];
     [226; 128; 128]; [226; 128; 129]; [226; 128; 130]; [226; 128; 131];
     [226; 128; 132]; [226; 128; 133]; [226; 128; 134]; [226; 128; 135];
     [226; 128; 136]; [226; 128; 137]; [226; 128; 138];
     [226; 128; 168]; [226; 128; 169]; [226; 128; 175];
     [226; 129; 159]; [227; 128; 128]]%nat.

(** [s[n:]] *)
Fixpoint drop (n : nat) (s : string) : string :=
  match n, s with
  | S n', String _ s' => drop n' s'
  | _, _ => s
  end.

(** The text after one of [ws] at the start of [s], when there is
    one. *)
Fixpoint after_one (ws : list string) (s : string) : option string :=
  match ws with
  | [] => None
  | w :: ws' =>
      if startswith w s then Some (drop (String.length w) s)
      else after_one ws' s
  end.

(** [s] without the texts of [ws] it starts with, at most [n] of them. *)
Fixpoint strip_start (ws : list string) (n : nat) (s : string) : string :=
  match n with
  | O => s
  | S n' =>
      match after_one ws s with
      | Some s' => strip_start ws n' s'
      | None => s
      end
  end.

Fixpoint rev_onto (s acc : string) : string :=
  match s with
  | EmptyString => acc
  | String c s' => rev_onto s' (String c acc)
  end.

(** [s[::-1]] *)
Definition rev (s : string) : string := rev_onto s EmptyString.

(** [s.lstrip()] *)
Definition lstrip (s : string) : string :=
  strip_start spaces (String.length s) s.

(** [s.rstrip()] *)
Definition rstrip (s : string) : string :=
  rev (strip_start (map rev spaces) (String.length s) (rev s)).

(** [s.strip()] *)
Definition strip (s : string) : string := rstrip (lstrip s).

(** The text after the last [sep] of [s] as [s.split(sep)] cuts it, from
    left to right and without overlap, when there is a [sep]; [skip]
    counts the characters left of a [sep] just found. *)
Fixpoint after_last (sep : string) (skip : nat) (s : string)
    : option string :=
  match s with
  | EmptyString => None
  | String _ s' =>
      match skip with
      | S k => after_last sep k s'
      | O =>
          if startswith sep s then
            match after_last sep (String.length sep - 1) s' with
            | Some t => Some t
            | None => Some (drop (String.length sep - 1) s')
            end
          else after_last sep 0 s'
      end
  end.

(** [s.split(sep)[-1]], for a [sep] that is not empty. *)
Definition split_last (sep s : string) : string :=
  match after_last sep 0 s with
  | Some t => t
  | None => s
  end.

(** A printable character of ASCII other than the blank. *)
Definition printable (c : ascii) : bool :=
  (32 <? nat_of_ascii c)%nat && (nat_of_ascii c <? 127)%nat.

(** The text ends with such a character. *)
Fixpoint ends_printable (s : string) : bool :=
  match s with
  | EmptyString => false
  | String c EmptyString => printable c
  | String _ s' => ends_printable s'
  end.

(** [x or y] for an entry [x] that is missing, [None] or a text. *)
Definition or_text (x : option string) (y : string) : string :=
  match x with
  | Some (String c s) => String c s
  | _ => y
  end.

(** The reply kept of [result = agent.invoke(...)]: [output], [answer]
    and [result] are its entries of these names, [str_result] is
    [str(result)]. *)
Definition agent_reply (output answer result : option string)
    (str_result : string) : string :=
  let reply := or_text output (or_text answer (or_text result str_result)) in
  strip (split_last "Observation:" reply).

End TenantChat.

(** * Properties *)

Import Py PyStr PyFloat PyDatetime RentTools Reading YearDays.

(** ** Strings *)

(** Concatenation, [lower] and the two searches. *)
Lemma append_assoc (a b c : string) : (a ++ b) ++ c = a ++ b ++ c.
Proof. induction a as [|x a IH]; simpl; [reflexivity | now rewrite IH]. Qed.

Lemma append_nil_r (a : string) : a ++ "" = a.
Proof. induction a as [|x a IH]; simpl; [reflexivity | now rewrite IH]. Qed.

Lemma lower_app (a b : string) : lower (a ++ b) = lower a ++ lower b.
Proof. induction a as [|x a IH]; simpl; [reflexivity | now rewrite IH]. Qed.

(** [startswith] finds a prefix, [contains] an occurrence. *)
Lemma startswith_spec (p s : string) :
  startswith p s = true <-> exists post, s = p ++ post.
Proof.
  revert s; induction p as [|a p IH]; intros s; simpl.
  - split; [intros _; now exists s | reflexivity].
  - destruct s as [|b s].
    + split; [discriminate | intros [post H]; discriminate].
    + rewrite andb_true_iff, Ascii.eqb_eq, IH. split.
      * intros [-> [post ->]]. now exists post.
      * intros [post H]. injection H as -> ->. split; [reflexivity | now exists post].
Qed.

Lemma contains_spec (sub s : string) :
  contains sub s = true <-> exists pre post, s = pre ++ sub ++ post.
Proof.
  induction s as [|c s IH]; simpl.
  - rewrite orb_false_r, startswith_spec. split.
    + intros [post H]. now exists "", post.
    + intros [pre [post H]]. destruct pre; [now exists post | discriminate].
  - rewrite orb_true_iff, startswith_spec, IH. split.
    + intros [[post H] | [pre [post H]]].
      * now exists "", post.
      * exists (String c pre), post. simpl. now rewrite H.
    + intros [pre [post H]]. destruct pre as [|x pre]; simpl in H.
      * left. now exists post.
      * right. injection H as _ H. now exists pre, post.
Qed.

Lemma contains_trans (a b c : string) :
  contains a b = true -> contains b c = true -> contains a c = true.
Proof.
  rewrite !contains_spec. intros [p1 [q1 ->]] [p2 [q2 ->]].
  exists (p2 ++ p1), (q1 ++ q2). now rewrite !append_assoc.
Qed.

(** A text whose lowered form splits is split the same way. *)
Lemma lower_split (s a b : string) :
  lower s = a ++ b -> exists a' b', s = a' ++ b' /\ lower a' = a /\ lower b' = b.
Proof.
  revert s; induction a as [|x a IH]; intros s H; simpl in H.
  - exists "", s. simpl. auto.
  - destruct s as [|c s]; simpl in H; [discriminate|].
    injection H as Hx H. destruct (IH s H) as [a' [b' [-> [Ha Hb]]]].
    exists (String c a'), b'. simpl. now rewrite Hx, Ha.
Qed.

(** [kw in s.lower()] finds the occurrences of [kw] whatever their case. *)
Lemma contains_lower_occurs (kw s : string) :
  contains kw (lower s) = true <-> occurs_ci kw s.
Proof.
  rewrite contains_spec. unfold occurs_ci. split.
  - intros [pre [post H]].
    destruct (lower_split _ _ _ H) as [a [r [-> [Ha Hr]]]].
    destruct (lower_split _ _ _ Hr) as [m [b [-> [Hm Hb]]]].
    now exists a, m, b.
  - intros [pre [mid [post [-> Hm]]]].
    exists (lower pre), (lower post). now rewrite !lower_app, Hm.
Qed.

Lemma contains_lower_not_occurs (kw s : string) :
  contains kw (lower s) = false <-> ~ occurs_ci kw s.
Proof.
  rewrite <- contains_lower_occurs. destruct (contains kw (lower s)); split; intros H; try discriminate; auto.
  exfalso. now apply H.
Qed.

(** *** What a text cannot contain

    A pattern in which [b] comes right after [a] does not occur in a text
    in which it never does; this is how a narrative is shown not to mention
    a word. *)

(** An occurrence of [a] then [b] is found wherever it stands. *)
Lemma follows_occurrence (a b : ascii) (armed : bool) (pre post : string) :
  follows a b armed (pre ++ String a (String b post)) = true.
Proof.
  revert armed; induction pre as [|x pre IH]; intros armed; simpl.
  - rewrite !Ascii.eqb_refl. simpl. now rewrite orb_true_r.
  - rewrite IH. now rewrite orb_true_r.
Qed.

(** A text in which [b] never comes right after [a] does not contain a
    pattern in which it does. *)
Lemma follows_contains (a b : ascii) (p1 p2 s : string) :
  follows a b false s = false ->
  contains (p1 ++ String a (String b p2)) s = false.
Proof.
  intros H. apply not_true_is_false. intros E.
  apply contains_spec in E. destruct E as [pre [post ->]].
  rewrite !append_assoc in H. simpl in H.
  rewrite <- append_assoc in H.
  now rewrite follows_occurrence in H.
Qed.

(** A stretch without [a] and without [b] is skipped. *)
Lemma follows_skip (a b : ascii) (mid rest : string) :
  has_char a mid = false -> has_char b mid = false ->
  follows a b false (mid ++ rest) = follows a b false rest.
Proof.
  induction mid as [|x mid IH]; simpl; [reflexivity|].
  intros Ha Hb. apply orb_false_iff in Ha, Hb.
  destruct Ha as [Ha Ha'], Hb as [Hb Hb']. rewrite Ha. now apply IH.
Qed.

(** Numbers are printed with digits, the sign, the point and the letters
    of "inf" and "nan". *)
Lemma all_chars_app (P : ascii -> bool) (a b : string) :
  all_chars P (a ++ b) = all_chars P a && all_chars P b.
Proof.
  induction a as [|x a IH]; simpl; [reflexivity|]. now rewrite IH, andb_assoc.
Qed.

Lemma all_chars_has_char (P : ascii -> bool) (c : ascii) (s : string) :
  all_chars P s = true -> P c = false -> has_char c s = false.
Proof.
  intros Hs Hc. induction s as [|x s IH]; [reflexivity|].
  cbn [all_chars has_char] in *. apply andb_true_iff in Hs. destruct Hs as [Hx Hs].
  rewrite (IH Hs), orb_false_r.
  destruct (Ascii.eqb_spec x c) as [->|]; [congruence | reflexivity].
Qed.

(** *** [repr] *)

(** [repr] of a plain text is the text in single quotes. *)
Lemma repr_body_plain (s : string) :
  plain s = true -> has_char squote s = false /\ repr_body squote s = s.
Proof.
  unfold plain. induction s as [|c s IH]; [now split|].
  cbn [all_chars has_char repr_body]. intros H.
  apply andb_true_iff in H. destruct H as [Hc Hs].
  destruct (IH Hs) as [IH1 IH2]. rewrite IH1, IH2.
  unfold plain_char in Hc. cbv zeta in Hc.
  apply andb_true_iff in Hc. destruct Hc as [Hc Hqb].
  apply andb_true_iff in Hc. destruct Hc as [H32 H127].
  apply negb_true_iff, orb_false_iff in Hqb. destruct Hqb as [Hq Hb].
  apply Nat.leb_le in H32. apply Nat.ltb_lt in H127.
  split; [now rewrite Hq|].
  unfold repr_char. rewrite Hq, Hb. cbn [orb].
  replace (nat_of_ascii c <? 32)%nat with false by (symmetry; apply Nat.ltb_ge; lia).
  replace (nat_of_ascii c =? 127)%nat with false by (symmetry; apply Nat.eqb_neq; lia).
  cbn [orb].
  replace (nat_of_ascii c =? 9)%nat with false by (symmetry; apply Nat.eqb_neq; lia).
  replace (nat_of_ascii c =? 10)%nat with false by (symmetry; apply Nat.eqb_neq; lia).
  replace (nat_of_ascii c =? 13)%nat with false by (symmetry; apply Nat.eqb_neq; lia).
  reflexivity.
Qed.

Lemma repr_plain (s : string) :
  plain s = true -> repr s = String squote (s ++ String squote "").
Proof.
  intros H. destruct (repr_body_plain s H) as [Hq Hb].
  unfold repr. rewrite Hq. cbn [andb]. now rewrite Hb.
Qed.

Lemma plain_in_repr (s : string) :
  plain s = true -> contains s (repr s) = true.
Proof.
  intros H. rewrite (repr_plain s H). apply contains_spec.
  now exists (String squote ""), (String squote "").
Qed.

(** ** Floats *)

(** *** Comparisons *)

(** Greater is greater or equal; [max(0.0, x)] is never below zero, not
    even for a NaN, which is not greater than zero. *)
Lemma gtb_geb (x y : float) : gtb x y = true -> geb x y = true.
Proof.
  unfold gtb, geb, SFltb, SFleb. destruct (SFcompare y x) as [[ | | ]|]; congruence.
Qed.

Lemma max_zero_nonneg (x : float) : geb (max zero x) zero = true.
Proof.
  unfold max. destruct (gtb x zero) eqn:H.
  - now apply gtb_geb.
  - reflexivity.
Qed.

(** Comparing the other way round gives the opposite. *)
Lemma SFcompare_antisym (x y : float) :
  SFcompare y x = option_map CompOpp (SFcompare x y).
Proof.
  destruct x as [sx|sx| |sx mx ex], y as [sy|sy| |sy my ey]; simpl;
    try destruct sx; try destruct sy; try reflexivity;
    rewrite (Z.compare_antisym ey ex);
    destruct (ey ?= ex); simpl; try reflexivity;
    rewrite (Pos.compare_cont_antisym mx my Eq); simpl;
    now rewrite ?CompOpp_involutive.
Qed.

Lemma gtb_not_leb (x y : float) : gtb x y = true -> leb x y = false.
Proof.
  unfold gtb, leb, SFltb, SFleb. rewrite (SFcompare_antisym x y).
  destruct (SFcompare x y) as [[ | | ]|]; simpl; congruence.
Qed.

(** *** Printing *)

Lemma numeric_string_of_uint (d : Decimal.uint) :
  all_chars numeric_char (NilEmpty.string_of_uint d) = true.
Proof. induction d; cbn [NilEmpty.string_of_uint all_chars]; rewrite ?IHd; reflexivity. Qed.

Lemma numeric_str_int (n : Z) : all_chars numeric_char (str_int n) = true.
Proof.
  unfold str_int, NilZero.string_of_int.
  assert (U : forall d, all_chars numeric_char (NilZero.string_of_uint d) = true).
  { intros d. unfold NilZero.string_of_uint.
    destruct d; try apply numeric_string_of_uint. reflexivity. }
  destruct (Z.to_int n); [apply U|].
  cbn [all_chars]. now rewrite U.
Qed.

Lemma numeric_format_2f (x : float) :
  all_chars numeric_char (format_2f x) = true.
Proof.
  destruct x as [s|s| |s m e]; try (destruct s; reflexivity); try reflexivity.
  unfold format_2f, fixed2, str_nat2.
  rewrite !all_chars_app, numeric_str_int.
  destruct (_ <? 10); rewrite ?all_chars_app, numeric_str_int; now destruct s.
Qed.

Lemma follows_skip_str_int (a b : ascii) (n : Z) (rest : string) :
  numeric_char a = false -> numeric_char b = false ->
  follows a b false (str_int n ++ rest) = follows a b false rest.
Proof.
  intros Ha Hb.
  apply follows_skip; apply (all_chars_has_char numeric_char); trivial;
    apply numeric_str_int.
Qed.

Lemma follows_skip_format_2f (a b : ascii) (x : float) (rest : string) :
  numeric_char a = false -> numeric_char b = false ->
  follows a b false (format_2f x ++ rest) = follows a b false rest.
Proof.
  intros Ha Hb.
  apply follows_skip; apply (all_chars_has_char numeric_char); trivial;
    apply numeric_format_2f.
Qed.

(** *** Rounding

    When the value [M * 2^E] is a binary64 number, rounding it returns that
    number: nothing is shifted out but zeros. *)

(** The number of bits of a mantissa, and the shifts by [k] bits. *)
Lemma digits2_log2 (p : positive) :
  Zpos (digits2_pos p) = Z.log2 (Zpos p) + 1.
Proof.
  induction p as [p IH|p IH|]; cbn [digits2_pos].
  - rewrite Pos2Z.inj_succ, IH, (Pos2Z.inj_xI p), Z.log2_succ_double; lia.
  - rewrite Pos2Z.inj_succ, IH, (Pos2Z.inj_xO p), Z.log2_double; lia.
  - reflexivity.
Qed.

Lemma digits2_shift (p q : positive) (k : Z) :
  0 <= k -> Zpos q = Zpos p * 2 ^ k ->
  Zpos (digits2_pos q) = Zpos (digits2_pos p) + k.
Proof.
  intros Hk E. rewrite !digits2_log2, E, Z.log2_mul_pow2; lia.
Qed.

Lemma iter_pos_nat {A : Type} (f : A -> A) (p : positive) (x : A) :
  iter_pos f p x = Nat.iter (Pos.to_nat p) f x.
Proof.
  revert x; induction p as [p IH|p IH|]; intros x; cbn [iter_pos].
  - rewrite !IH, Pos2Nat.inj_xI.
    replace (S (2 * Pos.to_nat p)) with (Pos.to_nat p + Pos.to_nat p + 1)%nat by lia.
    rewrite !Nat.iter_add. reflexivity.
  - rewrite !IH, Pos2Nat.inj_xO.
    replace (2 * Pos.to_nat p)%nat with (Pos.to_nat p + Pos.to_nat p)%nat by lia.
    rewrite Nat.iter_add. reflexivity.
  - reflexivity.
Qed.

Lemma shr_1_even (m : Z) :
  0 < m -> shr_1 (exact_record (2 * m)) = exact_record m.
Proof. destruct m; [lia | reflexivity | lia]. Qed.

Lemma shr_zeros (k : nat) (m : Z) :
  0 < m ->
  Nat.iter k shr_1 (exact_record (m * 2 ^ Z.of_nat k)) = exact_record m.
Proof.
  revert m; induction k as [|k IH]; intros m Hm.
  - cbn. f_equal. lia.
  - rewrite Nat.iter_succ.
    replace (m * 2 ^ Z.of_nat (S k)) with ((2 * m) * 2 ^ Z.of_nat k)
      by (rewrite Nat2Z.inj_succ, Z.pow_succ_r; lia).
    rewrite IH by lia. now apply shr_1_even.
Qed.

Lemma shl_zeros (m d : positive) :
  Zpos (Pos.iter xO m d) = Zpos m * 2 ^ Zpos d.
Proof.
  induction d as [|d IH] using Pos.peano_ind.
  - cbn. lia.
  - rewrite Pos.iter_succ, Pos2Z.inj_xO, IH, Pos2Z.inj_succ, Z.pow_succ_r; lia.
Qed.

(** The exponent of the format and its canonical mantissas, for binary64. *)
Lemma fexp_64 (x : Z) : fexp prec emax x = Z.max (x - 53) (-1074).
Proof. reflexivity. Qed.

Lemma bounded_64 (m : positive) (e : Z) :
  bounded prec emax m e = true <->
  Z.max (Zpos (digits2_pos m) + e - 53) (-1074) = e /\ e <= 971.
Proof.
  unfold bounded, canonical_mantissa. rewrite andb_true_iff, Z.eqb_eq, Z.leb_le.
  rewrite fexp_64. reflexivity.
Qed.

(** A canonical mantissa and exponent come out of the rounding step as
    they went in. *)
Lemma binary_round_aux_canonical (s : bool) (m : positive) (e : Z) :
  bounded prec emax m e = true ->
  binary_round_aux prec emax s (Zpos m) e loc_Exact = S754_finite s m e.
Proof.
  intros B. pose proof B as B'. apply bounded_64 in B'. destruct B' as [Hc He].
  unfold binary_round_aux, shr_fexp.
  cbn [Zdigits2 shr_record_of_loc].
  rewrite fexp_64, Hc, Z.sub_diag. cbn [shr shr_m loc_of_shr_record round_nearest_even].
  cbn [Zdigits2 shr_record_of_loc].
  rewrite fexp_64, Hc, Z.sub_diag. cbn [shr shr_m].
  replace (e <=? emax - prec) with true; [reflexivity|].
  symmetry. apply Z.leb_le. exact He.
Qed.

Lemma binary_round_exact (s : bool) (M m : positive) (E e : Z) :
  bounded prec emax m e = true ->
  -1074 <= E ->
  units M E = units m e ->
  binary_round prec emax s M E = S754_finite s m e.
Proof.
  intros B HE Hv. pose proof B as B'. apply bounded_64 in B'.
  destruct B' as [Hc He]. assert (He' : -1074 <= e) by lia.
  unfold units in Hv.
  destruct (Z_le_gt_dec E e) as [Hle|Hgt].
  - (* the mantissa ends in [e - E] zeros *)
    assert (HM : Zpos M = Zpos m * 2 ^ (e - E)).
    { assert (P : 2 ^ (e + 1074) = 2 ^ (e - E) * 2 ^ (E + 1074))
        by (rewrite <- Z.pow_add_r by lia; f_equal; lia).
      rewrite P, Z.mul_assoc in Hv.
      apply Z.mul_reg_r in Hv; [exact Hv|].
      apply Z.pow_nonzero; lia. }
    pose proof (digits2_shift m M (e - E) ltac:(lia) HM) as HD.
    unfold binary_round. rewrite fexp_64.
    replace (Z.max (Zpos (digits2_pos M) + E - 53) (-1074)) with e by lia.
    unfold shl_align.
    destruct (e - E) as [|k|k] eqn:Ek; try lia.
    + assert (E = e) by lia. subst E.
      assert (M = m) by (rewrite Z.pow_0_r in HM; lia). subst M.
      now apply binary_round_aux_canonical.
    + assert (S : iter_pos shr_1 k (exact_record (Zpos M)) = exact_record (Zpos m)).
      { rewrite iter_pos_nat, HM, <- (positive_nat_Z k). apply shr_zeros. lia. }
      unfold binary_round_aux, shr_fexp.
      cbn [Zdigits2 shr_record_of_loc]. rewrite fexp_64.
      replace (Z.max (Zpos (digits2_pos M) + E - 53) (-1074) - E) with (Zpos k) by lia.
      cbn [shr]. fold (exact_record (Zpos M)). rewrite S.
      cbn [exact_record shr_m loc_of_shr_record round_nearest_even shr_r shr_s].
      cbn [Zdigits2 shr_record_of_loc]. rewrite fexp_64.
      replace (E + Zpos k) with e by lia.
      rewrite Hc, Z.sub_diag. cbn [shr shr_m].
      replace (e <=? emax - prec) with true; [reflexivity|].
      symmetry. apply Z.leb_le. exact He.
  - (* the mantissa is shifted left by [E - e] *)
    assert (Hm : Zpos m = Zpos M * 2 ^ (E - e)).
    { assert (P : 2 ^ (E + 1074) = 2 ^ (E - e) * 2 ^ (e + 1074))
        by (rewrite <- Z.pow_add_r by lia; f_equal; lia).
      rewrite P, Z.mul_assoc in Hv.
      apply Z.mul_reg_r in Hv; [now symmetry|].
      apply Z.pow_nonzero; lia. }
    pose proof (digits2_shift M m (E - e) ltac:(lia) Hm) as HD.
    unfold binary_round. rewrite fexp_64.
    replace (Z.max (Zpos (digits2_pos M) + E - 53) (-1074)) with e by lia.
    unfold shl_align.
    destruct (e - E) as [|k|k] eqn:Ek; try lia.
    assert (Pos.iter xO M k = m).
    { apply Pos2Z.inj. rewrite shl_zeros, Hm. f_equal. f_equal. lia. }
    subst m. now apply binary_round_aux_canonical.
Qed.

(** Aligning a mantissa to a smaller exponent keeps its value. *)
Lemma shl_align_units (mx : positive) (ex ez : Z) :
  ez <= ex ->
  snd (shl_align mx ex ez) = ez /\
  Zpos (fst (shl_align mx ex ez)) = Zpos mx * 2 ^ (ex - ez).
Proof.
  intros H. unfold shl_align.
  destruct (ez - ex) as [|d|d] eqn:E; try lia; cbn [fst snd].
  - assert (ez = ex) by lia. subst. rewrite Z.sub_diag. cbn. lia.
  - rewrite shl_zeros. split; [reflexivity|]. f_equal. f_equal. lia.
Qed.

Lemma log2_bounds (a : Z) :
  0 < a -> 2 ^ Z.log2 a <= a < 2 ^ (Z.log2 a + 1).
Proof. intros H. apply (Z.log2_spec a H). Qed.

(** A value with at most 53 significant bits above [t] closing zeros, in
    the range of the normal numbers, rounds to itself. *)
Lemma binary_round_representable (D : positive) (E t : Z) :
  -1074 <= E -> 0 <= t ->
  (2 ^ t | Zpos D) ->
  Z.log2 (Zpos D) + 1 <= 53 + t ->
  -1074 <= Z.log2 (Zpos D) + 1 + E - 53 <= 971 ->
  exists mL eL,
    binary_round prec emax false D E = S754_finite false mL eL /\
    bounded prec emax mL eL = true /\
    units mL eL = units D E.
Proof.
  intros HE Ht Hdiv Hd Hr.
  set (d := Z.log2 (Zpos D) + 1) in *.
  assert (Hd0 : 0 < d) by (unfold d; pose proof (Z.log2_nonneg (Zpos D)); lia).
  destruct (Z_le_gt_dec d 53) as [Hle|Hgt].
  - (* fewer than 53 bits: shifted left *)
    set (mz := Zpos D * 2 ^ (53 - d)).
    assert (Hmz : 0 < mz) by (unfold mz; apply Z.mul_pos_pos; [lia | apply Z.pow_pos_nonneg; lia]).
    destruct mz as [|mL|] eqn:Emz; try lia.
    assert (B : bounded prec emax mL (d + E - 53) = true).
    { apply bounded_64.
      rewrite (digits2_shift D mL (53 - d)) by (lia || (symmetry; exact Emz)).
      rewrite digits2_log2. fold d. lia. }
    exists mL, (d + E - 53). split; [|split; [exact B|]].
    + apply binary_round_exact; [exact B | exact HE |].
      unfold units. rewrite <- Emz. unfold mz.
      rewrite <- Z.mul_assoc, <- Z.pow_add_r by lia. f_equal. f_equal. lia.
    + unfold units. rewrite <- Emz. unfold mz.
      rewrite <- Z.mul_assoc, <- Z.pow_add_r by lia. f_equal. f_equal. lia.
  - (* more than 53 bits: the zeros are shifted out *)
    set (k := d - 53).
    assert (Hk : 0 < k <= t) by (unfold k; lia).
    assert (Hdk : (2 ^ k | Zpos D)).
    { destruct Hdiv as [q Hq]. exists (q * 2 ^ (t - k)).
      rewrite Hq, <- Z.mul_assoc, <- Z.pow_add_r by lia. f_equal. f_equal. lia. }
    destruct Hdk as [mz Hmz].
    assert (Hpos : 0 < mz).
    { assert (0 < 2 ^ k) by (apply Z.pow_pos_nonneg; lia). nia. }
    destruct mz as [|mL|]; try lia.
    assert (B : bounded prec emax mL (E + k) = true).
    { apply bounded_64.
      pose proof (digits2_shift mL D k ltac:(lia) Hmz) as HD.
      rewrite digits2_log2 in HD. fold d in HD. unfold k in *. lia. }
    exists mL, (E + k). split; [|split; [exact B|]].
    + apply binary_round_exact; [exact B | exact HE |].
      unfold units. rewrite Hmz.
      rewrite <- Z.mul_assoc, <- Z.pow_add_r by lia. f_equal. f_equal. lia.
    + unfold units. rewrite Hmz.
      rewrite <- Z.mul_assoc, <- Z.pow_add_r by lia. f_equal. f_equal. lia.
Qed.

(** *** Integers that convert to a float

    An integer of more than 53 bits loses its low bits to the rounding;
    the result is beyond the largest float from [2^1024 - 2^970] on. *)

(** One shift halves the mantissa and remembers the bit it drops. *)
Lemma shr_1_nonneg (r : shr_record) :
  0 <= shr_m r ->
  shr_m (shr_1 r) = shr_m r / 2 /\ shr_r (shr_1 r) = Z.odd (shr_m r).
Proof.
  destruct r as [m b s]. cbn [shr_m]. intros H.
  rewrite <- Z.div2_div.
  destruct m as [|[p|p|]|]; try lia; split; reflexivity.
Qed.

(** After [k] shifts: the quotient by [2^k], and the last bit shifted
    out. *)
Lemma shr_quotient (P : Z) (k : nat) :
  0 <= P ->
  let r := Nat.iter k shr_1 (exact_record P) in
  shr_m r = P / 2 ^ Z.of_nat k /\
  (forall j, k = S j -> shr_r r = Z.odd (P / 2 ^ Z.of_nat j)).
Proof.
  intros HP. induction k as [|k IH]; cbv zeta.
  - cbn. split; [now rewrite Z.div_1_r | discriminate].
  - rewrite Nat.iter_succ. cbv zeta in IH. destruct IH as [IHm _].
    assert (Hq : 0 <= P / 2 ^ Z.of_nat k)
      by (apply Z.div_pos; [lia | apply Z.pow_pos_nonneg; lia]).
    destruct (shr_1_nonneg (Nat.iter k shr_1 (exact_record P))) as [Em Er];
      [rewrite IHm; exact Hq|].
    split.
    + rewrite Em, IHm, Nat2Z.inj_succ, Z.pow_succ_r, Z.div_div by lia.
      f_equal. lia.
    + intros j [= <-]. now rewrite Er, IHm.
Qed.

(** Rounding to nearest adds one to the mantissa or nothing; nothing when
    the bit shifted out last is 0. *)
Lemma round_nearest_even_bounds (m : Z) (l : location) :
  m <= round_nearest_even m l <= m + 1.
Proof.
  destruct l as [|[ | | ]]; cbn [round_nearest_even]; try lia.
  destruct (Z.even m); lia.
Qed.

Lemma round_nearest_even_down (r : shr_record) :
  shr_r r = false ->
  round_nearest_even (shr_m r) (loc_of_shr_record r) = shr_m r.
Proof. destruct r as [m b [|]]; cbn; now intros ->. Qed.

(** The exponent the rounding of an integer ends with. *)
Lemma binary_round_aux_finite (s : bool) (m e : Z) (l : location) :
  let '(r1, e1) := shr_fexp prec emax m e l in
  let m1 := round_nearest_even (shr_m r1) (loc_of_shr_record r1) in
  let '(r2, e2) := shr_fexp prec emax m1 e1 loc_Exact in
  e2 <= 971 ->
  forall b, binary_round_aux prec emax s m e l <> S754_infinity b.
Proof.
  unfold binary_round_aux.
  destruct (shr_fexp prec emax m e l) as [r1 e1].
  cbv zeta.
  destruct (shr_fexp prec emax _ e1 loc_Exact) as [r2 e2].
  intros He b.
  destruct (shr_m r2); try discriminate.
  replace (e2 <=? emax - prec) with true by (symmetry; apply Z.leb_le; exact He).
  discriminate.
Qed.

(** Every integer from 0 to below [2^1024 - 2^970] converts. *)
Lemma convertible_below (n : Z) :
  0 <= n < 2 ^ 1024 - 2 ^ 970 -> convertible n = true.
Proof.
  intros Hn. unfold convertible, round_int.
  destruct n as [|p|p]; try lia; [reflexivity|].
  cbn [binary_normalize].
  set (d := Z.log2 (Zpos p) + 1).
  assert (Hd0 : 0 < d) by (unfold d; pose proof (Z.log2_nonneg (Zpos p)); lia).
  destruct (Z_le_gt_dec d 53) as [Hle|Hgt].
  - (* at most 53 bits: the integer is a float *)
    destruct (binary_round_representable p 0 0) as [mL [eL [-> _]]];
      try (fold d; lia); try reflexivity.
    exists (Zpos p). lia.
  - (* more than 53 bits *)
    assert (Hd : d <= 1024).
    { unfold d. assert (Z.log2 (Zpos p) < 1024); [|lia].
      apply Z.log2_lt_pow2; lia. }
    set (k := d - 53).
    assert (Hk : 0 < k <= 971) by (unfold k; lia).
    assert (R : forall b, binary_round prec emax false p 0 <> S754_infinity b).
    { unfold binary_round. rewrite fexp_64, digits2_log2. fold d.
      replace (Z.max (d + 0 - 53) (-1074)) with k by (unfold k; lia).
      unfold shl_align. destruct (k - 0) as [|k0|k0] eqn:Ek; try lia.
      pose proof (binary_round_aux_finite false (Zpos p) 0 loc_Exact) as F.
      unfold shr_fexp at 1 in F. cbn [Zdigits2 shr_record_of_loc] in F.
      rewrite fexp_64, digits2_log2 in F. fold d in F.
      replace (Z.max (d + 0 - 53) (-1074) - 0) with (Zpos k0) in F by (unfold k in *; lia).
      cbn [shr] in F. rewrite iter_pos_nat in F.
      fold (exact_record (Zpos p)) in F.
      destruct (shr_quotient (Zpos p) (Pos.to_nat k0) ltac:(lia)) as [Qm Qr].
      rewrite positive_nat_Z in Qm.
      set (r1 := Nat.iter (Pos.to_nat k0) shr_1 (exact_record (Zpos p))) in *.
      set (m1 := round_nearest_even (shr_m r1) (loc_of_shr_record r1)) in *.
      assert (Hk0 : Zpos k0 = k) by lia.
      (* the quotient has 53 bits *)
      pose proof (log2_bounds (Zpos p) ltac:(lia)) as Hp. fold d in Hp.
      replace (Z.log2 (Zpos p)) with (52 + k) in Hp by (unfold k, d; lia).
      replace d with (53 + k) in Hp by (unfold k; lia).
      rewrite !Z.pow_add_r in Hp by lia.
      assert (Pk : 0 < 2 ^ k) by (apply Z.pow_pos_nonneg; lia).
      assert (Hq : 2 ^ 52 <= shr_m r1 < 2 ^ 53).
      { rewrite Qm, Hk0. split.
        - apply Z.div_le_lower_bound; lia.
        - apply Z.div_lt_upper_bound; lia. }
      pose proof (round_nearest_even_bounds (shr_m r1) (loc_of_shr_record r1)) as Hm1.
      fold m1 in Hm1.
      assert (Hm1pos : 0 < m1) by (change (2 ^ 52) with 4503599627370496 in Hq; lia).
      unfold shr_fexp in F. cbn [shr_record_of_loc] in F.
      destruct m1 as [|q|q] eqn:Em1; try lia.
      cbn [Zdigits2] in F. rewrite fexp_64, digits2_log2 in F.
      replace (0 + Zpos k0) with k in F by lia.
      assert (Hlog : Z.log2 (Zpos q) = 52 \/ (Zpos q = 2 ^ 53 /\ Z.log2 (Zpos q) = 53)).
      { destruct (Z.eq_dec (Zpos q) (2 ^ 53)) as [E|E].
        - right. split; [exact E|]. rewrite E. reflexivity.
        - left. apply Z.log2_unique; [lia|]. change (52 + 1) with 53. lia. }
      destruct Hlog as [Hlog | [Hq53 Hlog]]; rewrite Hlog in F.
      - replace (Z.max (52 + 1 + k - 53) (-1074) - k) with 0 in F by lia.
        cbn [shr] in F. apply F. lia.
      - (* the rounding carried: the bit shifted out last was 1 *)
        replace (Z.max (53 + 1 + k - 53) (-1074) - k) with 1 in F by lia.
        cbn [shr] in F. apply F.
        assert (k <> 971); [|lia]. intros Hk971.
        assert (Hr : shr_r r1 = false).
        { destruct (Pos.to_nat k0) as [|j] eqn:Ej; [lia|].
          rewrite (Qr j eq_refl).
          assert (Hj : Z.of_nat j = 970) by lia. rewrite Hj.
          assert (Hdiv : Zpos p / 2 ^ 970 < 2 ^ 54 - 1).
          { apply Z.div_lt_upper_bound; [reflexivity|].
            change (2 ^ 970 * (2 ^ 54 - 1)) with (2 ^ 1024 - 2 ^ 970). lia. }
          assert (Hhalf : Zpos p / 2 ^ 970 / 2 = shr_m r1).
          { rewrite Qm, Hk0, Hk971, Z.div_div by lia. reflexivity. }
          assert (shr_m r1 = 2 ^ 53 - 1) by lia.
          pose proof (Zdiv2_odd_eqn (Zpos p / 2 ^ 970)) as Ho.
          rewrite Z.div2_div, Hhalf in Ho.
          destruct (Z.odd (Zpos p / 2 ^ 970)); [|reflexivity].
          change (2 ^ 54) with 18014398509481984 in Hdiv.
          change (2 ^ 53) with 9007199254740992 in *. lia. }
        unfold m1 in Em1. rewrite (round_nearest_even_down r1 Hr) in Em1.
        lia. }
    destruct (binary_round prec emax false p 0) eqn:Eb; try reflexivity.
    exfalso. now apply (R s).
Qed.

(** The bound is the first integer that does not convert. *)
Lemma convertible_boundary :
  convertible (2 ^ 1024 - 2 ^ 970 - 1) = true /\
  convertible (2 ^ 1024 - 2 ^ 970) = false.
Proof. split; vm_compute; reflexivity. Qed.

(** An integer of at most 53 bits converts to the float of the same
    value. *)
Lemma round_int_exact (n : Z) :
  0 <= n < 2 ^ 53 -> scaled (round_int n) = Some (n * 2 ^ 1074).
Proof.
  intros Hn. unfold round_int.
  destruct n as [|p|p]; try lia; [reflexivity|].
  cbn [binary_normalize].
  assert (Hl : Z.log2 (Zpos p) < 53) by (apply Z.log2_lt_pow2; lia).
  pose proof (Z.log2_nonneg (Zpos p)) as Hl0.
  destruct (binary_round_representable p 0 0) as [mL [eL [-> [B U]]]];
    try lia.
  - exists (Zpos p). lia.
  - apply bounded_64 in B. destruct B as [Hc _].
    cbn [scaled cond_Zopp].
    replace (-1074 <=? eL) with true by (symmetry; apply Z.leb_le; lia).
    rewrite U. unfold units. now rewrite Z.add_0_l.
Qed.

(** The conversion of an [int] operand, by whether it converts. *)
Lemma of_int_convertible (n : Z) :
  convertible n = true -> of_int n = Ok (round_int n).
Proof.
  unfold convertible, of_int. destruct (round_int n); cbn; intros H; (reflexivity || discriminate H).
Qed.

Lemma of_int_not_convertible (n : Z) :
  convertible n = false ->
  of_int n = Raise (OverflowError "int too large to convert to float").
Proof.
  unfold convertible, of_int. destruct (round_int n); cbn; intros H; (reflexivity || discriminate H).
Qed.

(** Python's product of floats is rounded: three times the float nearest
    to 0.1 is not the float it returns, although both print alike to two
    places. *)
Lemma float_product_is_rounded :
  let tenth := S754_finite false 7205759403792794 (-56) in
  is_float tenth = true /\
  format_2f tenth = "0.10" /\
  format_2f (mul tenth (round_int 3)) = "0.30" /\
  scaled (mul tenth (round_int 3)) <>
  option_map (fun v => v * 3) (scaled tenth).
Proof.
  cbv zeta. repeat split; try (vm_compute; reflexivity).
  vm_compute. discriminate.
Qed.

(** ** The calendar *)

(** A check by enumeration holds of each integer of its range. *)
Lemma holds_from_spec (P : Z -> bool) (k : nat) (lo : Z) :
  holds_from P lo k = true ->
  forall n, lo <= n < lo + Z.of_nat k -> P n = true.
Proof.
  revert lo; induction k as [|k IH]; intros lo H n Hn; [lia|].
  cbn [holds_from] in H. apply andb_true_iff in H. destruct H as [H0 H].
  destruct (Z.eq_dec n lo) as [->|Hne]; [exact H0|].
  apply (IH (lo + 1) H). lia.
Qed.

(** The year of an ordinal: the digits of [y - 1] in the mixed base of the
    cycles of 400, 100 and 4 years are the quotients [_ord2ymd] computes
    on the day of rank [k] of the year [y]. *)
Lemma ordinal_digits (y k : Z) :
  1 <= y ->
  0 <= k <= 364 \/ (k = 365 /\ is_leap y = true) ->
  exists a b c d,
    y - 1 = 400 * a + 100 * b + 4 * c + d /\
    0 <= a /\ 0 <= b < 4 /\ 0 <= c < 25 /\ 0 <= d < 4 /\
    days_before_year y + k =
      146097 * a + 36524 * b + 1461 * c + 365 * d + k /\
    is_leap y = (d =? 3) && (negb (c =? 24) || (b =? 3)).
Proof.
  intros Hy Hk. set (Y := y - 1).
  exists (Y / 400), (Y mod 400 / 100), (Y mod 400 mod 100 / 4),
         (Y mod 400 mod 100 mod 4).
  assert (HY : 0 <= Y) by (unfold Y; lia).
  repeat split; try (clear Hk; Z.div_mod_to_equations; lia).
  - unfold days_before_year. fold Y. clear Hk. Z.div_mod_to_equations. lia.
  - unfold is_leap. replace y with (Y + 1) by (unfold Y; lia). clear Hk.
    generalize dependent Y. clear. intros Y _.
    destruct (_ =? 3) eqn:E3; destruct (_ =? 24) eqn:E24;
    destruct (Y mod 400 / 100 =? 3) eqn:Eb;
    destruct ((Y + 1) mod 4 =? 0) eqn:E4;
    destruct ((Y + 1) mod 100 =? 0) eqn:E100;
    destruct ((Y + 1) mod 400 =? 0) eqn:E400; simpl; try reflexivity; exfalso;
    rewrite ?Z.eqb_eq, ?Z.eqb_neq in *; Z.div_mod_to_equations; lia.
Qed.

(** A digit and the rest, by division. *)
Lemma div_mod_digit (b q r : Z) :
  0 <= r < b -> (b * q + r) / b = q /\ (b * q + r) mod b = r.
Proof.
  intros H. split; symmetry.
  - now apply (Z.div_unique_pos (b * q + r) b q r).
  - now apply (Z.mod_unique_pos (b * q + r) b q r).
Qed.

(** A day that is not the 366th of its year: the year is found by the
    divisions, the month and day by [month_day]. *)
Lemma ord2ymd_year_day (y k : Z) :
  1 <= y -> 0 <= k <= 364 ->
  ord2ymd (days_before_year y + k + 1) =
  let '(m, d) := month_day (is_leap y) k in (y, m, d).
Proof.
  intros Hy Hk.
  destruct (ordinal_digits y k Hy (or_introl Hk))
    as [a [b [c [d [HY [Ha [Hb [Hc [Hd [HN Hleap]]]]]]]]]].
  unfold ord2ymd, DI400Y, DI100Y, DI4Y.
  replace (days_before_year y + k + 1 - 1) with (days_before_year y + k) by lia.
  rewrite HN, Hleap.
  destruct (div_mod_digit 146097 a (36524 * b + 1461 * c + 365 * d + k)) as [E1 E2]; [lia|].
  replace (146097 * a + 36524 * b + 1461 * c + 365 * d + k)
    with (146097 * a + (36524 * b + 1461 * c + 365 * d + k)) by lia.
  rewrite E1, E2.
  destruct (div_mod_digit 36524 b (1461 * c + 365 * d + k)) as [E3 E4]; [lia|].
  replace (36524 * b + 1461 * c + 365 * d + k)
    with (36524 * b + (1461 * c + 365 * d + k)) by lia.
  rewrite E3, E4.
  destruct (div_mod_digit 1461 c (365 * d + k)) as [E5 E6]; [lia|].
  replace (1461 * c + 365 * d + k) with (1461 * c + (365 * d + k)) by lia.
  rewrite E5, E6.
  destruct (div_mod_digit 365 d k) as [E7 E8]; [lia|].
  rewrite E7, E8.
  replace (d =? 4) with false by (symmetry; apply Z.eqb_neq; lia).
  replace (b =? 4) with false by (symmetry; apply Z.eqb_neq; lia).
  cbn [orb].
  replace (a * 400 + 1 + (b * 100 + c * 4 + d)) with y by lia.
  unfold month_day.
  destruct (k <? _); reflexivity.
Qed.

(** The 366th day of a leap year is its 31 December. *)
Lemma ord2ymd_leap_day (y : Z) :
  1 <= y -> is_leap y = true ->
  ord2ymd (days_before_year y + 365 + 1) = (y, 12, 31).
Proof.
  intros Hy Hl.
  destruct (ordinal_digits y 365 Hy (or_intror (conj eq_refl Hl)))
    as [a [b [c [d [HY [Ha [Hb [Hc [Hd [HN Hleap]]]]]]]]]].
  rewrite Hl in Hleap. symmetry in Hleap.
  apply andb_true_iff in Hleap. destruct Hleap as [Hd3 Hcb].
  apply Z.eqb_eq in Hd3. subst d.
  unfold ord2ymd, DI400Y, DI100Y, DI4Y.
  replace (days_before_year y + 365 + 1 - 1) with (days_before_year y + 365) by lia.
  rewrite HN.
  destruct (div_mod_digit 146097 a (36524 * b + 1461 * c + 365 * 3 + 365)) as [E1 E2]; [lia|].
  replace (146097 * a + 36524 * b + 1461 * c + 365 * 3 + 365)
    with (146097 * a + (36524 * b + 1461 * c + 365 * 3 + 365)) by lia.
  rewrite E1, E2.
  destruct (Z.eq_dec c 24) as [Hc24|Hc24].
  - (* the last day of a cycle of 400 years *)
    subst c. assert (b = 3).
    { apply orb_true_iff in Hcb. destruct Hcb as [H|H]; [discriminate H|].
      now apply Z.eqb_eq in H. }
    subst b. cbn. f_equal. f_equal. lia.
  - destruct (div_mod_digit 36524 b (1461 * c + 365 * 3 + 365)) as [E3 E4]; [lia|].
    replace (36524 * b + 1461 * c + 365 * 3 + 365)
      with (36524 * b + (1461 * c + 365 * 3 + 365)) by lia.
    rewrite E3, E4.
    destruct (div_mod_digit 1461 c 1460) as [E5 E6]; [lia|].
    replace (1461 * c + 365 * 3 + 365) with (1461 * c + 1460) by lia.
    rewrite E5, E6. cbn. f_equal. f_equal. lia.
Qed.

(** The days of a common year (year 1) and of a leap year (year 4) are
    found back from their ranks. *)
Lemma common_and_leap_year_found : year_found 1 && year_found 4 = true.
Proof. vm_compute. reflexivity. Qed.

Lemma is_date_fields (t : datetime) :
  is_date t = true <->
  1 <= year t /\ 1 <= month t <= 12 /\
  1 <= day t <= days_in_month (year t) (month t).
Proof.
  unfold is_date. rewrite !andb_true_iff, !Z.leb_le. tauto.
Qed.

(** The months of a year depend on the year through [is_leap] alone. *)
Lemma days_in_month_leap (y y' m : Z) :
  is_leap y = is_leap y' -> days_in_month y m = days_in_month y' m.
Proof. unfold days_in_month. now intros ->. Qed.

Lemma days_before_month_leap (y y' m : Z) :
  is_leap y = is_leap y' -> days_before_month y m = days_before_month y' m.
Proof. unfold days_before_month. now intros ->. Qed.

(** The twelve months, one by one. *)
Lemma month_cases (m : Z) :
  1 <= m <= 12 ->
  m = 1 \/ m = 2 \/ m = 3 \/ m = 4 \/ m = 5 \/ m = 6 \/
  m = 7 \/ m = 8 \/ m = 9 \/ m = 10 \/ m = 11 \/ m = 12.
Proof. lia. Qed.

(** Looks up the tables of the months at a known month. *)
Ltac known_bool t :=
  let v := eval vm_compute in t in
  match v with
  | true => change t with true in *
  | false => change t with false in *
  end.

Ltac lookup :=
  repeat match goal with
  | |- context [nth (Z.to_nat ?m) ?L 0] =>
      let v := eval vm_compute in (nth (Z.to_nat m) L 0) in
      change (nth (Z.to_nat m) L 0) with v in *
  | H : context [nth (Z.to_nat ?m) ?L 0] |- _ =>
      let v := eval vm_compute in (nth (Z.to_nat m) L 0) in
      change (nth (Z.to_nat m) L 0) with v in *
  | |- context [?a =? ?b] => known_bool (a =? b)
  | |- context [?a <? ?b] => known_bool (a <? b)
  | H : context [?a =? ?b] |- _ => known_bool (a =? b)
  | H : context [?a <? ?b] |- _ => known_bool (a <? b)
  end; cbn [andb orb negb] in *.

Ltac each_month H :=
  destruct (month_cases _ H) as
    [?|[?|[?|[?|[?|[?|[?|[?|[?|[?|[?|?]]]]]]]]]]]; subst.

(** The rank of a day in its year. *)
Lemma rank_in_year (y m d : Z) :
  1 <= m <= 12 -> 1 <= d <= days_in_month y m ->
  0 <= days_before_month y m + d - 1 <= 364 \/
  (is_leap y = true /\ m = 12 /\ d = 31).
Proof.
  intros Hm Hd. unfold days_in_month, days_before_month in *.
  each_month Hm; destruct (is_leap y); lookup; lia.
Qed.

(** So are the days of any year, which is like one of the two. *)
Lemma month_day_found (y m d : Z) :
  1 <= m <= 12 -> 1 <= d <= days_in_month y m ->
  days_before_month y m + d - 1 <= 364 ->
  month_day (is_leap y) (days_before_month y m + d - 1) = (m, d).
Proof.
  intros Hm Hd Hk.
  pose proof common_and_leap_year_found as F.
  apply andb_true_iff in F. destruct F as [F1 F4].
  set (y0 := if is_leap y then 4 else 1).
  assert (Hl : is_leap y = is_leap y0) by (unfold y0; now destruct (is_leap y)).
  assert (F : year_found y0 = true) by (unfold y0; now destruct (is_leap y)).
  rewrite (days_in_month_leap y y0 m Hl) in Hd.
  rewrite (days_before_month_leap y y0 m Hl) in *. rewrite Hl.
  assert (Hd31 : d <= 31).
  { clear - Hm Hd. unfold days_in_month in Hd.
    each_month Hm; destruct (is_leap y0); lookup; lia. }
  unfold year_found in F.
  pose proof (holds_from_spec _ _ _ F m ltac:(cbn; lia)) as Fm. cbn beta in Fm.
  pose proof (holds_from_spec _ _ _ Fm d ltac:(cbn; lia)) as Fd. cbn beta in Fd.
  unfold day_found in Fd.
  replace (d <=? days_in_month y0 m) with true in Fd
    by (symmetry; apply Z.leb_le; lia).
  replace (days_before_month y0 m + d - 1 <=? 364) with true in Fd
    by (symmetry; apply Z.leb_le; lia).
  cbn [andb implb] in Fd.
  destruct (month_day (is_leap y0) _) as [m' d'].
  apply andb_true_iff in Fd. destruct Fd as [Em Ed].
  apply Z.eqb_eq in Em, Ed. now subst.
Qed.

(** A date is found back from its ordinal. *)
Lemma fromordinal_toordinal (t : datetime) :
  is_date t = true -> fromordinal (toordinal t) = t.
Proof.
  intros H. apply is_date_fields in H. destruct t as [y m d]. cbn in H.
  destruct H as [Hy [Hm Hd]].
  unfold fromordinal, toordinal, ymd2ord. cbn [year month day].
  destruct (rank_in_year y m d Hm Hd) as [Hk | [Hl [-> ->]]].
  - replace (days_before_year y + days_before_month y m + d)
      with (days_before_year y + (days_before_month y m + d - 1) + 1) by lia.
    rewrite ord2ymd_year_day by assumption.
    rewrite month_day_found by (assumption || lia). reflexivity.
  - replace (days_before_year y + days_before_month y 12 + 31)
      with (days_before_year y + 365 + 1)
      by (unfold days_before_month; rewrite Hl; lookup; lia).
    now rewrite ord2ymd_leap_day.
Qed.

(** A year has 365 days, a leap year 366. *)
Lemma days_before_next_year (y : Z) :
  1 <= y ->
  days_before_year (y + 1) =
  days_before_year y + 365 + (if is_leap y then 1 else 0).
Proof.
  intros Hy. unfold days_before_year, is_leap.
  replace (y + 1 - 1) with (y - 1 + 1) by lia.
  destruct (y mod 4 =? 0) eqn:E4; destruct (y mod 100 =? 0) eqn:E100;
    destruct (y mod 400 =? 0) eqn:E400; cbn [andb orb negb];
    rewrite ?Z.eqb_eq, ?Z.eqb_neq in *; Z.div_mod_to_equations; lia.
Qed.

(** The next day is a day of the calendar, and its ordinal is the next
    ordinal. *)
Lemma next_day_toordinal (t : datetime) :
  is_date t = true ->
  is_date (next_day t) = true /\ toordinal (next_day t) = toordinal t + 1.
Proof.
  intros H. apply is_date_fields in H. destruct t as [y m d]. cbn in H.
  destruct H as [Hy [Hm Hd]].
  unfold next_day. cbn [year month day].
  destruct (d <? days_in_month y m) eqn:E1.
  - apply Z.ltb_lt in E1. split.
    + apply is_date_fields. cbn. lia.
    + unfold toordinal, ymd2ord. cbn. lia.
  - apply Z.ltb_ge in E1. assert (d = days_in_month y m) by lia. subst d.
    destruct (m <? 12) eqn:E2.
    + apply Z.ltb_lt in E2. split.
      * apply is_date_fields. cbn. split; [lia|]. split; [lia|].
        unfold days_in_month. clear - Hm E2.
        each_month Hm; try lia; destruct (is_leap y); lookup; lia.
      * unfold toordinal, ymd2ord, days_before_month, days_in_month.
        cbn [year month day]. clear - Hm E2.
        each_month Hm; try lia; destruct (is_leap y); lookup; lia.
    + apply Z.ltb_ge in E2. assert (m = 12) by lia. subst m. split.
      * apply is_date_fields. cbn [year month day]. unfold days_in_month. lookup. lia.
      * unfold toordinal, ymd2ord. cbn [year month day].
        rewrite days_before_next_year by assumption.
        unfold days_before_month, days_in_month.
        destruct (is_leap y), (is_leap (y + 1)); lookup; lia.
Qed.

(** Every ordinal from 1 on is the ordinal of a day of the calendar. *)
Lemma ordinal_of_some_date (n : Z) :
  1 <= n -> exists t, is_date t = true /\ toordinal t = n.
Proof.
  intros Hn. replace n with (1 + (n - 1)) by lia.
  assert (H : 0 <= n - 1) by lia. revert H. generalize (n - 1). clear.
  apply natlike_ind.
  - now exists {| year := 1; month := 1; day := 1 |}.
  - intros k Hk [t [Ht Ho]].
    destruct (next_day_toordinal t Ht) as [Hd Hs].
    exists (next_day t). split; [exact Hd | lia].
Qed.

(** An ordinal is found back from its date, and the next ordinal is the
    next day. *)
Lemma toordinal_fromordinal (n : Z) :
  1 <= n -> is_date (fromordinal n) = true /\ toordinal (fromordinal n) = n.
Proof.
  intros Hn. destruct (ordinal_of_some_date n Hn) as [t [Ht <-]].
  now rewrite fromordinal_toordinal.
Qed.

Lemma fromordinal_next (n : Z) :
  1 <= n -> fromordinal (n + 1) = next_day (fromordinal n).
Proof.
  intros Hn. destruct (toordinal_fromordinal n Hn) as [Hd Ho].
  destruct (next_day_toordinal _ Hd) as [Hd' Ho'].
  rewrite <- (fromordinal_toordinal _ Hd'). f_equal. lia.
Qed.

(** Adding days through the ordinal walks the calendar day by day. *)
Lemma fromordinal_plus_days (t : datetime) (k : nat) :
  is_date t = true ->
  fromordinal (toordinal t + Z.of_nat k) = plus_days k t.
Proof.
  intros Ht. induction k as [|k IH].
  - rewrite Z.add_0_r. now apply fromordinal_toordinal.
  - cbn [plus_days]. rewrite <- IH.
    replace (toordinal t + Z.of_nat (S k)) with (toordinal t + Z.of_nat k + 1) by lia.
    apply fromordinal_next.
    assert (1 <= toordinal t); [|lia].
    apply is_date_fields in Ht. destruct t as [y m d]. cbn in Ht.
    unfold toordinal, ymd2ord. cbn [year month day].
    assert (0 <= days_before_year y)
      by (unfold days_before_year; Z.div_mod_to_equations; lia).
    assert (0 <= days_before_month y m).
    { unfold days_before_month. destruct Ht as [_ [Hm _]].
      each_month Hm; destruct (is_leap y); lookup; lia. }
    lia.
Qed.

(** The ordinals of the dates of the years 1 to 9999 are 1 to
    [MAXORDINAL]. *)
Lemma toordinal_positive (t : datetime) : is_date t = true -> 1 <= toordinal t.
Proof.
  intros Ht. apply is_date_fields in Ht. destruct t as [y m d]. cbn in Ht.
  unfold toordinal, ymd2ord. cbn [year month day].
  assert (0 <= days_before_year y)
    by (unfold days_before_year; Z.div_mod_to_equations; lia).
  assert (0 <= days_before_month y m).
  { unfold days_before_month. destruct Ht as [_ [Hm _]].
    each_month Hm; destruct (is_leap y); lookup; lia. }
  lia.
Qed.

Lemma days_before_year_bound (y : Z) :
  1 <= y <= 10000 -> days_before_year y <= MAXORDINAL.
Proof.
  intros Hy. replace y with (10000 - (10000 - y)) by lia.
  assert (H : 0 <= 10000 - y <= 9999) by lia. revert H.
  generalize (10000 - y). clear. intros k [H0 H1]. revert H1.
  pattern k. apply natlike_ind; [reflexivity | | exact H0].
  clear. intros k Hk IH Hs.
  pose proof (days_before_next_year (10000 - Z.succ k) ltac:(lia)) as E.
  replace (10000 - Z.succ k + 1) with (10000 - k) in E by lia.
  destruct (is_leap _); specialize (IH ltac:(lia)); lia.
Qed.

Lemma toordinal_bound (t : datetime) :
  is_date t = true -> year t <= MAXYEAR -> toordinal t <= MAXORDINAL.
Proof.
  intros Ht Hy. apply is_date_fields in Ht. destruct t as [y m d].
  cbn [year month day] in *. destruct Ht as [Hy1 [Hm Hd]].
  unfold toordinal, ymd2ord, MAXYEAR in *. cbn [year month day].
  pose proof (days_before_next_year y Hy1) as E.
  pose proof (days_before_year_bound (y + 1) ltac:(lia)) as B.
  destruct (rank_in_year y m d Hm Hd) as [Hk | [Hl [-> ->]]].
  - destruct (is_leap y); lia.
  - rewrite Hl in E. unfold days_before_month. rewrite Hl. lookup. lia.
Qed.

(** *** Dates written as YYYY-MM-DD *)

(** A [datetime] that is built has the fields it was built from. *)
Lemma new_datetime_ok (y m d : Z) (t : datetime) :
  new_datetime y m d = Ok t ->
  t = {| year := y; month := m; day := d |} /\
  is_date t = true /\ year t <= MAXYEAR.
Proof.
  unfold new_datetime, MINYEAR, MAXYEAR.
  destruct ((y <? 1) || (9999 <? y)) eqn:Ey; [discriminate|].
  destruct ((m <? 1) || (12 <? m)) eqn:Em; [discriminate|].
  destruct ((d <? 1) || (days_in_month y m <? d)) eqn:Ed; [discriminate|].
  intros [= <-]. split; [reflexivity|].
  apply orb_false_iff in Ey, Em, Ed.
  rewrite !Z.ltb_ge in *. split; [|cbn; lia].
  apply is_date_fields. cbn. lia.
Qed.

(** What [strptime] returns is a day of the calendar up to the year 9999. *)
Lemma strptime_ymd_date (s : string) (t : datetime) :
  strptime_ymd s = Ok t -> is_date t = true /\ year t <= MAXYEAR.
Proof.
  unfold strptime_ymd.
  destruct (match_ymd s) as [[[[Y m] d] rest]|]; [|discriminate].
  destruct rest; [|discriminate].
  intros H. now apply new_datetime_ok in H.
Qed.

(** Each year from 1 to 9999 is written with four digits that read back. *)
Lemma years_written : holds_from year_written 1 (Z.to_nat 9999) = true.
Proof. vm_compute. reflexivity. Qed.

(** The days of a month, one by one. *)
Lemma day_cases (d : Z) :
  1 <= d <= 31 ->
  d = 1 \/ d = 2 \/ d = 3 \/ d = 4 \/ d = 5 \/ d = 6 \/ d = 7 \/ d = 8 \/
  d = 9 \/ d = 10 \/ d = 11 \/ d = 12 \/ d = 13 \/ d = 14 \/ d = 15 \/
  d = 16 \/ d = 17 \/ d = 18 \/ d = 19 \/ d = 20 \/ d = 21 \/ d = 22 \/
  d = 23 \/ d = 24 \/ d = 25 \/ d = 26 \/ d = 27 \/ d = 28 \/ d = 29 \/
  d = 30 \/ d = 31.
Proof. lia. Qed.

(** The pattern finds the month and the day of a date written with two
    digits each, after any four digits of year. *)
Lemma match_ymd_written (a b c d : ascii) (m dd : Z) :
  is_digit a && is_digit b && is_digit c && is_digit d = true ->
  1 <= m <= 12 -> 1 <= dd <= 31 ->
  match_ymd (String a (String b (String c (String d
               (String "-" (pad2 m ++ String "-" (pad2 dd))))))) =
  Some (String a (String b (String c (String d ""))), pad2 m, pad2 dd, "").
Proof.
  intros Hy Hm Hd. unfold match_ymd, re_Y. rewrite Hy.
  each_month Hm;
    destruct (day_cases dd Hd) as
      [?|[?|[?|[?|[?|[?|[?|[?|[?|[?|[?|[?|[?|[?|[?|[?|[?|[?|[?|[?|[?|[?|[?|[?|
       [?|[?|[?|[?|[?|[?|?]]]]]]]]]]]]]]]]]]]]]]]]]]]]]];
    subst; reflexivity.
Qed.

(** Every date of the years 1 to 9999 written as YYYY-MM-DD parses to
    itself. *)
Lemma strptime_isoformat (t : datetime) :
  is_date t = true -> year t <= MAXYEAR ->
  strptime_ymd (isoformat t) = Ok t.
Proof.
  intros Ht Hy. apply is_date_fields in Ht. destruct t as [y m d].
  cbn [year month day] in *. destruct Ht as [Hy1 [Hm Hd]].
  unfold MAXYEAR in Hy.
  assert (W : year_written y = true).
  { apply (holds_from_spec _ _ _ years_written).
    rewrite Z2Nat.id; lia. }
  unfold year_written in W. unfold isoformat. cbn [year month day].
  destruct (pad4 y) as [|a [|b [|c [|d0 [|]]]]] eqn:Ep; try discriminate W.
  apply andb_true_iff in W. destruct W as [Hdig Hval].
  apply Z.eqb_eq in Hval.
  assert (Hd31 : d <= 31).
  { clear - Hm Hd. unfold days_in_month in Hd.
    each_month Hm; destruct (is_leap y); lookup; lia. }
  unfold strptime_ymd. cbn [append].
  rewrite (match_ymd_written a b c d0 m d Hdig Hm) by lia.
  rewrite Hval.
  assert (Hmv : int_group 0 (pad2 m) = m)
    by (clear - Hm; each_month Hm; reflexivity).
  assert (Hdv : int_group 0 (pad2 d) = d).
  { clear - Hd Hd31.
    destruct (day_cases d ltac:(lia)) as
      [?|[?|[?|[?|[?|[?|[?|[?|[?|[?|[?|[?|[?|[?|[?|[?|[?|[?|[?|[?|[?|[?|[?|[?|
       [?|[?|[?|[?|[?|[?|?]]]]]]]]]]]]]]]]]]]]]]]]]]]]]];
    subst; reflexivity. }
  rewrite Hmv, Hdv. unfold new_datetime, MINYEAR, MAXYEAR.
  replace ((y <? 1) || (9999 <? y)) with false
    by (symmetry; apply orb_false_iff; rewrite !Z.ltb_ge; lia).
  replace ((m <? 1) || (12 <? m)) with false
    by (symmetry; apply orb_false_iff; rewrite !Z.ltb_ge; lia).
  replace ((d <? 1) || (days_in_month y m <? d)) with false
    by (symmetry; apply orb_false_iff; rewrite !Z.ltb_ge; lia).
  reflexivity.
Qed.

(** ** [calculate_rent] *)

(** The narrative is the report of the amounts, and the tool raises what
    computing the amounts raises. *)
Lemma calculate_rent_report monthly_rent stay_months deposit early notice :
  calculate_rent monthly_rent stay_months deposit early notice =
  match rent_amounts monthly_rent stay_months deposit early notice with
  | Ok a => Ok (rent_report monthly_rent stay_months deposit notice a)
  | Raise e => Raise e
  end.
Proof.
  unfold calculate_rent, rent_amounts, bind.
  destruct (mul_int monthly_rent stay_months); [|reflexivity].
  destruct early; [|reflexivity].
  destruct (mul_int monthly_rent notice); reflexivity.
Qed.

(** The only exception is that of an [int] too large for a float. *)
Lemma rent_amounts_raises monthly_rent stay_months deposit early notice e :
  rent_amounts monthly_rent stay_months deposit early notice = Raise e ->
  e = OverflowError "int too large to convert to float" /\
  (convertible stay_months = false \/
   early = true /\ convertible notice = false).
Proof.
  unfold rent_amounts, mul_int, bind.
  destruct (convertible stay_months) eqn:Hs.
  - rewrite (of_int_convertible _ Hs).
    destruct early; [|discriminate].
    destruct (convertible notice) eqn:Hn.
    + rewrite (of_int_convertible _ Hn). discriminate.
    + rewrite (of_int_not_convertible _ Hn). intros [= <-]. auto.
  - rewrite (of_int_not_convertible _ Hs). intros [= <-]. auto.
Qed.

(** The examples of the contract of [calculate_rent]. *)
Lemma calculate_rent_examples :
  calculate_rent (round_int 1000) 6 (round_int 2000) true 2 =
    Ok ("🏠 Rent Calculation Result:" ++ nl ++
        "- Monthly Rent: S$1000.00" ++ nl ++
        "- Actual Stay Duration: 6 months" ++ nl ++
        "- Total Rent Payable: S$6000.00" ++ nl ++
        "- Early Termination Penalty (Notice Period: 2 months): S$2000.00" ++ nl ++
        "- Deposit Paid: S$2000.00" ++ nl ++
        "- Refundable Deposit: S$0.00" ++ nl ++
        "⚠️ Note: The penalty calculation is based on common rental contract terms and is subject to your specific contract.") /\
  calculate_rent (round_int 1000) 6 (round_int 500) false 2 =
    Ok ("🏠 Rent Calculation Result:" ++ nl ++
        "- Monthly Rent: S$1000.00" ++ nl ++
        "- Actual Stay Duration: 6 months" ++ nl ++
        "- Total Rent Payable: S$6000.00" ++ nl ++
        "- Deposit Paid: S$500.00" ++ nl ++
        "- Refundable Deposit (No Damage): S$500.00").
Proof. split; vm_compute; reflexivity. Qed.

(** C1: for a monthly rent and a deposit at least zero and numbers of
    months from zero up to the integers that convert to a float (below
    [2^1024 - 2^970]), [calculate_rent] reports as total rent the float
    product of the monthly rent and the months stayed; on early
    termination, as penalty the float product of the monthly rent and the
    months of notice, and as refundable deposit the larger of zero and the
    deposit less the penalty; otherwise no penalty at all, and the deposit
    as refundable deposit. *)
Theorem C1_amounts_of_calculate_rent
    (monthly_rent : float) (stay_months : Z) (deposit : float)
    (is_early_termination : bool) (notice_period_months : Z) :
  geb monthly_rent zero = true ->
  0 <= stay_months < 2 ^ 1024 - 2 ^ 970 ->
  geb deposit zero = true ->
  0 <= notice_period_months ->
  (is_early_termination = true -> notice_period_months < 2 ^ 1024 - 2 ^ 970) ->
  let product := mul monthly_rent (round_int stay_months) in
  let fine := mul monthly_rent (round_int notice_period_months) in
  let amounts :=
    if is_early_termination then
      {| total_rent := product; penalty := Some fine;
         refundable_deposit := max zero (sub deposit fine) |}
    else
      {| total_rent := product; penalty := None;
         refundable_deposit := deposit |} in
  rent_amounts monthly_rent stay_months deposit is_early_termination
    notice_period_months = Ok amounts /\
  calculate_rent monthly_rent stay_months deposit is_early_termination
    notice_period_months
  = Ok (rent_report monthly_rent stay_months deposit notice_period_months
          amounts).
Proof.
  intros _ Hs _ Hn Hearly. cbv zeta.
  assert (A : rent_amounts monthly_rent stay_months deposit is_early_termination
                notice_period_months =
              Ok (if is_early_termination then
                    {| total_rent := mul monthly_rent (round_int stay_months);
                       penalty := Some (mul monthly_rent (round_int notice_period_months));
                       refundable_deposit :=
                         max zero (sub deposit (mul monthly_rent (round_int notice_period_months))) |}
                  else
                    {| total_rent := mul monthly_rent (round_int stay_months);
                       penalty := None; refundable_deposit := deposit |})).
  { unfold rent_amounts, mul_int, bind.
    rewrite (of_int_convertible stay_months (convertible_below _ Hs)).
    destruct is_early_termination; [|reflexivity].
    rewrite (of_int_convertible notice_period_months);
      [reflexivity | apply convertible_below; split; [exact Hn | now apply Hearly]]. }
  split; [exact A|]. now rewrite calculate_rent_report, A.
Qed.

(** C1 at a rent of 1000 for 6 months, deposit 2000, early termination
    with 2 months of notice. *)
Lemma C1_witness :
  rent_amounts (round_int 1000) 6 (round_int 2000) true 2 =
  Ok {| total_rent := mul (round_int 1000) (round_int 6);
        penalty := Some (mul (round_int 1000) (round_int 2));
        refundable_deposit :=
          max zero (sub (round_int 2000) (mul (round_int 1000) (round_int 2))) |} /\
  calculate_rent (round_int 1000) 6 (round_int 2000) true 2 =
  Ok (rent_report (round_int 1000) 6 (round_int 2000) 2
        {| total_rent := mul (round_int 1000) (round_int 6);
           penalty := Some (mul (round_int 1000) (round_int 2));
           refundable_deposit :=
             max zero (sub (round_int 2000) (mul (round_int 1000) (round_int 2))) |}).
Proof.
  apply (C1_amounts_of_calculate_rent (round_int 1000) 6 (round_int 2000) true 2);
    [reflexivity | split; [lia | reflexivity] | reflexivity | lia
    | intros _; reflexivity].
Defined.

(** Beyond the bound of C1: with [2^1024] months stayed [calculate_rent]
    raises [OverflowError] and reports no amount. *)
Lemma C1_counterexample_months_beyond_float :
  is_float (round_int 1000) = true /\
  geb (round_int 1000) zero = true /\ 0 <= 2 ^ 1024 /\
  geb zero zero = true /\ 0 <= 2 /\
  rent_amounts (round_int 1000) (2 ^ 1024) zero false 2 =
    Raise (OverflowError "int too large to convert to float") /\
  calculate_rent (round_int 1000) (2 ^ 1024) zero false 2 =
    Raise (OverflowError "int too large to convert to float").
Proof. repeat split; (reflexivity || (vm_compute; discriminate)). Qed.

(** C2: with a deposit at least zero, whatever [calculate_rent] reports as
    refundable deposit is at least zero, with and without early
    termination; the call reports its amounts unless an integer argument
    is too large for a float. *)
Theorem C2_refundable_deposit_nonnegative
    (monthly_rent : float) (stay_months : Z) (deposit : float)
    (is_early_termination : bool) (notice_period_months : Z) :
  geb monthly_rent zero = true -> 0 <= stay_months ->
  geb deposit zero = true -> 0 <= notice_period_months ->
  match rent_amounts monthly_rent stay_months deposit is_early_termination
          notice_period_months with
  | Ok a =>
      calculate_rent monthly_rent stay_months deposit is_early_termination
        notice_period_months
      = Ok (rent_report monthly_rent stay_months deposit notice_period_months a)
      /\ geb (refundable_deposit a) zero = true
  | Raise e =>
      convertible stay_months = false \/
      is_early_termination = true /\ convertible notice_period_months = false
  end.
Proof.
  intros _ _ Hdep _.
  rewrite calculate_rent_report.
  destruct (rent_amounts _ _ _ _ _) as [a|e] eqn:Ha.
  - split; [reflexivity|].
    revert Ha. unfold rent_amounts, bind.
    destruct (mul_int monthly_rent stay_months); [|discriminate].
    destruct is_early_termination.
    + destruct (mul_int monthly_rent notice_period_months); [|discriminate].
      intros [= <-]. simpl. apply max_zero_nonneg.
    + intros [= <-]. exact Hdep.
  - now apply rent_amounts_raises in Ha.
Qed.

(** C2 at the same call. *)
Lemma C2_witness :
  geb (round_int 1000) zero = true /\ 0 <= 6 /\
  geb (round_int 2000) zero = true /\ 0 <= 2 /\
  match rent_amounts (round_int 1000) 6 (round_int 2000) true 2 with
  | Ok a =>
      calculate_rent (round_int 1000) 6 (round_int 2000) true 2
      = Ok (rent_report (round_int 1000) 6 (round_int 2000) 2 a)
      /\ geb (refundable_deposit a) zero = true
  | Raise e => convertible 6 = false \/ true = true /\ convertible 2 = false
  end.
Proof.
  split; [reflexivity|]. split; [lia|]. split; [reflexivity|]. split; [lia|].
  apply (C2_refundable_deposit_nonnegative (round_int 1000) 6 (round_int 2000) true 2);
    [reflexivity | lia | reflexivity | lia].
Defined.

(** C9: without early termination the result of [calculate_rent] does not
    depend on the notice period: two calls that differ in it alone return
    the same result, and the narrative has no penalty line and does not
    mention the notice period. *)
Theorem C9_notice_period_is_ignored
    (monthly_rent : float) (stay_months : Z) (deposit : float)
    (notice1 notice2 : Z) :
  calculate_rent monthly_rent stay_months deposit false notice1 =
  calculate_rent monthly_rent stay_months deposit false notice2 /\
  forall narrative,
    calculate_rent monthly_rent stay_months deposit false notice1
    = Ok narrative ->
    contains "Penalty" narrative = false /\
    contains "Notice Period" narrative = false.
Proof.
  split; [reflexivity|].
  intros narrative. unfold calculate_rent, bind.
  destruct (mul_int monthly_rent stay_months) as [total|]; [|discriminate].
  intros [= <-].
  assert (F : follows "P" "e" false
    ("🏠 Rent Calculation Result:" ++ nl ++
     "- Monthly Rent: S$" ++ format_2f monthly_rent ++ nl ++
     "- Actual Stay Duration: " ++ str_int stay_months ++ " months" ++ nl ++
     "- Total Rent Payable: S$" ++ format_2f total ++ nl ++
     "- Deposit Paid: S$" ++ format_2f deposit ++ nl ++
     "- Refundable Deposit (No Damage): S$" ++ format_2f deposit) = false).
  { cbn -[format_2f str_int].
    rewrite follows_skip_format_2f by reflexivity. cbn -[format_2f str_int].
    rewrite follows_skip_str_int by reflexivity. cbn -[format_2f str_int].
    rewrite follows_skip_format_2f by reflexivity. cbn -[format_2f str_int].
    rewrite follows_skip_format_2f by reflexivity. cbn -[format_2f str_int].
    rewrite <- (append_nil_r (format_2f deposit)).
    now rewrite follows_skip_format_2f by reflexivity. }
  split.
  - apply (follows_contains "P" "e" "" "nalty"), F.
  - apply (follows_contains "P" "e" "Notice " "riod"), F.
Qed.

(** C9 at a rent of 1000 for 6 months and a deposit of 500. *)
Lemma C9_witness :
  contains "Penalty"
    ("🏠 Rent Calculation Result:" ++ nl ++
     "- Monthly Rent: S$1000.00" ++ nl ++
     "- Actual Stay Duration: 6 months" ++ nl ++
     "- Total Rent Payable: S$6000.00" ++ nl ++
     "- Deposit Paid: S$500.00" ++ nl ++
     "- Refundable Deposit (No Damage): S$500.00") = false.
Proof.
  apply (proj2 (C9_notice_period_is_ignored (round_int 1000) 6 (round_int 500) 2 3)).
  vm_compute. reflexivity.
Defined.

(** ** [calculate_moveout_date] *)

(** The dates of a call whose move-out date is within the calendar. *)
Lemma moveout_dates_in_range (current_date : string) (notice_days : Z)
    (t : datetime) :
  strptime_ymd current_date = Ok t ->
  0 <= notice_days -> toordinal t + notice_days <= MAXORDINAL ->
  moveout_dates current_date notice_days =
  Ok {| current := t;
        moveout_date := plus_days (Z.to_nat notice_days) t;
        days_remaining := notice_days |}.
Proof.
  intros Hp Hn Hmax.
  destruct (strptime_ymd_date _ _ Hp) as [Ht _].
  pose proof (toordinal_positive t Ht) as Ho.
  unfold moveout_dates, bind. rewrite Hp.
  unfold timedelta_days, MAXORDINAL in *.
  replace ((notice_days <? -2147483648) || (2147483647 <? notice_days)) with false
    by (symmetry; apply orb_false_iff; rewrite !Z.ltb_ge; lia).
  replace ((notice_days <? -999999999) || (999999999 <? notice_days)) with false
    by (symmetry; apply orb_false_iff; rewrite !Z.ltb_ge; lia).
  unfold add_days, MAXORDINAL.
  replace ((1 <=? toordinal t + notice_days) && (toordinal t + notice_days <=? 3652059))
    with true by (symmetry; apply andb_true_iff; rewrite !Z.leb_le; lia).
  unfold sub_days.
  destruct (toordinal_fromordinal (toordinal t + notice_days)) as [_ ->]; [lia|].
  rewrite <- (Z2Nat.id notice_days Hn) at 1.
  rewrite fromordinal_plus_days by assumption.
  f_equal. f_equal. lia.
Qed.

(** The narrative is the report of the dates, or the message of the
    handler. *)
Lemma calculate_moveout_date_report (current_date : string) (notice_days : Z) :
  calculate_moveout_date current_date notice_days =
  match moveout_dates current_date notice_days with
  | Ok r => moveout_report notice_days r
  | Raise e => moveout_except e
  end.
Proof.
  unfold calculate_moveout_date, moveout_try, moveout_dates, bind.
  destruct (strptime_ymd current_date); [|reflexivity].
  destruct (timedelta_days notice_days); [|reflexivity].
  destruct (add_days _ _); reflexivity.
Qed.

(** C6: when [current_date] parses and the day [notice_days] calendar days
    later is not after 31 December 9999, the move-out date is that day,
    counted day by day through the calendar; from 2025-03-01 with 60 days
    of notice it is 2025-04-30. *)
Theorem C6_moveout_date_is_calendar_sum :
  (forall (current_date : string) (notice_days : Z) (t : datetime),
    strptime_ymd current_date = Ok t ->
    0 <= notice_days ->
    toordinal t + notice_days <= MAXORDINAL ->
    exists r,
      moveout_dates current_date notice_days = Ok r /\
      current r = t /\
      moveout_date r = plus_days (Z.to_nat notice_days) t /\
      calculate_moveout_date current_date notice_days =
      moveout_report notice_days r) /\
  toordinal {| year := 9999; month := 12; day := 31 |} = MAXORDINAL /\
  (moveout_dates "2025-03-01" 60 =
   Ok {| current := {| year := 2025; month := 3; day := 1 |};
         moveout_date := {| year := 2025; month := 4; day := 30 |};
         days_remaining := 60 |} /\
   calculate_moveout_date "2025-03-01" 60 =
     "📅 Move-Out Date Calculation Result:" ++ nl ++
     "- Notice Submission Date: 2025年03月01日" ++ nl ++
     "- Notice Period: 60天" ++ nl ++
     "- Move-Out Deadline: 2025年04月30日" ++ nl ++
     "- Days Remaining: 60天" ++ nl ++
     "✅ Please complete the move-out inspection and key handover before the deadline.").
Proof.
  split; [|split; [reflexivity | split; reflexivity]].
  intros s n t Hp Hn Hmax.
  eexists. split; [apply (moveout_dates_in_range s n t Hp Hn Hmax)|].
  split; [reflexivity|]. split; [reflexivity|].
  rewrite calculate_moveout_date_report.
  now rewrite (moveout_dates_in_range s n t Hp Hn Hmax).
Qed.

(** C6 over the end of February of a leap year. *)
Lemma C6_witness :
  exists r,
    moveout_dates "2024-02-28" 2 = Ok r /\
    current r = {| year := 2024; month := 2; day := 28 |} /\
    moveout_date r = plus_days (Z.to_nat 2) {| year := 2024; month := 2; day := 28 |} /\
    calculate_moveout_date "2024-02-28" 2 = moveout_report 2 r.
Proof.
  apply (proj1 C6_moveout_date_is_calendar_sum "2024-02-28" 2
           {| year := 2024; month := 2; day := 28 |});
    [reflexivity | lia | vm_compute; discriminate].
Defined.

(** Beyond the bound of C6, past the end of the calendar: one day after
    9999-12-31 there is no move-out date, the handler's message is
    returned. *)
Lemma C6_counterexample_after_9999 :
  strptime_ymd "9999-12-31" = Ok {| year := 9999; month := 12; day := 31 |} /\
  0 <= 1 /\
  moveout_dates "9999-12-31" 1 = Raise (OverflowError "date value out of range") /\
  calculate_moveout_date "9999-12-31" 1 =
    "❌ Date Calculation Error: date value out of range. Please ensure the date format is YYYY-MM-DD (e.g., 2025-03-01).".
Proof. repeat split; (reflexivity || lia). Qed.

(** The days remaining are computed as a difference of dates. *)
Lemma days_remaining_difference (current_date : string) (notice_days : Z)
    (r : MoveOutDates) :
  moveout_dates current_date notice_days = Ok r ->
  days_remaining r = sub_days (moveout_date r) (current r).
Proof.
  unfold moveout_dates, bind.
  destruct (strptime_ymd current_date) as [t|]; [|discriminate].
  destruct (timedelta_days notice_days) as [delta|]; [|discriminate].
  destruct (add_days t delta); [|discriminate].
  now intros [= <-].
Qed.

(** C7: when [current_date] parses and the move-out date is within the
    calendar, the days remaining are the difference of the move-out date
    and the notice date, which is [notice_days]. *)
Theorem C7_days_remaining_echo
    (current_date : string) (notice_days : Z) (t : datetime) :
  strptime_ymd current_date = Ok t ->
  0 <= notice_days ->
  toordinal t + notice_days <= MAXORDINAL ->
  exists r,
    moveout_dates current_date notice_days = Ok r /\
    days_remaining r = sub_days (moveout_date r) (current r) /\
    days_remaining r = notice_days /\
    calculate_moveout_date current_date notice_days =
      "📅 Move-Out Date Calculation Result:" ++ nl ++
      "- Notice Submission Date: " ++ strftime_cn (current r) ++ nl ++
      "- Notice Period: " ++ str_int notice_days ++ "天" ++ nl ++
      "- Move-Out Deadline: " ++ strftime_cn (moveout_date r) ++ nl ++
      "- Days Remaining: " ++ str_int notice_days ++ "天" ++ nl ++
      "✅ Please complete the move-out inspection and key handover before the deadline.".
Proof.
  intros Hp Hn Hmax.
  pose proof (moveout_dates_in_range _ _ _ Hp Hn Hmax) as Hr.
  eexists. split; [exact Hr|].
  split; [exact (days_remaining_difference _ _ _ Hr)|].
  split; [reflexivity|].
  rewrite calculate_moveout_date_report, Hr. reflexivity.
Qed.

(** C7 at 60 days from 2025-03-01. *)
Lemma C7_witness :
  exists r,
    moveout_dates "2025-03-01" 60 = Ok r /\
    days_remaining r = sub_days (moveout_date r) (current r) /\
    days_remaining r = 60 /\
    calculate_moveout_date "2025-03-01" 60 =
      "📅 Move-Out Date Calculation Result:" ++ nl ++
      "- Notice Submission Date: " ++ strftime_cn (current r) ++ nl ++
      "- Notice Period: " ++ str_int 60 ++ "天" ++ nl ++
      "- Move-Out Deadline: " ++ strftime_cn (moveout_date r) ++ nl ++
      "- Days Remaining: " ++ str_int 60 ++ "天" ++ nl ++
      "✅ Please complete the move-out inspection and key handover before the deadline.".
Proof.
  apply (C7_days_remaining_echo "2025-03-01" 60
           {| year := 2025; month := 3; day := 1 |});
    [reflexivity | lia | vm_compute; discriminate].
Defined.

(** Beyond the bound of C7, past the end of the calendar: 60 days from
    9999-12-01 no days remaining are reported, the handler's message is
    returned. *)
Lemma C7_counterexample_after_9999 :
  strptime_ymd "9999-12-01" = Ok {| year := 9999; month := 12; day := 1 |} /\
  0 <= 60 /\
  moveout_dates "9999-12-01" 60 = Raise (OverflowError "date value out of range") /\
  calculate_moveout_date "9999-12-01" 60 =
    "❌ Date Calculation Error: date value out of range. Please ensure the date format is YYYY-MM-DD (e.g., 2025-03-01).".
Proof. repeat split; (reflexivity || lia). Qed.

(** The handler's narrative is an error narrative, a report is not; the
    handler names the format and carries the message of the exception. *)
Lemma is_error_except (e : exn) : is_error_narrative (moveout_except e) = true.
Proof. reflexivity. Qed.

Lemma is_error_report (notice_days : Z) (r : MoveOutDates) :
  is_error_narrative (moveout_report notice_days r) = false.
Proof. reflexivity. Qed.

Lemma except_names_format (e : exn) :
  contains "YYYY-MM-DD" (moveout_except e) = true.
Proof.
  apply contains_spec.
  exists ("❌ Date Calculation Error: " ++ str_exn e ++
          ". Please ensure the date format is "), " (e.g., 2025-03-01).".
  unfold moveout_except. now rewrite !append_assoc.
Qed.

Lemma except_has_message (e : exn) :
  contains (str_exn e) (moveout_except e) = true.
Proof.
  apply contains_spec.
  now exists "❌ Date Calculation Error: ",
    ". Please ensure the date format is YYYY-MM-DD (e.g., 2025-03-01).".
Qed.

(** A text the pattern does not match is named in the message. *)
Lemma unmatched_message (current_date : string) (notice_days : Z) :
  match_ymd current_date = None ->
  calculate_moveout_date current_date notice_days =
  moveout_except
    (ValueError ("time data " ++ repr current_date ++
                 " does not match format '%Y-%m-%d'")).
Proof.
  intros H. rewrite calculate_moveout_date_report.
  unfold moveout_dates, strptime_ymd, bind. now rewrite H.
Qed.

(** A call fails when the text does not parse or the move-out date leaves
    the calendar, and only then. *)
Lemma moveout_dates_raises (current_date : string) (notice_days : Z) :
  (exists e, moveout_dates current_date notice_days = Raise e) <->
  (exists e, strptime_ymd current_date = Raise e) \/
  (exists t, strptime_ymd current_date = Ok t /\
             ~ (1 <= toordinal t + notice_days <= MAXORDINAL)).
Proof.
  unfold moveout_dates, bind.
  destruct (strptime_ymd current_date) as [t|e] eqn:Hp.
  - destruct (strptime_ymd_date _ _ Hp) as [Ht Hy].
    pose proof (toordinal_positive t Ht) as Ho.
    pose proof (toordinal_bound t Ht Hy) as Hb.
    unfold timedelta_days, add_days, MAXORDINAL in *.
    destruct ((notice_days <? -2147483648) || (2147483647 <? notice_days)) eqn:E1.
    { apply orb_true_iff in E1. rewrite !Z.ltb_lt in E1. split.
      - intros _. right. exists t. split; [reflexivity | lia].
      - intros _. eexists. reflexivity. }
    destruct ((notice_days <? -999999999) || (999999999 <? notice_days)) eqn:E2.
    { apply orb_true_iff in E2. rewrite !Z.ltb_lt in E2. split.
      - intros _. right. exists t. split; [reflexivity | lia].
      - intros _. eexists. reflexivity. }
    destruct ((1 <=? toordinal t + notice_days) && (toordinal t + notice_days <=? 3652059)) eqn:E3.
    + apply andb_true_iff in E3. rewrite !Z.leb_le in E3. split.
      * intros [e H]. discriminate H.
      * intros [[e H] | [t' [[= <-] H]]]; [discriminate H | lia].
    + apply andb_false_iff in E3. rewrite !Z.leb_gt in E3. split.
      * intros _. right. exists t. split; [reflexivity | lia].
      * intros _. eexists. reflexivity.
  - split.
    + intros _. left. now exists e.
    + intros _. now exists e.
Qed.

(** C8: for a [current_date] of ASCII characters,
    [calculate_moveout_date] returns a narrative whatever the arguments,
    the exceptions of the [try] block ending in the handler.  The
    narrative is the handler's exactly when [current_date] does not parse
    or the move-out date leaves the calendar of the years 1 to 9999; it
    then names the format YYYY-MM-DD.  When the pattern does not match
    [current_date] at all, as for "not-a-date", the message carries
    [repr(current_date)], so the text itself when its characters are
    printable and none is a single quote or a backslash.  Every date of
    the years 1 to 9999 written as YYYY-MM-DD parses to itself; so does a
    date written with a month or a day of one digit. *)
Theorem C8_failures_become_messages
    (current_date : string) (notice_days : Z) :
  Written.ascii_text current_date = true ->
  let narrative := calculate_moveout_date current_date notice_days in
  narrative =
    match moveout_try current_date notice_days with
    | Ok text => text
    | Raise e => "❌ Date Calculation Error: " ++ str_exn e ++
                 ". Please ensure the date format is YYYY-MM-DD (e.g., 2025-03-01)."
    end /\
  (is_error_narrative narrative = true <->
   (exists e, strptime_ymd current_date = Raise e) \/
   (exists t, strptime_ymd current_date = Ok t /\
              ~ (1 <= toordinal t + notice_days <= MAXORDINAL))) /\
  (is_error_narrative narrative = true ->
   contains "YYYY-MM-DD" narrative = true) /\
  (match_ymd current_date = None ->
   is_error_narrative narrative = true /\
   contains (repr current_date) narrative = true /\
   (plain current_date = true -> contains current_date narrative = true)) /\
  (calculate_moveout_date "not-a-date" 60 =
   "❌ Date Calculation Error: time data 'not-a-date' does not match format '%Y-%m-%d'. Please ensure the date format is YYYY-MM-DD (e.g., 2025-03-01).") /\
  (forall t, is_date t = true -> year t <= MAXYEAR ->
             strptime_ymd (isoformat t) = Ok t) /\
  strptime_ymd "2025-3-1" = Ok {| year := 2025; month := 3; day := 1 |}.
Proof.
  intros _. cbv zeta. split; [reflexivity|].
  split; [|split; [|split; [|split; [reflexivity|split; [exact strptime_isoformat | reflexivity]]]]].
  - rewrite <- moveout_dates_raises, calculate_moveout_date_report.
    destruct (moveout_dates current_date notice_days) as [r|e].
    + rewrite is_error_report. split; [discriminate | intros [e H]; discriminate H].
    + rewrite is_error_except. split; [now exists e | reflexivity].
  - rewrite calculate_moveout_date_report.
    destruct (moveout_dates current_date notice_days) as [r|e].
    + rewrite is_error_report. discriminate.
    + intros _. apply except_names_format.
  - intros H. rewrite (unmatched_message _ _ H).
    split; [apply is_error_except|].
    assert (C : contains (repr current_date)
                  (moveout_except (ValueError ("time data " ++ repr current_date ++
                     " does not match format '%Y-%m-%d'"))) = true).
    { apply contains_trans with (2 := except_has_message _).
      apply contains_spec. now exists "time data ", " does not match format '%Y-%m-%d'". }
    split; [exact C|].
    intros Hplain. exact (contains_trans _ _ _ (plain_in_repr _ Hplain) C).
Qed.

(** C8 at a date written the other way round: the message carries it. *)
Lemma C8_witness :
  Written.ascii_text "31/12/2025" = true /\
  contains "31/12/2025" (calculate_moveout_date "31/12/2025" 30) = true.
Proof.
  split; [reflexivity|].
  refine (proj2 (proj2 (proj1 (proj2 (proj2 (proj2
            (C8_failures_become_messages "31/12/2025" 30 _)))) _)) _);
    reflexivity.
Defined.

(** A failure whose message does not carry the text: "2025-02-30" has the
    form of a date and is none, and the message names the day, not the
    text. *)
Lemma C8_counterexample_message_without_text :
  strptime_ymd "2025-02-30" = Raise (ValueError "day is out of range for month") /\
  calculate_moveout_date "2025-02-30" 60 =
    "❌ Date Calculation Error: day is out of range for month. Please ensure the date format is YYYY-MM-DD (e.g., 2025-03-01)." /\
  contains "2025-02-30" (calculate_moveout_date "2025-02-30" 60) = false.
Proof. repeat split. Qed.

(** ** [get_repair_responsibility] *)

(** The narrative is the report of the verdict. *)
Lemma get_repair_responsibility_report (repair_type : string) (cost : float) :
  get_repair_responsibility repair_type cost =
  repair_report (lower repair_type) cost (repair_verdict repair_type cost).
Proof.
  unfold get_repair_responsibility, repair_verdict.
  destruct (contains "bulb" _ || contains "tube" _); [reflexivity|].
  destruct (contains "air conditioner" _); [reflexivity|].
  destruct (gtb cost zero).
  - destruct (leb cost f200); reflexivity.
  - destruct (existsb _ _); reflexivity.
Qed.

(** Each report opens with the sign of its category. *)
Lemma category_of_report (repair_type : string) (cost : float)
    (v : RepairVerdict) :
  category_of (repair_report repair_type cost v) = Some (category v).
Proof. destruct v; reflexivity. Qed.

(** The tests of the branches, by occurrences whatever the case. *)
Lemma existsb_structural (s : string) :
  existsb (fun k => contains k (lower s)) structural_keywords = true <->
  exists k, In k structural_keywords /\ occurs_ci k s.
Proof.
  rewrite existsb_exists. split; intros [k [Hin Hk]]; exists k; split; trivial;
    now apply contains_lower_occurs.
Qed.

Lemma bulb_or_tube (s : string) :
  contains "bulb" (lower s) || contains "tube" (lower s) = true <->
  occurs_ci "bulb" s \/ occurs_ci "tube" s.
Proof. now rewrite orb_true_iff, !contains_lower_occurs. Qed.

Lemma not_bulb_or_tube (s : string) :
  ~ (occurs_ci "bulb" s \/ occurs_ci "tube" s) ->
  contains "bulb" (lower s) || contains "tube" (lower s) = false.
Proof.
  intros H. apply not_true_is_false. intros E. apply H. now apply bulb_or_tube.
Qed.

(** The verdict under each of the five rules. *)
Lemma verdict_rule1 rt cost :
  occurs_ci "bulb" rt \/ occurs_ci "tube" rt ->
  repair_verdict rt cost = TenantConsumable.
Proof.
  intros H. apply bulb_or_tube in H. unfold repair_verdict. now rewrite H.
Qed.

Lemma verdict_rule2 rt cost :
  ~ (occurs_ci "bulb" rt \/ occurs_ci "tube" rt) ->
  occurs_ci "air conditioner" rt ->
  repair_verdict rt cost = LandlordMaintained.
Proof.
  intros H1 H2. unfold repair_verdict.
  rewrite (not_bulb_or_tube _ H1).
  apply contains_lower_occurs in H2. now rewrite H2.
Qed.

Lemma verdict_rule3 rt cost :
  ~ (occurs_ci "bulb" rt \/ occurs_ci "tube" rt) ->
  ~ occurs_ci "air conditioner" rt ->
  gtb cost zero = true ->
  repair_verdict rt cost =
  if leb cost f200 then SmallRepair else SharedCost f200 (sub cost f200).
Proof.
  intros H1 H2 H3. unfold repair_verdict.
  rewrite (not_bulb_or_tube _ H1).
  apply contains_lower_not_occurs in H2. now rewrite H2, H3.
Qed.

Lemma verdict_rule45 rt cost :
  ~ (occurs_ci "bulb" rt \/ occurs_ci "tube" rt) ->
  ~ occurs_ci "air conditioner" rt ->
  gtb cost zero = false ->
  repair_verdict rt cost =
  if existsb (fun k => contains k (lower rt)) structural_keywords
  then Structural else Undetermined.
Proof.
  intros H1 H2 H3. unfold repair_verdict.
  rewrite (not_bulb_or_tube _ H1).
  apply contains_lower_not_occurs in H2. now rewrite H2, H3.
Qed.

(** The structural keywords are "light", "roof", "pipe", "circuit" and
    "structure", and no other. *)
Lemma structural_keyword_occurs (s : string) :
  existsb (fun k => contains k (lower s)) structural_keywords = true <->
  occurs_ci "light" s \/ occurs_ci "roof" s \/ occurs_ci "pipe" s \/
  occurs_ci "circuit" s \/ occurs_ci "structure" s.
Proof.
  unfold structural_keywords. cbn [existsb].
  rewrite !orb_true_iff, !contains_lower_occurs.
  split; [intros [H|[H|[H|[H|[H|H]]]]] | intros [H|[H|[H|[H|H]]]]];
    (discriminate H || tauto).
Qed.

(** C3: the five rules of [get_repair_responsibility] apply in order and
    the first that matches decides: "bulb" or "tube" in any case gives
    tenant-consumable whatever the cost; else "air conditioner" gives
    landlord-maintained whatever the cost; else a cost above zero gives
    cost-split; else one of "light", "roof", "pipe", "circuit" and
    "structure" gives structural; else the result is undetermined.
    "light bulb replacement" is tenant-consumable although it has the
    structural keyword "light", and "air conditioner" at cost 50 is
    landlord-maintained although the cost is above zero.  At no cost each
    of the five keywords alone gives structural, "roof leak" too, and
    "door lock", which has none of them, is undetermined. *)
Theorem C3_rules_in_priority_order (repair_type : string) (cost : float) :
  let announced := category_of (get_repair_responsibility repair_type cost) in
  let rule1 := occurs_ci "bulb" repair_type \/ occurs_ci "tube" repair_type in
  let rule2 := occurs_ci "air conditioner" repair_type in
  let rule3 := gtb cost zero = true in
  let rule4 :=
    occurs_ci "light" repair_type \/ occurs_ci "roof" repair_type \/
    occurs_ci "pipe" repair_type \/ occurs_ci "circuit" repair_type \/
    occurs_ci "structure" repair_type in
  (rule1 -> announced = Some tenant_consumable) /\
  (~ rule1 -> rule2 -> announced = Some landlord_maintained) /\
  (~ rule1 -> ~ rule2 -> rule3 -> announced = Some cost_split) /\
  (~ rule1 -> ~ rule2 -> ~ rule3 -> rule4 -> announced = Some structural) /\
  (~ rule1 -> ~ rule2 -> ~ rule3 -> ~ rule4 ->
   announced = Some undetermined) /\
  (occurs_ci "light" "light bulb replacement" /\
   category_of (get_repair_responsibility "light bulb replacement" zero)
   = Some tenant_consumable) /\
  (gtb (round_int 50) zero = true /\
   category_of (get_repair_responsibility "air conditioner" (round_int 50))
   = Some landlord_maintained) /\
  (forall k, In k ["light"; "roof"; "pipe"; "circuit"; "structure"; "roof leak"] ->
     category_of (get_repair_responsibility k zero) = Some structural) /\
  category_of (get_repair_responsibility "door lock" zero) = Some undetermined.
Proof.
  cbv zeta.
  rewrite get_repair_responsibility_report, category_of_report.
  repeat split.
  - intros H. now rewrite verdict_rule1.
  - intros H1 H2. now rewrite verdict_rule2.
  - intros H1 H2 H3. rewrite verdict_rule3 by assumption.
    now destruct (leb cost f200).
  - intros H1 H2 H3 H4. apply not_true_is_false in H3.
    rewrite verdict_rule45 by assumption.
    apply structural_keyword_occurs in H4. now rewrite H4.
  - intros H1 H2 H3 H4. apply not_true_is_false in H3.
    rewrite verdict_rule45 by assumption.
    destruct (existsb _ _) eqn:E; [|reflexivity].
    exfalso. apply H4. now apply structural_keyword_occurs.
  - now exists "", "light", " bulb replacement".
  - intros k [<-|[<-|[<-|[<-|[<-|[<-|[]]]]]]]; reflexivity.
Qed.

(** C3, first rule, at "Replace the LIGHT BULB". *)
Lemma C3_witness :
  category_of (get_repair_responsibility "Replace the LIGHT BULB" (round_int 30))
  = Some tenant_consumable.
Proof.
  apply (proj1 (C3_rules_in_priority_order "Replace the LIGHT BULB" (round_int 30))).
  left. now exists "Replace the LIGHT ", "BULB", "".
Defined.

(** C4: a repair type with none of "bulb", "tube", "air conditioner" and a
    cost above zero is a cost split, structural keyword or not: up to 200
    the tenant bears the whole cost and the landlord nothing, above 200
    the tenant bears 200 and the landlord [cost - 200].  "plumbing leak"
    at 300 is split 200 to 100. *)
Theorem C4_cost_split :
  (forall (repair_type : string) (cost : float),
    ~ occurs_ci "bulb" repair_type -> ~ occurs_ci "tube" repair_type ->
    ~ occurs_ci "air conditioner" repair_type ->
    gtb cost zero = true ->
    let narrative := get_repair_responsibility repair_type cost in
    let verdict := repair_verdict repair_type cost in
    category_of narrative = Some cost_split /\
    (leb cost f200 = true ->
     split_shares cost verdict = Some (cost, zero) /\
     narrative =
       "💰 " ++ lower repair_type ++ " maintenance (S$" ++ format_2f cost ++
       "): Tenant bears full responsibility (small repair clause)") /\
    (gtb cost f200 = true ->
     split_shares cost verdict = Some (f200, sub cost f200) /\
     narrative =
       "💰 " ++ lower repair_type ++ " maintenance (S$" ++ format_2f cost ++
       "):" ++ nl ++
       "- Tenant bears: S$" ++ format_2f f200 ++ nl ++
       "- Landlord bears: S$" ++ format_2f (sub cost f200) ++ nl ++
       "⚠️ Usually, the portion exceeding S$200 is borne by the landlord.")) /\
  (split_shares (round_int 300) (repair_verdict "plumbing leak" (round_int 300))
   = Some (round_int 200, round_int 100) /\
   get_repair_responsibility "plumbing leak" (round_int 300) =
     "💰 plumbing leak maintenance (S$300.00):" ++ nl ++
     "- Tenant bears: S$200.00" ++ nl ++
     "- Landlord bears: S$100.00" ++ nl ++
     "⚠️ Usually, the portion exceeding S$200 is borne by the landlord.").
Proof.
  split; [|split; reflexivity].
  intros rt cost Hb Ht Ha Hc. cbv zeta.
  rewrite get_repair_responsibility_report, category_of_report.
  rewrite verdict_rule3 by (tauto || assumption).
  split; [now destruct (leb cost f200)|].
  split.
  - intros Hle. rewrite Hle. split; reflexivity.
  - intros Hgt. rewrite (gtb_not_leb _ _ Hgt). split; reflexivity.
Qed.

(** C4 at "Roof PIPE burst" for 120: a cost split although "roof" and
    "pipe" are structural keywords. *)
Lemma C4_witness :
  let repair_type := "Roof PIPE burst" in
  let cost := round_int 120 in
  category_of (get_repair_responsibility repair_type cost) = Some cost_split /\
  split_shares cost (repair_verdict repair_type cost) = Some (cost, zero).
Proof.
  cbv zeta.
  assert (H : forall kw, contains kw (lower "Roof PIPE burst") = false ->
                         ~ occurs_ci kw "Roof PIPE burst")
    by (intros kw E; now apply contains_lower_not_occurs).
  destruct (proj1 C4_cost_split "Roof PIPE burst" (round_int 120)
              (H "bulb" eq_refl) (H "tube" eq_refl)
              (H "air conditioner" eq_refl) eq_refl) as [Hcat [Hsmall _]].
  split; [exact Hcat | exact (proj1 (Hsmall eq_refl))].
Defined.

(** A cost above 200 and below [2^56]: a normal number with an exponent
    from -45 to 3. *)
Lemma cost_above_200 (cost : float) :
  is_float cost = true ->
  leb cost f200 = false -> gtb cost zero = true ->
  ltb cost two_pow_56 = true ->
  exists m e,
    cost = S754_finite false m e /\ bounded prec emax m e = true /\
    -45 <= e <= 3 /\ Z.log2 (Zpos m) = 52 /\
    units 7036874417766400 (-45) < units m e.
Proof.
  intros Hv Hle Hgt Hlt.
  destruct cost as [s|s| |s m e]; try discriminate Hgt.
  - destruct s; discriminate.
  - destruct s; [discriminate Hgt|].
    cbn in Hv. pose proof Hv as B. apply bounded_64 in B. destruct B as [Hc He].
    rewrite digits2_log2 in Hc.
    unfold ltb, SFltb, two_pow_56, SFcompare in Hlt.
    unfold leb, SFleb, f200, SFcompare in Hle.
    assert (He45 : -45 <= e).
    { destruct (e ?= -45) eqn:E; try discriminate Hle.
      - apply Z.compare_eq in E. lia.
      - apply Z.compare_gt_iff in E. lia. }
    assert (Hl : Z.log2 (Zpos m) = 52) by lia.
    pose proof (log2_bounds (Zpos m) ltac:(lia)) as Hm. rewrite Hl in Hm.
    assert (He3 : e <= 3).
    { destruct (e ?= 4) eqn:E; try discriminate Hlt.
      - apply Z.compare_eq in E. subst e.
        rewrite Pos.compare_cont_spec in Hlt. cbn [Pos.switch_Eq] in Hlt.
        destruct (Pos.compare_spec m 4503599627370496) as [C|C|C];
          try discriminate Hlt.
        apply Pos2Z.pos_lt_pos in C.
        change (2 ^ 52) with 4503599627370496 in Hm. clear - C Hm. lia.
      - change (e < 4) in E. lia. }
    exists m, e. repeat split; trivial; try lia.
    unfold units.
    destruct (e ?= -45) eqn:E; try discriminate Hle.
    + apply Z.compare_eq in E. subst e.
      rewrite Pos.compare_cont_spec in Hle. cbn [Pos.switch_Eq] in Hle.
      destruct (Pos.compare_spec m 7036874417766400) as [C|C|C];
        try discriminate Hle.
      apply Pos2Z.pos_lt_pos in C.
      apply Z.mul_lt_mono_pos_r; [reflexivity | clear - C; lia].
    + apply Z.compare_gt_iff in E.
      assert (P : 2 ^ (e + 1074) = 2 ^ (e + 45) * 2 ^ (-45 + 1074))
        by (rewrite <- Z.pow_add_r by lia; f_equal; lia).
      rewrite P, Z.mul_assoc.
      apply Z.mul_lt_mono_pos_r; [reflexivity|].
      assert (2 ^ 1 <= 2 ^ (e + 45)) by (apply Z.pow_le_mono_r; lia).
      change (2 ^ 52) with 4503599627370496 in Hm.
      change (2 ^ 1) with 2 in H. nia.
Qed.

(** [cost - 200.0] loses nothing. *)
Lemma sub_200_exact (m : positive) (e : Z) :
  bounded prec emax m e = true ->
  -45 <= e <= 3 -> Z.log2 (Zpos m) = 52 ->
  units 7036874417766400 (-45) < units m e ->
  exists mL eL,
    sub (S754_finite false m e) f200 = S754_finite false mL eL /\
    bounded prec emax mL eL = true /\
    units mL eL = units m e - units 7036874417766400 (-45).
Proof.
  intros B He Hl Hgt.
  unfold sub, SFsub, f200. cbv zeta.
  rewrite Z.min_r by lia. cbn [cond_Zopp].
  destruct (shl_align_units m e (-45) ltac:(lia)) as [_ HA].
  destruct (shl_align_units 7036874417766400 (-45) (-45) ltac:(lia)) as [_ HB].
  rewrite HA, HB. rewrite Z.sub_diag, Z.pow_0_r, Z.mul_1_r.
  replace (e - -45) with (e + 45) by lia.
  assert (U : units m e = Zpos m * 2 ^ (e + 45) * 2 ^ 1029).
  { unfold units. rewrite <- Z.mul_assoc, <- Z.pow_add_r by lia.
    f_equal. f_equal. lia. }
  assert (P : 0 < 2 ^ 1029) by reflexivity.
  assert (HD : 0 < Zpos m * 2 ^ (e + 45) - 7036874417766400).
  { rewrite U in Hgt. unfold units in Hgt.
    change (2 ^ (-45 + 1074)) with (2 ^ 1029) in Hgt. nia. }
  destruct (Zpos m * 2 ^ (e + 45) - 7036874417766400) as [|D|] eqn:ED; try lia.
  cbn [binary_normalize].
  pose proof (log2_bounds (Zpos m) ltac:(lia)) as Hm. rewrite Hl in Hm.
  assert (Q : 0 < 2 ^ (e + 45)) by (apply Z.pow_pos_nonneg; lia).
  assert (HlogD : Z.log2 (Zpos D) < 53 + (e + 45)).
  { apply Z.log2_lt_pow2; [lia|]. rewrite Z.pow_add_r by lia.
    change (52 + 1) with 53 in Hm. nia. }
  destruct (binary_round_representable D (-45) (e + 45)) as [mL [eL [R [BL UL]]]];
    try lia.
  - exists (Zpos m - 25 * 2 ^ (3 - e)).
    rewrite <- ED, Z.mul_sub_distr_r, <- Z.mul_assoc, <- Z.pow_add_r by lia.
    replace (3 - e + (e + 45)) with 48 by lia. reflexivity.
  - pose proof (Z.log2_nonneg (Zpos D)). lia.
  - exists mL, eL. split; [exact R|]. split; [exact BL|].
    rewrite UL, U. unfold units. rewrite <- ED.
    change (2 ^ (-45 + 1074)) with (2 ^ 1029). lia.
Qed.

(** [200.0 + (cost - 200.0)] gives the cost back. *)
Lemma add_200_exact (m mL : positive) (e eL : Z) :
  bounded prec emax m e = true -> bounded prec emax mL eL = true ->
  -45 <= e ->
  units mL eL = units m e - units 7036874417766400 (-45) ->
  add f200 (S754_finite false mL eL) = S754_finite false m e.
Proof.
  intros B BL He UL.
  pose proof BL as BL'. apply bounded_64 in BL'. destruct BL' as [HcL HeL].
  assert (HeL' : -1074 <= eL) by lia.
  unfold add, SFadd, f200. cbv zeta. cbn [cond_Zopp].
  set (ez := Z.min (-45) eL).
  assert (Hez : -1074 <= ez <= -45 /\ ez <= eL) by (unfold ez; lia).
  destruct (shl_align_units 7036874417766400 (-45) ez ltac:(lia)) as [_ HA].
  destruct (shl_align_units mL eL ez ltac:(lia)) as [_ HB].
  rewrite HA, HB.
  assert (P1 : 0 < 2 ^ (-45 - ez)) by (apply Z.pow_pos_nonneg; lia).
  assert (P2 : 0 < 2 ^ (eL - ez)) by (apply Z.pow_pos_nonneg; lia).
  destruct (7036874417766400 * 2 ^ (-45 - ez) + Zpos mL * 2 ^ (eL - ez))
    as [|S|] eqn:ES; try nia.
  cbn [binary_normalize].
  apply binary_round_exact; [exact B | lia |].
  assert (E1 : units 7036874417766400 (-45) =
               7036874417766400 * 2 ^ (-45 - ez) * 2 ^ (ez + 1074)).
  { unfold units. rewrite <- Z.mul_assoc, <- Z.pow_add_r by lia.
    f_equal. f_equal. lia. }
  assert (E2 : units mL eL = Zpos mL * 2 ^ (eL - ez) * 2 ^ (ez + 1074)).
  { unfold units. rewrite <- Z.mul_assoc, <- Z.pow_add_r by lia.
    f_equal. f_equal. lia. }
  assert (E3 : units S ez = units 7036874417766400 (-45) + units mL eL).
  { rewrite E1, E2. unfold units at 1. rewrite <- ES. lia. }
  lia.
Qed.

(** The verdicts with shares are those of the third branch. *)
Lemma verdict_shares (repair_type : string) (cost t l : float) :
  split_shares cost (repair_verdict repair_type cost) = Some (t, l) ->
  gtb cost zero = true /\
  (leb cost f200 = true /\ t = cost /\ l = zero \/
   leb cost f200 = false /\ t = f200 /\ l = sub cost f200).
Proof.
  unfold repair_verdict.
  destruct (contains "bulb" _ || contains "tube" _); [discriminate|].
  destruct (contains "air conditioner" _); [discriminate|].
  destruct (gtb cost zero).
  - destruct (leb cost f200); cbn; intros [= <- <-]; auto.
  - destruct (existsb _ _); discriminate.
Qed.

(** C5: when [get_repair_responsibility] splits a cost below [2^56]
    between tenant and landlord, the two shares add up to the cost, as
    floats and as exact values. *)
Theorem C5_shares_add_up_to_cost
    (repair_type : string) (cost tenant_share landlord_share : float) :
  is_float cost = true ->
  ltb cost two_pow_56 = true ->
  split_shares cost (repair_verdict repair_type cost)
  = Some (tenant_share, landlord_share) ->
  add tenant_share landlord_share = cost /\
  exists t l c,
    scaled tenant_share = Some t /\ scaled landlord_share = Some l /\
    scaled cost = Some c /\ t + l = c.
Proof.
  intros Hv Hlt Hs.
  destruct (verdict_shares _ _ _ _ Hs) as [Hgt [[Hle [-> ->]] | [Hle [-> ->]]]].
  - (* the tenant bears the whole cost *)
    destruct cost as [s|s| |s m e]; try discriminate Hgt.
    + destruct s; discriminate.
    + destruct s; [discriminate Hgt|].
      split; [reflexivity|].
      cbn in Hv. apply bounded_64 in Hv. destruct Hv as [Hc _].
      assert (-1074 <= e) by lia.
      exists (units m e), 0, (units m e). cbn [scaled cond_Zopp].
      replace (-1074 <=? e) with true by (symmetry; apply Z.leb_le; lia).
      unfold units. repeat split. lia.
  - (* the cost is split at 200 *)
    destruct (cost_above_200 cost Hv Hle Hgt Hlt) as [m [e [-> [B [He [Hl Hu]]]]]].
    destruct (sub_200_exact m e B He Hl Hu) as [mL [eL [-> [BL UL]]]].
    split; [apply (add_200_exact m mL e eL B BL); [lia | exact UL]|].
    pose proof BL as BL'. apply bounded_64 in BL'. destruct BL' as [HcL _].
    exists (units 7036874417766400 (-45)), (units mL eL), (units m e).
    unfold f200. cbn [scaled cond_Zopp].
    replace (-1074 <=? eL) with true by (symmetry; apply Z.leb_le; lia).
    replace (-1074 <=? e) with true by (symmetry; apply Z.leb_le; lia).
    repeat split. lia.
Qed.

(** C5 at the split of 300 into 200 and 100. *)
Lemma C5_witness :
  add (round_int 200) (round_int 100) = round_int 300 /\
  exists t l c,
    scaled (round_int 200) = Some t /\ scaled (round_int 100) = Some l /\
    scaled (round_int 300) = Some c /\ t + l = c.
Proof.
  apply (C5_shares_add_up_to_cost "plumbing leak" (round_int 300)
           (round_int 200) (round_int 100)); reflexivity.
Defined.

(** Above the bound of C5 the shares need not add up: of the cost
    [2^56 + 208] the landlord's share [cost - 200.0] is rounded to [2^56],
    and 200 plus that share is not the cost, neither as floats nor as
    exact values. *)
Lemma C5_counterexample_large_cost :
  let cost := round_int (2 ^ 56 + 208) in
  is_float cost = true /\
  scaled cost = Some ((2 ^ 56 + 208) * 2 ^ 1074) /\
  split_shares cost (repair_verdict "plumbing leak" cost)
  = Some (round_int 200, round_int (2 ^ 56)) /\
  add (round_int 200) (round_int (2 ^ 56)) <> cost /\
  scaled (round_int 200) = Some (200 * 2 ^ 1074) /\
  scaled (round_int (2 ^ 56)) = Some (2 ^ 56 * 2 ^ 1074) /\
  get_repair_responsibility "plumbing leak" cost =
    "💰 plumbing leak maintenance (S$72057594037928144.00):" ++ nl ++
    "- Tenant bears: S$200.00" ++ nl ++
    "- Landlord bears: S$72057594037927936.00" ++ nl ++
    "⚠️ Usually, the portion exceeding S$200 is borne by the landlord.".
Proof.
  cbv zeta. repeat split; try (vm_compute; reflexivity).
  vm_compute. discriminate.
Qed.

(** C10: for a repair type with "bulb" or "tube", and for one with "air
    conditioner" and neither of them, the narrative is a text built from
    the repair type alone: two calls that differ in the cost return the
    same narrative. *)
Theorem C10_cost_is_ignored (repair_type : string) (cost1 cost2 : float) :
  (occurs_ci "bulb" repair_type \/ occurs_ci "tube" repair_type ->
   get_repair_responsibility repair_type cost1 =
   get_repair_responsibility repair_type cost2 /\
   get_repair_responsibility repair_type cost1 =
     "💡 " ++ lower repair_type ++ " maintenance responsibility: Tenant bears (needs to be replaced by themselves, cost borne by themselves)") /\
  (~ (occurs_ci "bulb" repair_type \/ occurs_ci "tube" repair_type) ->
   occurs_ci "air conditioner" repair_type ->
   get_repair_responsibility repair_type cost1 =
   get_repair_responsibility repair_type cost2 /\
   get_repair_responsibility repair_type cost1 =
     "❄️ " ++ lower repair_type ++ " maintenance responsibility:" ++ nl ++
     "- Regular maintenance (every 3 months): Landlord bears" ++ nl ++
     "- Normal wear and tear (non-human causes): Landlord bears" ++ nl ++
     "- Damage caused by improper use: Tenant bears" ++ nl ++
     "⚠️ Subject to specific contract terms.").
Proof.
  rewrite !get_repair_responsibility_report. split.
  - intros H. now rewrite !verdict_rule1.
  - intros H1 H2. now rewrite !verdict_rule2.
Qed.

(** C10 at "Air Conditioner leaking" for 50 and for 5000. *)
Lemma C10_witness :
  get_repair_responsibility "Air Conditioner leaking" (round_int 50) =
  get_repair_responsibility "Air Conditioner leaking" (round_int 5000).
Proof.
  refine (proj1 (proj2 (C10_cost_is_ignored "Air Conditioner leaking"
                          (round_int 50) (round_int 5000)) _ _)).
  - intros H. apply bulb_or_tube in H. discriminate H.
  - now exists "", "Air Conditioner", " leaking".
Defined.

(** * Further properties *)

Import Written.

(** ** Whole amounts

    The floats of the integers below [2^53] and their products, their
    differences and their prints, which lose nothing. *)

(** A mantissa that ends in zeros down to its canonical exponent comes
    out of the rounding step without them. *)
Lemma binary_round_aux_zeros (s : bool) (M m : positive) (E e : Z) :
  bounded prec emax m e = true ->
  E <= e -> Zpos M = Zpos m * 2 ^ (e - E) ->
  binary_round_aux prec emax s (Zpos M) E loc_Exact = S754_finite s m e.
Proof.
  intros B Hle HM. pose proof B as B'. apply bounded_64 in B'.
  destruct B' as [Hc He].
  pose proof (digits2_shift m M (e - E) ltac:(lia) HM) as HD.
  destruct (e - E) as [|k|k] eqn:Ek; try lia.
  - assert (E = e) by lia. subst E.
    assert (M = m) by (rewrite Z.pow_0_r in HM; lia). subst M.
    now apply binary_round_aux_canonical.
  - assert (S : iter_pos shr_1 k (exact_record (Zpos M)) = exact_record (Zpos m)).
    { rewrite iter_pos_nat, HM, <- (positive_nat_Z k). apply shr_zeros. lia. }
    unfold binary_round_aux, shr_fexp.
    cbn [Zdigits2 shr_record_of_loc]. rewrite fexp_64.
    replace (Z.max (Zpos (digits2_pos M) + E - 53) (-1074) - E) with (Zpos k) by lia.
    cbn [shr]. fold (exact_record (Zpos M)). rewrite S.
    cbn [exact_record shr_m loc_of_shr_record round_nearest_even shr_r shr_s].
    cbn [Zdigits2 shr_record_of_loc]. rewrite fexp_64.
    replace (E + Zpos k) with e by lia.
    rewrite Hc, Z.sub_diag. cbn [shr shr_m].
    replace (e <=? emax - prec) with true; [reflexivity|].
    symmetry. apply Z.leb_le. exact He.
Qed.

(** The float of an integer of at most 53 bits: its bits, moved up to
    53. *)
Lemma round_int_shape (n : Z) :
  0 < n < 2 ^ 53 ->
  exists m,
    round_int n = S754_finite false m (Z.log2 n - 52) /\
    bounded prec emax m (Z.log2 n - 52) = true /\
    Zpos m = n * 2 ^ (52 - Z.log2 n).
Proof.
  intros Hn.
  assert (Hl : 0 <= Z.log2 n < 53).
  { split; [apply Z.log2_nonneg | apply Z.log2_lt_pow2; lia]. }
  assert (Hp : 0 < n * 2 ^ (52 - Z.log2 n)).
  { apply Z.mul_pos_pos; [lia | apply Z.pow_pos_nonneg; lia]. }
  destruct (n * 2 ^ (52 - Z.log2 n)) as [|m|] eqn:Em; try lia.
  exists m.
  assert (B : bounded prec emax m (Z.log2 n - 52) = true).
  { apply bounded_64. rewrite digits2_log2, <- Em.
    rewrite Z.log2_mul_pow2 by lia. lia. }
  split; [|split; [exact B | reflexivity]].
  destruct n as [|p|p]; try lia. unfold round_int. cbn [binary_normalize].
  apply binary_round_exact; [exact B | lia |].
  unfold units. rewrite <- Em, <- Z.mul_assoc, <- Z.pow_add_r by lia.
  f_equal. f_equal. lia.
Qed.

Lemma of_int_whole (n : Z) : 0 <= n < 2 ^ 53 -> of_int n = Ok (round_int n).
Proof.
  intros Hn. destruct (Z.eq_dec n 0) as [->|Hz]; [reflexivity|].
  destruct (round_int_shape n ltac:(lia)) as [m [E _]].
  unfold of_int. now rewrite E.
Qed.

(** The product of two whole floats is whole, when it has at most 53
    bits. *)
Lemma mul_round_int (a b : Z) :
  0 <= a < 2 ^ 53 -> 0 <= b < 2 ^ 53 -> a * b < 2 ^ 53 ->
  mul (round_int a) (round_int b) = round_int (a * b).
Proof.
  intros Ha Hb Hab.
  destruct (Z.eq_dec a 0) as [->|Za].
  { rewrite Z.mul_0_l. destruct (Z.eq_dec b 0) as [->|Zb]; [reflexivity|].
    destruct (round_int_shape b ltac:(lia)) as [mb [-> _]]. reflexivity. }
  destruct (round_int_shape a ltac:(lia)) as [ma [Ea [_ Ma]]].
  destruct (Z.eq_dec b 0) as [->|Zb].
  { rewrite Z.mul_0_r, Ea. reflexivity. }
  destruct (round_int_shape b ltac:(lia)) as [mb [Eb [_ Mb]]].
  assert (Hp : 0 < a * b) by nia.
  destruct (round_int_shape (a * b) ltac:(lia)) as [mp [Ep [Bp Mp]]].
  rewrite Ea, Eb, Ep. unfold mul, SFmul. cbn [xorb].
  pose proof (Z.log2_nonneg a). pose proof (Z.log2_nonneg b).
  assert (La : Z.log2 a < 53) by (apply Z.log2_lt_pow2; lia).
  assert (Lb : Z.log2 b < 53) by (apply Z.log2_lt_pow2; lia).
  assert (Lp : Z.log2 (a * b) < 53) by (apply Z.log2_lt_pow2; lia).
  pose proof (Z.log2_mul_below a b ltac:(lia) ltac:(lia)) as Lm.
  apply binary_round_aux_zeros; [exact Bp | lia |].
  rewrite Pos2Z.inj_mul, Ma, Mb, Mp.
  replace (Z.log2 (a * b) - 52 - (Z.log2 a - 52 + (Z.log2 b - 52)))
    with ((52 - Z.log2 a) + (52 - Z.log2 b) - (52 - Z.log2 (a * b))) by lia.
  set (x := 52 - Z.log2 a) in *. set (y := 52 - Z.log2 b) in *.
  set (z := 52 - Z.log2 (a * b)) in *.
  replace (a * b * 2 ^ z * 2 ^ (x + y - z)) with (a * b * (2 ^ z * 2 ^ (x + y - z)))
    by ring.
  rewrite <- Z.pow_add_r by lia.
  replace (z + (x + y - z)) with (x + y) by lia.
  rewrite Z.pow_add_r by lia. ring.
Qed.

(** The difference of two floats whose values differ by the value of a
    third is that third, with the sign of the difference. *)
Lemma sub_exact (mx my m : positive) (ex ey e : Z) (s : bool) :
  bounded prec emax mx ex = true -> bounded prec emax my ey = true ->
  bounded prec emax m e = true ->
  units mx ex - units my ey = cond_Zopp s (units m e) ->
  sub (S754_finite false mx ex) (S754_finite false my ey) = S754_finite s m e.
Proof.
  intros Bx By B U.
  pose proof Bx as Bx'. apply bounded_64 in Bx'. destruct Bx' as [Hcx Hex].
  pose proof By as By'. apply bounded_64 in By'. destruct By' as [Hcy Hey].
  pose proof B as B'. apply bounded_64 in B'. destruct B' as [Hc He].
  unfold sub, SFsub. cbv zeta. cbn [cond_Zopp].
  set (ez := Z.min ex ey).
  assert (Hez : -1074 <= ez /\ ez <= ex /\ ez <= ey) by (unfold ez; lia).
  destruct (shl_align_units mx ex ez ltac:(lia)) as [_ HA].
  destruct (shl_align_units my ey ez ltac:(lia)) as [_ HB].
  rewrite HA, HB.
  assert (E1 : units mx ex = Zpos mx * 2 ^ (ex - ez) * 2 ^ (ez + 1074)).
  { unfold units. rewrite <- Z.mul_assoc, <- Z.pow_add_r by lia.
    f_equal. f_equal. lia. }
  assert (E2 : units my ey = Zpos my * 2 ^ (ey - ez) * 2 ^ (ez + 1074)).
  { unfold units. rewrite <- Z.mul_assoc, <- Z.pow_add_r by lia.
    f_equal. f_equal. lia. }
  assert (P : 0 < 2 ^ (ez + 1074)) by (apply Z.pow_pos_nonneg; lia).
  assert (Pm : 0 < units m e).
  { unfold units. apply Z.mul_pos_pos; [lia | apply Z.pow_pos_nonneg; lia]. }
  rewrite E1, E2, <- Z.mul_sub_distr_r in U.
  destruct (Zpos mx * 2 ^ (ex - ez) - Zpos my * 2 ^ (ey - ez)) as [|D|D] eqn:ED.
  - destruct s; cbn [cond_Zopp] in U; lia.
  - cbn [binary_normalize]. destruct s; cbn [cond_Zopp] in U; [nia|].
    apply binary_round_exact; [exact B | lia |]. unfold units at 1. exact U.
  - cbn [binary_normalize]. destruct s; cbn [cond_Zopp] in U; [|nia].
    apply binary_round_exact; [exact B | lia |]. unfold units at 1.
    rewrite <- Pos2Z.opp_pos in U. lia.
Qed.

(** [max(0.0, x - y)] of two whole floats is the whole float of the
    difference, or of zero when [y] is the larger. *)
Lemma max_sub_round_int (a b : Z) :
  0 <= a < 2 ^ 53 -> 0 <= b < 2 ^ 53 ->
  max zero (sub (round_int a) (round_int b)) = round_int (Z.max 0 (a - b)).
Proof.
  intros Ha Hb.
  destruct (Z.eq_dec b 0) as [->|Zb].
  { rewrite Z.sub_0_r, Z.max_r by lia.
    destruct (Z.eq_dec a 0) as [->|Za]; [reflexivity|].
    destruct (round_int_shape a ltac:(lia)) as [ma [-> _]]. reflexivity. }
  destruct (round_int_shape b ltac:(lia)) as [mb [Eb [Bb Mb]]].
  destruct (Z.eq_dec a 0) as [->|Za].
  { rewrite Z.max_l by lia. rewrite Eb. reflexivity. }
  destruct (round_int_shape a ltac:(lia)) as [ma [Ea [Ba Ma]]].
  pose proof (Z.log2_nonneg a). pose proof (Z.log2_nonneg b).
  assert (La : Z.log2 a < 53) by (apply Z.log2_lt_pow2; lia).
  assert (Lb : Z.log2 b < 53) by (apply Z.log2_lt_pow2; lia).
  assert (Ua : units ma (Z.log2 a - 52) = a * 2 ^ 1074).
  { unfold units. rewrite Ma, <- Z.mul_assoc, <- Z.pow_add_r by lia.
    f_equal. f_equal. lia. }
  assert (Ub : units mb (Z.log2 b - 52) = b * 2 ^ 1074).
  { unfold units. rewrite Mb, <- Z.mul_assoc, <- Z.pow_add_r by lia.
    f_equal. f_equal. lia. }
  rewrite Ea, Eb.
  destruct (Z.lt_trichotomy a b) as [L|[->|G]].
  - (* the difference is negative *)
    rewrite Z.max_l by lia.
    destruct (round_int_shape (b - a) ltac:(lia)) as [md [Ed [Bd Md]]].
    pose proof (Z.log2_nonneg (b - a)).
    assert (Ld : Z.log2 (b - a) < 53) by (apply Z.log2_lt_pow2; lia).
    rewrite (sub_exact ma mb md _ _ (Z.log2 (b - a) - 52) true Ba Bb Bd).
    + reflexivity.
    + cbn [cond_Zopp]. rewrite Ua, Ub. unfold units.
      rewrite Md, <- Z.mul_assoc, <- Z.pow_add_r by lia.
      replace (52 - Z.log2 (b - a) + (Z.log2 (b - a) - 52 + 1074)) with 1074 by lia.
      lia.
  - (* the two are equal *)
    rewrite Z.sub_diag, Z.max_l by lia.
    assert (mb = ma) by (apply Pos2Z.inj; congruence). subst mb.
    unfold sub, SFsub. cbv zeta. rewrite Z.min_id.
    cbn [cond_Zopp]. rewrite Z.sub_diag. reflexivity.
  - (* the difference is positive *)
    rewrite Z.max_r by lia.
    destruct (round_int_shape (a - b) ltac:(lia)) as [md [Ed [Bd Md]]].
    pose proof (Z.log2_nonneg (a - b)).
    assert (Ld : Z.log2 (a - b) < 53) by (apply Z.log2_lt_pow2; lia).
    rewrite (sub_exact ma mb md _ _ (Z.log2 (a - b) - 52) false Ba Bb Bd).
    + rewrite Ed. reflexivity.
    + cbn [cond_Zopp]. rewrite Ua, Ub. unfold units.
      rewrite Md, <- Z.mul_assoc, <- Z.pow_add_r by lia.
      replace (52 - Z.log2 (a - b) + (Z.log2 (a - b) - 52 + 1074)) with 1074 by lia.
      lia.
Qed.

(** A whole float prints as its integer and two zeros. *)
Lemma format_2f_round_int (v : Z) :
  0 <= v < 2 ^ 53 -> format_2f (round_int v) = str_int v ++ ".00".
Proof.
  intros Hv. destruct (Z.eq_dec v 0) as [->|Zv]; [reflexivity|].
  destruct (round_int_shape v ltac:(lia)) as [m [-> [_ Mv]]].
  pose proof (Z.log2_nonneg v).
  assert (Lv : Z.log2 v < 53) by (apply Z.log2_lt_pow2; lia).
  unfold format_2f, fixed2. cbn [append].
  assert (Hh : hundredths m (Z.log2 v - 52) = v * 100).
  { unfold hundredths. destruct (Z.log2 v - 52) as [|k|k] eqn:Ek; try lia.
    - replace (52 - Z.log2 v) with 0 in Mv by lia.
      rewrite Mv, Z.pow_0_r. lia.
    - cbv zeta. change (Z.pow_pos 2 k) with (2 ^ Zpos k).
      replace (52 - Z.log2 v) with (Zpos k) in Mv by lia.
      assert (P : 0 < 2 ^ Zpos k) by (apply Z.pow_pos_nonneg; lia).
      replace (Zpos m * 100) with (v * 100 * 2 ^ Zpos k) by (rewrite Mv; ring).
      rewrite Z.div_mul, Z.mod_mul by lia.
      replace (2 ^ Zpos k <? 2 * 0) with false
        by (symmetry; apply Z.ltb_ge; lia).
      replace (2 ^ Zpos k =? 2 * 0) with false
        by (symmetry; apply Z.eqb_neq; lia).
      reflexivity. }
  rewrite Hh, Z.div_mul, Z.mod_mul by lia. reflexivity.
Qed.

(** ** More of [calculate_rent] *)

(** X1: for a rent and a deposit in whole dollars, the amounts of
    [calculate_rent] are exact as long as each has at most 53 bits: the
    total is the rent times the months, the penalty the rent times the
    months of notice, and the refundable deposit the deposit less the
    penalty, or zero when the penalty is the larger. *)
Theorem X1_whole_amounts_are_exact
    (rent months dep notice : Z) (early : bool) :
  0 <= rent < 2 ^ 53 -> 0 <= dep < 2 ^ 53 ->
  0 <= months < 2 ^ 53 -> rent * months < 2 ^ 53 ->
  0 <= notice < 2 ^ 53 -> rent * notice < 2 ^ 53 ->
  rent_amounts (round_int rent) months (round_int dep) early notice =
  Ok {| total_rent := round_int (rent * months);
        penalty := if early then Some (round_int (rent * notice)) else None;
        refundable_deposit :=
          if early then round_int (Z.max 0 (dep - rent * notice))
          else round_int dep |}.
Proof.
  intros Hr Hd Hm Hrm Hn Hrn.
  unfold rent_amounts, mul_int, bind.
  rewrite (of_int_whole months Hm), (mul_round_int rent months Hr Hm Hrm).
  destruct early; [|reflexivity].
  rewrite (of_int_whole notice Hn), (mul_round_int rent notice Hr Hn Hrn).
  rewrite (max_sub_round_int dep (rent * notice) Hd) by nia.
  reflexivity.
Qed.

Lemma X1_witness :
  rent_amounts (round_int 1500) 12 (round_int 2000) true 2 =
  Ok {| total_rent := round_int (1500 * 12);
        penalty := Some (round_int (1500 * 2));
        refundable_deposit := round_int (Z.max 0 (2000 - 1500 * 2)) |}.
Proof.
  apply (X1_whole_amounts_are_exact 1500 12 2000 2 true); lia.
Defined.

(** X2: for a rent and a deposit in whole dollars, with amounts of at
    most 53 bits, the narrative prints every amount as its integer
    followed by [.00]; with early termination it shows the penalty and
    what is left of the deposit, [0.00] when the penalty is as large as
    the deposit or larger. *)
Theorem X2_whole_amounts_are_printed
    (rent months dep notice : Z) (early : bool) :
  0 <= rent < 2 ^ 53 -> 0 <= dep < 2 ^ 53 ->
  0 <= months < 2 ^ 53 -> rent * months < 2 ^ 53 ->
  0 <= notice < 2 ^ 53 -> rent * notice < 2 ^ 53 ->
  calculate_rent (round_int rent) months (round_int dep) early notice =
  Ok (if early then
        "🏠 Rent Calculation Result:" ++ nl ++
        "- Monthly Rent: S$" ++ str_int rent ++ ".00" ++ nl ++
        "- Actual Stay Duration: " ++ str_int months ++ " months" ++ nl ++
        "- Total Rent Payable: S$" ++ str_int (rent * months) ++ ".00" ++ nl ++
        "- Early Termination Penalty (Notice Period: " ++
          str_int notice ++ " months): S$" ++
          str_int (rent * notice) ++ ".00" ++ nl ++
        "- Deposit Paid: S$" ++ str_int dep ++ ".00" ++ nl ++
        "- Refundable Deposit: S$" ++
          str_int (Z.max 0 (dep - rent * notice)) ++ ".00" ++ nl ++
        "⚠️ Note: The penalty calculation is based on common rental contract terms and is subject to your specific contract."
      else
        "🏠 Rent Calculation Result:" ++ nl ++
        "- Monthly Rent: S$" ++ str_int rent ++ ".00" ++ nl ++
        "- Actual Stay Duration: " ++ str_int months ++ " months" ++ nl ++
        "- Total Rent Payable: S$" ++ str_int (rent * months) ++ ".00" ++ nl ++
        "- Deposit Paid: S$" ++ str_int dep ++ ".00" ++ nl ++
        "- Refundable Deposit (No Damage): S$" ++ str_int dep ++ ".00").
Proof.
  intros Hr Hd Hm Hrm Hn Hrn.
  unfold calculate_rent, mul_int, bind.
  rewrite (of_int_whole months Hm), (mul_round_int rent months Hr Hm Hrm).
  destruct early.
  - rewrite (of_int_whole notice Hn), (mul_round_int rent notice Hr Hn Hrn).
    rewrite (max_sub_round_int dep (rent * notice) Hd) by nia.
    rewrite !format_2f_round_int by nia.
    now rewrite !append_assoc.
  - rewrite !format_2f_round_int by nia.
    now rewrite !append_assoc.
Qed.

Lemma X2_witness :
  calculate_rent (round_int 1500) 12 (round_int 2000) true 2 =
  Ok ("🏠 Rent Calculation Result:" ++ nl ++
      "- Monthly Rent: S$" ++ str_int 1500 ++ ".00" ++ nl ++
      "- Actual Stay Duration: " ++ str_int 12 ++ " months" ++ nl ++
      "- Total Rent Payable: S$" ++ str_int (1500 * 12) ++ ".00" ++ nl ++
      "- Early Termination Penalty (Notice Period: " ++
        str_int 2 ++ " months): S$" ++
        str_int (1500 * 2) ++ ".00" ++ nl ++
      "- Deposit Paid: S$" ++ str_int 2000 ++ ".00" ++ nl ++
      "- Refundable Deposit: S$" ++
        str_int (Z.max 0 (2000 - 1500 * 2)) ++ ".00" ++ nl ++
      "⚠️ Note: The penalty calculation is based on common rental contract terms and is subject to your specific contract.").
Proof.
  apply (X2_whole_amounts_are_printed 1500 12 2000 2 true); lia.
Defined.

(** ** The texts [strptime] takes *)

(** A character within a range is one of the characters of the range. *)
Lemma in_range_In (lo hi c : ascii) :
  in_range lo hi c = true ->
  In c (map ascii_of_nat
          (seq (nat_of_ascii lo) (S (nat_of_ascii hi) - nat_of_ascii lo))).
Proof.
  unfold in_range. rewrite andb_true_iff, !Nat.leb_le. intros [H1 H2].
  apply in_map_iff. exists (nat_of_ascii c). split.
  - apply ascii_nat_embedding.
  - apply in_seq. lia.
Qed.

Ltac range_cases H :=
  apply in_range_In in H; vm_compute in H;
  repeat (destruct H as [H|H]; [symmetry in H; subst|]); try contradiction.

Lemma is_digit_In (c : ascii) : is_digit c = true -> In c digits.
Proof. intros H. range_cases H; vm_compute; tauto. Qed.

Lemma orelse_some {A : Type} (x y : option A) (r : A) :
  orelse x y = Some r -> x = Some r \/ y = Some r.
Proof. destruct x; cbn; auto. Qed.

Lemma re_two_some {A : Type} (lo1 hi1 lo2 hi2 : ascii) (s : string)
    (k : string -> string -> option A) (r : A) :
  re_two lo1 hi1 lo2 hi2 s k = Some r ->
  exists a b rest,
    s = String a (String b rest) /\
    in_range lo1 hi1 a = true /\ in_range lo2 hi2 b = true /\
    k (String a (String b "")) rest = Some r.
Proof.
  unfold re_two. destruct s as [|a [|b rest]]; try discriminate.
  destruct (in_range lo1 hi1 a) eqn:Ha; [|discriminate].
  destruct (in_range lo2 hi2 b) eqn:Hb; [|discriminate].
  cbn [andb]. intros H. now exists a, b, rest.
Qed.

Lemma re_one_some {A : Type} (lo hi : ascii) (s : string)
    (k : string -> string -> option A) (r : A) :
  re_one lo hi s k = Some r ->
  exists a rest,
    s = String a rest /\ in_range lo hi a = true /\
    k (String a "") rest = Some r.
Proof.
  unfold re_one. destruct s as [|a rest]; try discriminate.
  destruct (in_range lo hi a) eqn:Ha; [|discriminate].
  intros H. now exists a, rest.
Qed.

Lemma re_chr_some {A : Type} (x : ascii) (s : string)
    (k : string -> option A) (r : A) :
  re_chr x s k = Some r -> exists rest, s = String x rest /\ k rest = Some r.
Proof.
  unfold re_chr. destruct s as [|a rest]; try discriminate.
  destruct (Ascii.eqb a x) eqn:E; [|discriminate].
  apply Ascii.eqb_eq in E. subst. intros H. now exists rest.
Qed.

Ltac group_found H rest :=
  eexists; exists rest; split; [|split]; [ | | exact H];
  [vm_compute; tauto | reflexivity].

Ltac two_chars H :=
  let a := fresh "a" in let b := fresh "b" in let rest := fresh "rest" in
  let Ha := fresh "Ha" in let Hb := fresh "Hb" in
  apply re_two_some in H; destruct H as [a [b [rest [-> [Ha [Hb H]]]]]];
  range_cases Ha; range_cases Hb;
  group_found H rest.

Ltac one_char H :=
  let a := fresh "a" in let rest := fresh "rest" in
  let Ha := fresh "Ha" in
  apply re_one_some in H; destruct H as [a [rest [-> [Ha H]]]];
  range_cases Ha;
  group_found H rest.

(** What the group [m] of the pattern takes. *)
Lemma re_m_some {A : Type} (s : string) (k : string -> string -> option A)
    (r : A) :
  re_m s k = Some r ->
  exists g rest, In g m_groups /\ s = g ++ rest /\ k g rest = Some r.
Proof.
  unfold re_m. intros H.
  apply orelse_some in H. destruct H as [H|H]; [two_chars H|].
  apply orelse_some in H. destruct H as [H|H]; [two_chars H|].
  one_char H.
Qed.

(** What the group [d] of the pattern takes. *)
Lemma re_d_some {A : Type} (s : string) (k : string -> string -> option A)
    (r : A) :
  re_d s k = Some r ->
  exists g rest,
    In g (d_groups2 ++ d_groups1) /\ s = g ++ rest /\ k g rest = Some r.
Proof.
  unfold re_d. intros H.
  apply orelse_some in H. destruct H as [H|H]; [two_chars H|].
  apply orelse_some in H. destruct H as [H|H]; [two_chars H|].
  apply orelse_some in H. destruct H as [H|H]; [two_chars H|].
  apply orelse_some in H. destruct H as [H|H]; [one_char H|].
  two_chars H.
Qed.

(** A match is four digits, a month and a day, with hyphens between them,
    and what follows. *)
Lemma match_ymd_some (s Y m d rest : string) :
  match_ymd s = Some (Y, m, d, rest) ->
  (exists a b c d0,
     Y = String a (String b (String c (String d0 ""))) /\
     is_digit a = true /\ is_digit b = true /\
     is_digit c = true /\ is_digit d0 = true) /\
  In m m_groups /\ In d (d_groups2 ++ d_groups1) /\
  s = Y ++ "-" ++ m ++ "-" ++ d ++ rest.
Proof.
  unfold match_ymd, re_Y.
  destruct s as [|a [|b [|c [|d0 s1]]]]; try discriminate.
  destruct (is_digit a) eqn:Ha; [|discriminate].
  destruct (is_digit b) eqn:Hb; [|discriminate].
  destruct (is_digit c) eqn:Hc; [|discriminate].
  destruct (is_digit d0) eqn:Hd; [|discriminate].
  cbn [andb]. intros H.
  apply re_chr_some in H. destruct H as [s2 [-> H]].
  apply re_m_some in H. destruct H as [gm [s3 [Hm [-> H]]]].
  apply re_chr_some in H. destruct H as [s4 [E3 H]].
  apply re_d_some in H. destruct H as [gd [s5 [Hgd [-> H]]]].
  injection H as <- <- <- <-. subst s3.
  split; [now exists a, b, c, d0|].
  split; [exact Hm|]. split; [exact Hgd|]. reflexivity.
Qed.

(** The pattern finds a month and a day where they are written. *)
Ltac group_written Hk :=
  cbv [re_m re_d re_two re_one in_range append]; cbn;
  rewrite ?Hk; reflexivity.

Lemma re_m_written {A : Type} (g tail : string)
    (k : string -> string -> option A) (r : A) :
  In g m_groups ->
  k g (String "-" tail) = Some r -> re_m (g ++ String "-" tail) k = Some r.
Proof.
  intros Hg Hk. unfold m_groups in Hg. cbn [In] in Hg.
  repeat (destruct Hg as [Hg|Hg]; [subst g; group_written Hk|]).
  contradiction.
Qed.

Lemma re_d_written2 {A : Type} (g rest : string)
    (k : string -> string -> option A) (r : A) :
  In g d_groups2 ->
  k g rest = Some r -> re_d (g ++ rest) k = Some r.
Proof.
  intros Hg Hk. unfold d_groups2 in Hg. cbn [In] in Hg.
  repeat (destruct Hg as [Hg|Hg]; [subst g; group_written Hk|]).
  contradiction.
Qed.

Lemma re_d_written1 {A : Type} (g : string)
    (k : string -> string -> option A) (r : A) :
  In g d_groups1 ->
  k g "" = Some r -> re_d g k = Some r.
Proof.
  intros Hg Hk. unfold d_groups1 in Hg. cbn [In] in Hg.
  repeat (destruct Hg as [Hg|Hg]; [subst g; group_written Hk|]).
  contradiction.
Qed.

Lemma match_ymd_written2 (a b c d : ascii) (gm gd rest : string) :
  is_digit a && is_digit b && is_digit c && is_digit d = true ->
  In gm m_groups -> In gd d_groups2 ->
  match_ymd (String a (String b (String c (String d
               (String "-" (gm ++ String "-" (gd ++ rest))))))) =
  Some (String a (String b (String c (String d ""))), gm, gd, rest).
Proof.
  intros Hy Hm Hd. unfold match_ymd, re_Y. rewrite Hy.
  cbn [re_chr Ascii.eqb Bool.eqb]. apply re_m_written; [exact Hm|].
  cbn [re_chr Ascii.eqb Bool.eqb]. apply re_d_written2; [exact Hd|].
  reflexivity.
Qed.

Lemma match_ymd_written1 (a b c d : ascii) (gm gd : string) :
  is_digit a && is_digit b && is_digit c && is_digit d = true ->
  In gm m_groups -> In gd d_groups1 ->
  match_ymd (String a (String b (String c (String d
               (String "-" (gm ++ String "-" gd)))))) =
  Some (String a (String b (String c (String d ""))), gm, gd, "").
Proof.
  intros Hy Hm Hd. unfold match_ymd, re_Y. rewrite Hy.
  cbn [re_chr Ascii.eqb Bool.eqb]. apply re_m_written; [exact Hm|].
  cbn [re_chr Ascii.eqb Bool.eqb]. apply re_d_written1; [exact Hd|].
  reflexivity.
Qed.

(** The numbers the groups stand for. *)
Lemma years_read (a b c d : ascii) :
  In a digits -> In b digits -> In c digits -> In d digits ->
  year_read a b c d = true.
Proof.
  intros Ha Hb Hc Hd.
  assert (H : forallb (fun a => forallb (fun b => forallb (fun c =>
                forallb (fun d => year_read a b c d)
                  ["0"; "1"; "2"; "3"; "4"; "5"; "6"; "7"; "8"; "9"]%char)
                  ["0"; "1"; "2"; "3"; "4"; "5"; "6"; "7"; "8"; "9"]%char)
                  ["0"; "1"; "2"; "3"; "4"; "5"; "6"; "7"; "8"; "9"]%char)
                  ["0"; "1"; "2"; "3"; "4"; "5"; "6"; "7"; "8"; "9"]%char
              = true) by (vm_compute; reflexivity).
  pose proof (proj1 (forallb_forall _ _) H a Ha) as H1. cbv beta in H1.
  pose proof (proj1 (forallb_forall _ _) H1 b Hb) as H2. cbv beta in H2.
  pose proof (proj1 (forallb_forall _ _) H2 c Hc) as H3. cbv beta in H3.
  exact (proj1 (forallb_forall _ _) H3 d Hd).
Qed.

Lemma groups_read :
  forallb month_read m_groups = true /\
  forallb day_read (d_groups2 ++ d_groups1) = true.
Proof. vm_compute. auto. Qed.

Lemma year_group_written (a b c d : ascii) :
  is_digit a = true -> is_digit b = true ->
  is_digit c = true -> is_digit d = true ->
  let Y := String a (String b (String c (String d ""))) in
  pad4 (int_group 0 Y) = Y.
Proof.
  intros Ha Hb Hc Hd Y.
  pose proof (years_read a b c d (is_digit_In a Ha) (is_digit_In b Hb)
                (is_digit_In c Hc) (is_digit_In d Hd)) as H.
  unfold year_read in H. apply String.eqb_eq in H. exact H.
Qed.

Lemma digit_value (c : ascii) :
  is_digit c = true -> 0 <= Z.of_nat (nat_of_ascii c) - 48 <= 9.
Proof.
  unfold is_digit, in_range. rewrite andb_true_iff, !Nat.leb_le.
  change (nat_of_ascii "0") with 48%nat.
  change (nat_of_ascii "9") with 57%nat. lia.
Qed.

Lemma year_group_bounds (a b c d : ascii) :
  is_digit a = true -> is_digit b = true ->
  is_digit c = true -> is_digit d = true ->
  0 <= int_group 0 (String a (String b (String c (String d "")))) <= 9999.
Proof.
  intros Ha Hb Hc Hd. cbn [int_group]. rewrite Ha, Hb, Hc, Hd.
  apply digit_value in Ha, Hb, Hc, Hd. lia.
Qed.

Lemma month_group_read (g : string) :
  In g m_groups ->
  1 <= int_group 0 g <= 12 /\ In g (month_texts (int_group 0 g)).
Proof.
  intros Hg. destruct groups_read as [H _].
  rewrite forallb_forall in H. specialize (H g Hg).
  unfold month_read in H. rewrite !andb_true_iff, !Z.leb_le in H.
  destruct H as [[H1 H2] H3]. split; [lia|].
  apply existsb_exists in H3. destruct H3 as [x [Hx E]].
  apply String.eqb_eq in E. now subst x.
Qed.

Lemma day_group_read (g : string) :
  In g (d_groups2 ++ d_groups1) ->
  1 <= int_group 0 g <= 31 /\ In g (day_texts (int_group 0 g)).
Proof.
  intros Hg. destruct groups_read as [_ H].
  rewrite forallb_forall in H. specialize (H g Hg).
  unfold day_read in H. rewrite !andb_true_iff, !Z.leb_le in H.
  destruct H as [[H1 H2] H3]. split; [lia|].
  apply existsb_exists in H3. destruct H3 as [x [Hx E]].
  apply String.eqb_eq in E. now subst x.
Qed.

(** The ways to write a month and a day are texts of the pattern, and
    stand for the month and the day. *)
Lemma month_texts_groups (m : Z) (g : string) :
  1 <= m <= 12 -> In g (month_texts m) ->
  In g m_groups /\ int_group 0 g = m /\ ascii_text g = true.
Proof.
  intros Hm Hg. each_month Hm; vm_compute in Hg;
    repeat (destruct Hg as [Hg|Hg]; [subst g; vm_compute; tauto|]);
    contradiction.
Qed.

Lemma day_texts_groups (d : Z) (g : string) :
  1 <= d <= 31 -> In g (day_texts d) ->
  (In g d_groups2 \/ In g d_groups1) /\ int_group 0 g = d /\
  ascii_text g = true.
Proof.
  intros Hd Hg.
  destruct (day_cases d Hd) as
      [?|[?|[?|[?|[?|[?|[?|[?|[?|[?|[?|[?|[?|[?|[?|[?|[?|[?|[?|[?|[?|[?|[?|[?|
       [?|[?|[?|[?|[?|[?|?]]]]]]]]]]]]]]]]]]]]]]]]]]]]]];
    subst d; vm_compute in Hg;
    repeat (destruct Hg as [Hg|Hg]; [subst g; vm_compute; tauto|]);
    contradiction.
Qed.

Lemma ascii_text_app (a b : string) :
  ascii_text (a ++ b) = ascii_text a && ascii_text b.
Proof. apply all_chars_app. Qed.

Lemma day_of_month_bound (y m d : Z) :
  1 <= m <= 12 -> d <= days_in_month y m -> d <= 31.
Proof.
  intros Hm Hd. unfold days_in_month in Hd.
  each_month Hm; destruct (is_leap y); lookup; lia.
Qed.

(** The four digits of a year from 1 to 9999. *)
Lemma year_digits (y : Z) :
  1 <= y <= 9999 ->
  exists a b c d,
    pad4 y = String a (String b (String c (String d ""))) /\
    is_digit a && is_digit b && is_digit c && is_digit d = true /\
    int_group 0 (pad4 y) = y.
Proof.
  intros Hy.
  assert (W : year_written y = true).
  { apply (holds_from_spec _ _ _ years_written). rewrite Z2Nat.id; lia. }
  unfold year_written in W.
  destruct (pad4 y) as [|a [|b [|c [|d0 [|]]]]] eqn:Ep; try discriminate W.
  apply andb_true_iff in W. destruct W as [Hdig Hval].
  apply Z.eqb_eq in Hval. now exists a, b, c, d0.
Qed.

Lemma digit_is_ascii (c : ascii) :
  is_digit c = true -> (nat_of_ascii c <? 128)%nat = true.
Proof.
  unfold is_digit, in_range. rewrite andb_true_iff, !Nat.leb_le.
  change (nat_of_ascii "9") with 57%nat. intros [_ H].
  apply Nat.ltb_lt. lia.
Qed.

Lemma new_datetime_date (t : datetime) :
  is_date t = true -> year t <= MAXYEAR ->
  new_datetime (year t) (month t) (day t) = Ok t.
Proof.
  intros Ht Hy. apply is_date_fields in Ht. destruct t as [y m d].
  cbn [year month day] in *. unfold MAXYEAR in Hy.
  unfold new_datetime, MINYEAR, MAXYEAR.
  replace ((y <? 1) || (9999 <? y)) with false
    by (symmetry; apply orb_false_iff; rewrite !Z.ltb_ge; lia).
  replace ((m <? 1) || (12 <? m)) with false
    by (symmetry; apply orb_false_iff; rewrite !Z.ltb_ge; lia).
  replace ((d <? 1) || (days_in_month y m <? d)) with false
    by (symmetry; apply orb_false_iff; rewrite !Z.ltb_ge; lia).
  reflexivity.
Qed.

(** A date written in one of the ways parses to itself. *)
Lemma strptime_date_texts (t : datetime) (s : string) :
  is_date t = true -> year t <= MAXYEAR -> In s (date_texts t) ->
  strptime_ymd s = Ok t /\ ascii_text s = true.
Proof.
  intros Ht Hy Hs. pose proof Ht as Hf. apply is_date_fields in Hf.
  destruct Hf as [Hy1 [Hm Hd]]. unfold MAXYEAR in Hy.
  unfold date_texts in Hs. apply in_flat_map in Hs.
  destruct Hs as [ms [Hms Hs]]. apply in_map_iff in Hs.
  destruct Hs as [ds [<- Hds]].
  destruct (month_texts_groups _ _ Hm Hms) as [Gm [Vm Am]].
  assert (Hd31 : 1 <= day t <= 31).
  { split; [lia|]. apply (day_of_month_bound (year t) (month t)); lia. }
  destruct (day_texts_groups _ _ Hd31 Hds) as [Gd [Vd Ad]].
  destruct (year_digits (year t) ltac:(lia)) as [a [b [c [d0 [Ep [Hdig Hval]]]]]].
  assert (Ay : ascii_text (pad4 (year t)) = true).
  { rewrite Ep. rewrite !andb_true_iff in Hdig.
    destruct Hdig as [[[Ha Hb] Hc] Hd0].
    unfold ascii_text. cbn [all_chars].
    now rewrite !digit_is_ascii by assumption. }
  split.
  - unfold strptime_ymd. rewrite Ep in *. cbn [append].
    destruct Gd as [Gd|Gd].
    + rewrite <- (append_nil_r ds).
      rewrite (match_ymd_written2 a b c d0 ms ds "" Hdig Gm Gd).
      rewrite Hval, Vm, Vd. now apply new_datetime_date.
    + rewrite (match_ymd_written1 a b c d0 ms ds Hdig Gm Gd).
      rewrite Hval, Vm, Vd. now apply new_datetime_date.
  - rewrite !ascii_text_app, Ay, Am, Ad. reflexivity.
Qed.

(** What parses to a date is one of the ways to write it. *)
Lemma strptime_ymd_written (s : string) (t : datetime) :
  strptime_ymd s = Ok t -> In s (date_texts t).
Proof.
  unfold strptime_ymd.
  destruct (match_ymd s) as [[[[Y m] d] rest]|] eqn:M; [|discriminate].
  destruct rest; [|discriminate]. intros H.
  apply new_datetime_ok in H. destruct H as [-> _].
  apply match_ymd_some in M.
  destruct M as [[a [b [c [d0 [-> [Ha [Hb [Hc Hd0]]]]]]]] [Hm [Hd ->]]].
  pose proof (year_group_written a b c d0 Ha Hb Hc Hd0) as Ey.
  destruct (month_group_read m Hm) as [_ Tm].
  destruct (day_group_read d Hd) as [_ Td].
  unfold date_texts. cbn [year month day].
  apply in_flat_map. exists m. split; [exact Tm|].
  apply in_map_iff. exists d. split; [|exact Td].
  cbv zeta in Ey. rewrite Ey. now rewrite append_nil_r.
Qed.

(** What [strptime] raises. *)
Lemma strptime_ymd_raises (s : string) (e : exn) :
  strptime_ymd s = Raise e ->
  e = ValueError ("time data " ++ repr s ++
                  " does not match format '%Y-%m-%d'") \/
  (exists rest, rest <> "" /\
     e = ValueError ("unconverted data remains: " ++ rest)) \/
  e = ValueError "year 0 is out of range" \/
  e = ValueError "day is out of range for month".
Proof.
  unfold strptime_ymd.
  destruct (match_ymd s) as [[[[Y m] d] rest]|] eqn:M.
  2:{ intros [= <-]. now left. }
  destruct rest as [|x rest].
  2:{ intros [= <-]. right; left. now exists (String x rest). }
  apply match_ymd_some in M.
  destruct M as [[a [b [c [d0 [-> [Ha [Hb [Hc Hd0]]]]]]]] [Hm [Hd _]]].
  pose proof (year_group_bounds a b c d0 Ha Hb Hc Hd0) as By.
  destruct (month_group_read m Hm) as [Bm _].
  destruct (day_group_read d Hd) as [Bd _].
  set (y := int_group 0 _) in *. set (mm := int_group 0 m) in *.
  set (dd := int_group 0 d) in *.
  unfold new_datetime, MINYEAR, MAXYEAR.
  destruct ((y <? 1) || (9999 <? y)) eqn:Ey.
  { apply orb_true_iff in Ey. rewrite !Z.ltb_lt in Ey.
    assert (y = 0) as -> by lia. intros [= <-]. right; right; left.
    reflexivity. }
  replace ((mm <? 1) || (12 <? mm)) with false
    by (symmetry; apply orb_false_iff; rewrite !Z.ltb_ge; lia).
  destruct ((dd <? 1) || (days_in_month y mm <? dd)); [|discriminate].
  intros [= <-]. now right; right; right.
Qed.

(** ** The order of the calendar *)

Lemma days_before_year_mono (a b : Z) :
  1 <= a <= b -> days_before_year a + 365 * (b - a) <= days_before_year b.
Proof.
  intros [Ha Hab].
  assert (G : forall n : nat,
             days_before_year a + 365 * Z.of_nat n <=
             days_before_year (a + Z.of_nat n)).
  { induction n as [|n IH].
    - replace (a + Z.of_nat 0) with a by lia. lia.
    - rewrite Nat2Z.inj_succ.
      replace (a + Z.succ (Z.of_nat n)) with (a + Z.of_nat n + 1) by lia.
      rewrite days_before_next_year by lia. destruct (is_leap _); lia. }
  specialize (G (Z.to_nat (b - a))). rewrite Z2Nat.id in G by lia.
  replace (a + (b - a)) with b in G by lia. exact G.
Qed.

Lemma days_before_month_nonneg (y m : Z) :
  1 <= m <= 12 -> 0 <= days_before_month y m.
Proof.
  intros Hm. unfold days_before_month.
  each_month Hm; destruct (is_leap y); lookup; lia.
Qed.

(** The days of a year come before those of the next. *)
Lemma day_of_year_bound (y m d : Z) :
  1 <= m <= 12 -> 1 <= d <= days_in_month y m ->
  days_before_month y m + d <= 365 + (if is_leap y then 1 else 0).
Proof.
  intros Hm Hd. unfold days_in_month, days_before_month in *.
  each_month Hm; destruct (is_leap y); lookup; lia.
Qed.

(** The days of a month come before those of a later month. *)
Lemma days_before_later_month (y m m' d : Z) :
  1 <= m -> m < m' -> m' <= 12 -> d <= days_in_month y m ->
  days_before_month y m + d <= days_before_month y m'.
Proof.
  intros H1 H2 H3 Hd. unfold days_in_month, days_before_month in *.
  assert (Hm : 1 <= m <= 12) by lia. assert (Hm' : 1 <= m' <= 12) by lia.
  each_month Hm; each_month Hm'; try lia; destruct (is_leap y); lookup; lia.
Qed.

Lemma date_ltb_toordinal (a b : datetime) :
  is_date a = true -> is_date b = true ->
  date_ltb a b = true -> toordinal a < toordinal b.
Proof.
  intros Ha Hb. apply is_date_fields in Ha, Hb.
  destruct a as [y m d], b as [y' m' d']. unfold date_ltb, toordinal, ymd2ord.
  cbn [year month day] in *.
  destruct Ha as [Hy [Hm Hd]], Hb as [Hy' [Hm' Hd']].
  repeat (rewrite orb_true_iff || rewrite andb_true_iff).
  rewrite !Z.ltb_lt, !Z.eqb_eq.
  intros [L | [-> [L | [-> L]]]].
  - pose proof (days_before_year_mono (y + 1) y' ltac:(lia)) as M.
    rewrite days_before_next_year in M by lia.
    pose proof (day_of_year_bound y m d Hm Hd).
    pose proof (days_before_month_nonneg y' m' Hm'). lia.
  - pose proof (days_before_later_month y' m m' d ltac:(lia) L ltac:(lia)
                  ltac:(lia)). lia.
  - lia.
Qed.

(** The order of the dates is the order of their ordinals. *)
Lemma date_ltb_ordinals (a b : datetime) :
  is_date a = true -> is_date b = true ->
  date_ltb a b = (toordinal a <? toordinal b).
Proof.
  intros Ha Hb. destruct (date_ltb a b) eqn:L.
  - symmetry. apply Z.ltb_lt. now apply date_ltb_toordinal.
  - symmetry. apply Z.ltb_ge.
    assert (T : a = b \/ date_ltb b a = true).
    { destruct a as [y m d], b as [y' m' d']. unfold date_ltb in *.
      cbn [year month day] in *.
      repeat (rewrite orb_false_iff in L || rewrite andb_false_iff in L).
      rewrite !Z.ltb_ge, !Z.eqb_neq in L.
      repeat (rewrite orb_true_iff || rewrite andb_true_iff).
      rewrite !Z.ltb_lt, !Z.eqb_eq.
      destruct (Z.eq_dec y y') as [->|]; [|right; lia].
      destruct (Z.eq_dec m m') as [->|]; [|right; lia].
      destruct (Z.eq_dec d d') as [->|]; [now left | right; lia]. }
    destruct T as [->|T]; [lia|].
    apply (date_ltb_toordinal b a Hb Ha) in T. lia.
Qed.

(** The dates of the ordinals up to [MAXORDINAL] are of the years up to
    9999. *)
Lemma fromordinal_year_bound (n : Z) :
  1 <= n <= MAXORDINAL -> year (fromordinal n) <= MAXYEAR.
Proof.
  intros [H1 H2]. destruct (toordinal_fromordinal n H1) as [Hd Ho].
  apply is_date_fields in Hd. destruct (fromordinal n) as [y m d].
  unfold toordinal, ymd2ord, MAXYEAR, MAXORDINAL in *.
  cbn [year month day] in *. destruct Hd as [Hy [Hm Hd]].
  destruct (Z_le_gt_dec y 9999) as [|G]; [assumption|exfalso].
  pose proof (days_before_year_mono 10000 y ltac:(lia)) as M.
  change (days_before_year 10000) with 3652059 in M.
  pose proof (days_before_month_nonneg y m Hm). lia.
Qed.

(** ** The dates of [calculate_moveout_date] *)

(** A call succeeds when the text parses and the move-out date is within
    the calendar; the dates are then these. *)
Lemma moveout_dates_within (current_date : string) (notice_days : Z)
    (t : datetime) :
  strptime_ymd current_date = Ok t ->
  1 <= toordinal t + notice_days <= MAXORDINAL ->
  moveout_dates current_date notice_days =
  Ok {| current := t;
        moveout_date := fromordinal (toordinal t + notice_days);
        days_remaining := notice_days |}.
Proof.
  intros Hp Hr.
  destruct (strptime_ymd_date _ _ Hp) as [Ht Hy].
  pose proof (toordinal_positive t Ht) as Ho.
  pose proof (toordinal_bound t Ht Hy) as Hb.
  unfold moveout_dates, bind. rewrite Hp.
  unfold timedelta_days, MAXORDINAL in *.
  replace ((notice_days <? -2147483648) || (2147483647 <? notice_days)) with false
    by (symmetry; apply orb_false_iff; rewrite !Z.ltb_ge; lia).
  replace ((notice_days <? -999999999) || (999999999 <? notice_days)) with false
    by (symmetry; apply orb_false_iff; rewrite !Z.ltb_ge; lia).
  unfold add_days, MAXORDINAL.
  replace ((1 <=? toordinal t + notice_days) && (toordinal t + notice_days <=? 3652059))
    with true by (symmetry; apply andb_true_iff; rewrite !Z.leb_le; lia).
  unfold sub_days.
  destruct (toordinal_fromordinal (toordinal t + notice_days)) as [_ ->]; [lia|].
  f_equal. f_equal. lia.
Qed.

Lemma moveout_dates_ok (current_date : string) (notice_days : Z)
    (r : MoveOutDates) :
  moveout_dates current_date notice_days = Ok r ->
  exists t,
    strptime_ymd current_date = Ok t /\
    1 <= toordinal t + notice_days <= MAXORDINAL /\
    r = {| current := t;
           moveout_date := fromordinal (toordinal t + notice_days);
           days_remaining := notice_days |}.
Proof.
  intros H. destruct (strptime_ymd current_date) as [t|e] eqn:Hp.
  2:{ unfold moveout_dates, bind in H. rewrite Hp in H. discriminate H. }
  exists t. split; [reflexivity|].
  assert (R : 1 <= toordinal t + notice_days <= MAXORDINAL).
  { destruct (Z_le_gt_dec 1 (toordinal t + notice_days)) as [L|G].
    - destruct (Z_le_gt_dec (toordinal t + notice_days) MAXORDINAL) as [L'|G'];
        [lia|].
      assert (X : exists e, moveout_dates current_date notice_days = Raise e).
      { apply moveout_dates_raises. right. exists t. split; [exact Hp | lia]. }
      destruct X as [e X]. rewrite X in H. discriminate H.
    - assert (X : exists e, moveout_dates current_date notice_days = Raise e).
      { apply moveout_dates_raises. right. exists t. split; [exact Hp | lia]. }
      destruct X as [e X]. rewrite X in H. discriminate H. }
  split; [exact R|].
  rewrite (moveout_dates_within _ _ t Hp R) in H. now injection H as <-.
Qed.

(** The move-out date of a call that succeeds is a day of the calendar of
    the years 1 to 9999. *)
Lemma moveout_date_is_date (current_date : string) (notice_days : Z)
    (r : MoveOutDates) :
  moveout_dates current_date notice_days = Ok r ->
  is_date (current r) = true /\ year (current r) <= MAXYEAR /\
  is_date (moveout_date r) = true /\ year (moveout_date r) <= MAXYEAR /\
  toordinal (moveout_date r) = toordinal (current r) + notice_days.
Proof.
  intros H. apply moveout_dates_ok in H. destruct H as [t [Hp [R ->]]].
  cbn [current moveout_date].
  destruct (strptime_ymd_date _ _ Hp) as [Ht Hy].
  destruct (toordinal_fromordinal (toordinal t + notice_days)) as [D O]; [lia|].
  repeat split; try assumption. now apply fromordinal_year_bound.
Qed.

(** ** More of [calculate_moveout_date] *)

(** X3: the text [calculate_moveout_date] reads as the date [t] is one of
    the ways to write [t]: the year with four digits, the month and the
    day with two digits or, below 10, with one, the day of one digit
    also after a blank.  A call succeeds on exactly these texts, when the
    move-out date is a day of the years 1 to 9999. *)
Theorem X3_dates_read (s : string) (notice_days : Z) (t : datetime) :
  (exists r, moveout_dates s notice_days = Ok r /\ current r = t) /\
  ascii_text s = true
  <->
  is_date t = true /\ year t <= MAXYEAR /\ In s (date_texts t) /\
  1 <= toordinal t + notice_days <= MAXORDINAL.
Proof.
  split.
  - intros [[r [H <-]] _]. pose proof H as H'.
    apply moveout_dates_ok in H. destruct H as [t [Hp [R ->]]].
    cbn [current]. destruct (strptime_ymd_date _ _ Hp) as [Ht Hy].
    repeat split; try assumption; try lia.
    now apply strptime_ymd_written.
  - intros [Ht [Hy [Hs R]]].
    destruct (strptime_date_texts t s Ht Hy Hs) as [Hp Ha].
    split; [|exact Ha]. eexists. split.
    + apply (moveout_dates_within _ _ t Hp R).
    + reflexivity.
Qed.

(** X4: when [calculate_moveout_date] reports an error for a text of ASCII
    characters, the message is one of seven: the text does not match the
    format, text remains after the date, the year is 0, the day is not
    of the month, the notice is beyond a C int or beyond 999999999 days,
    or the move-out date is out of the calendar.  A month out of range
    is never reported as such: the pattern does not match it. *)
Theorem X4_error_messages (current_date : string) (notice_days : Z)
    (e : exn) :
  ascii_text current_date = true ->
  moveout_try current_date notice_days = Raise e ->
  calculate_moveout_date current_date notice_days =
    "❌ Date Calculation Error: " ++ str_exn e ++
    ". Please ensure the date format is YYYY-MM-DD (e.g., 2025-03-01)." /\
  (e = ValueError ("time data " ++ repr current_date ++
                   " does not match format '%Y-%m-%d'") \/
   (exists rest, rest <> "" /\
      e = ValueError ("unconverted data remains: " ++ rest)) \/
   e = ValueError "year 0 is out of range" \/
   e = ValueError "day is out of range for month" \/
   e = OverflowError "Python int too large to convert to C int" \/
   e = OverflowError ("days=" ++ str_int notice_days ++
                      "; must have magnitude <= 999999999") \/
   e = OverflowError "date value out of range").
Proof.
  intros _ H. split.
  - unfold calculate_moveout_date. rewrite H. reflexivity.
  - unfold moveout_try, bind in H.
    destruct (strptime_ymd current_date) as [t|e'] eqn:Hp.
    + unfold timedelta_days in H.
      destruct ((notice_days <? -2147483648) || (2147483647 <? notice_days)).
      { injection H as <-. tauto. }
      destruct ((notice_days <? -999999999) || (999999999 <? notice_days)).
      { injection H as <-. tauto. }
      unfold add_days in H.
      destruct ((1 <=? toordinal t + notice_days) &&
                (toordinal t + notice_days <=? MAXORDINAL)); [discriminate H|].
      injection H as <-. tauto.
    + injection H as <-. apply strptime_ymd_raises in Hp. tauto.
Qed.

Lemma X4_witness :
  calculate_moveout_date "2025-02-30" 60 =
    "❌ Date Calculation Error: " ++
    str_exn (ValueError "day is out of range for month") ++
    ". Please ensure the date format is YYYY-MM-DD (e.g., 2025-03-01).".
Proof.
  apply (X4_error_messages "2025-02-30" 60
           (ValueError "day is out of range for month")); reflexivity.
Defined.

(** The pattern stops after the two digits of the day of a date written
    as YYYY-MM-DD. *)
Lemma strptime_text_after_date (t : datetime) (extra : string) :
  is_date t = true -> year t <= MAXYEAR -> extra <> "" ->
  strptime_ymd (isoformat t ++ extra) =
  Raise (ValueError ("unconverted data remains: " ++ extra)).
Proof.
  intros Ht Hy He. apply is_date_fields in Ht. destruct t as [y m d].
  cbn [year month day] in *. destruct Ht as [Hy1 [Hm Hd]].
  unfold MAXYEAR in Hy.
  destruct (year_digits y ltac:(lia)) as [a [b [c [d0 [Ep [Hdig _]]]]]].
  assert (Hd31 : 1 <= d <= 31).
  { split; [lia|]. apply (day_of_month_bound y m); lia. }
  assert (Gm : In (pad2 m) m_groups)
    by (clear - Hm; each_month Hm; vm_compute; tauto).
  assert (Gd : In (pad2 d) d_groups2).
  { clear - Hd31.
    destruct (day_cases d Hd31) as
      [?|[?|[?|[?|[?|[?|[?|[?|[?|[?|[?|[?|[?|[?|[?|[?|[?|[?|[?|[?|[?|[?|[?|[?|
       [?|[?|[?|[?|[?|[?|?]]]]]]]]]]]]]]]]]]]]]]]]]]]]]];
      subst; vm_compute; tauto. }
  unfold strptime_ymd, isoformat. cbn [year month day]. rewrite Ep.
  rewrite !append_assoc. cbn [append].
  rewrite (match_ymd_written2 a b c d0 (pad2 m) (pad2 d) extra Hdig Gm Gd).
  destruct extra; [contradiction|reflexivity].
Qed.

(** X5: a text that goes on after a date written as YYYY-MM-DD, as with
    a time of day, is refused, and the message quotes what follows the
    date. *)
Theorem X5_text_after_date (t : datetime) (extra : string)
    (notice_days : Z) :
  is_date t = true -> year t <= MAXYEAR -> extra <> "" ->
  calculate_moveout_date (isoformat t ++ extra) notice_days =
    "❌ Date Calculation Error: unconverted data remains: " ++ extra ++
    ". Please ensure the date format is YYYY-MM-DD (e.g., 2025-03-01).".
Proof.
  intros Ht Hy He. unfold calculate_moveout_date, moveout_try, bind.
  rewrite (strptime_text_after_date t extra Ht Hy He).
  unfold moveout_except, str_exn. now rewrite !append_assoc.
Qed.

Lemma X5_witness :
  calculate_moveout_date "2025-03-01 10:00" 60 =
    "❌ Date Calculation Error: unconverted data remains:  10:00. Please ensure the date format is YYYY-MM-DD (e.g., 2025-03-01).".
Proof.
  apply (X5_text_after_date {| year := 2025; month := 3; day := 1 |}
           " 10:00" 60); [reflexivity | vm_compute; discriminate | discriminate].
Defined.

(** X6: a negative notice is taken as it is: the move-out date is the
    day from which the notice date is reached in that many calendar
    days, and the days remaining are the negative notice. *)
Theorem X6_negative_notice (current_date : string) (notice_days : Z)
    (t : datetime) :
  strptime_ymd current_date = Ok t ->
  notice_days <= 0 -> 1 <= toordinal t + notice_days ->
  exists r,
    moveout_dates current_date notice_days = Ok r /\
    current r = t /\
    is_date (moveout_date r) = true /\
    plus_days (Z.to_nat (- notice_days)) (moveout_date r) = t /\
    days_remaining r = notice_days /\
    calculate_moveout_date current_date notice_days =
    moveout_report notice_days r.
Proof.
  intros Hp Hn Hlo.
  destruct (strptime_ymd_date _ _ Hp) as [Ht Hy].
  pose proof (toordinal_bound t Ht Hy) as Hb.
  assert (R : 1 <= toordinal t + notice_days <= MAXORDINAL) by lia.
  pose proof (moveout_dates_within _ _ t Hp R) as E.
  eexists. split; [exact E|]. cbn [current moveout_date days_remaining].
  destruct (toordinal_fromordinal (toordinal t + notice_days)) as [D O]; [lia|].
  repeat split; try assumption.
  - rewrite <- fromordinal_plus_days by assumption.
    rewrite O, Z2Nat.id by lia.
    replace (toordinal t + notice_days + - notice_days) with (toordinal t) by lia.
    now apply fromordinal_toordinal.
  - rewrite calculate_moveout_date_report, E. reflexivity.
Qed.

Lemma X6_witness :
  exists r,
    moveout_dates "2024-03-01" (-1) = Ok r /\
    current r = {| year := 2024; month := 3; day := 1 |} /\
    is_date (moveout_date r) = true /\
    plus_days (Z.to_nat (- (-1))) (moveout_date r) =
      {| year := 2024; month := 3; day := 1 |} /\
    days_remaining r = -1 /\
    calculate_moveout_date "2024-03-01" (-1) = moveout_report (-1) r.
Proof.
  apply (X6_negative_notice "2024-03-01" (-1)
           {| year := 2024; month := 3; day := 1 |});
    [reflexivity | lia | vm_compute; discriminate].
Defined.

(** X7: from the move-out date, written as YYYY-MM-DD, the opposite
    notice leads back to the notice date. *)
Theorem X7_notice_and_back (current_date : string) (notice_days : Z)
    (r : MoveOutDates) :
  moveout_dates current_date notice_days = Ok r ->
  moveout_dates (isoformat (moveout_date r)) (- notice_days) =
  Ok {| current := moveout_date r;
        moveout_date := current r;
        days_remaining := - notice_days |}.
Proof.
  intros H.
  destruct (moveout_date_is_date _ _ _ H) as [Dc [Yc [Dm [Ym O]]]].
  pose proof (toordinal_positive _ Dc). pose proof (toordinal_bound _ Dc Yc).
  rewrite (moveout_dates_within _ _ (moveout_date r)
             (strptime_isoformat _ Dm Ym)) by lia.
  rewrite O.
  replace (toordinal (current r) + notice_days + - notice_days)
    with (toordinal (current r)) by lia.
  now rewrite fromordinal_toordinal.
Qed.

Lemma X7_witness :
  moveout_dates "2025-04-30" (- 60) =
  Ok {| current := {| year := 2025; month := 4; day := 30 |};
        moveout_date := {| year := 2025; month := 3; day := 1 |};
        days_remaining := - 60 |}.
Proof.
  apply (X7_notice_and_back "2025-03-01" 60
           {| current := {| year := 2025; month := 3; day := 1 |};
              moveout_date := {| year := 2025; month := 4; day := 30 |};
              days_remaining := 60 |}).
  vm_compute. reflexivity.
Defined.

(** The second of two notices in a row. *)
Lemma notices_add_up_from (current_date : string) (t : datetime) (a b : Z)
    (r2 : MoveOutDates) :
  strptime_ymd current_date = Ok t ->
  1 <= toordinal t + a <= MAXORDINAL ->
  moveout_dates (isoformat (fromordinal (toordinal t + a))) b = Ok r2 ->
  moveout_dates current_date (a + b) =
  Ok {| current := t;
        moveout_date := moveout_date r2;
        days_remaining := a + days_remaining r2 |}.
Proof.
  intros Hp R1 H2.
  destruct (toordinal_fromordinal (toordinal t + a)) as [D O]; [lia|].
  pose proof (fromordinal_year_bound _ R1) as Y.
  apply moveout_dates_ok in H2. destruct H2 as [t2 [Hp2 [R2 E2]]].
  rewrite (strptime_isoformat _ D Y) in Hp2. injection Hp2 as E. subst t2.
  rewrite O in R2, E2. subst r2.
  rewrite (moveout_dates_within _ _ t Hp) by lia.
  unfold moveout_date, days_remaining. now rewrite Z.add_assoc.
Qed.

(** X8: two notices in a row are the notice of their sum: when a call
    succeeds and a second call, from the move-out date of the first,
    succeeds, the call from the first date with the sum of the notices
    succeeds with the move-out date of the second. *)
Theorem X8_notices_add_up (current_date : string) (a b : Z)
    (r1 r2 : MoveOutDates) :
  moveout_dates current_date a = Ok r1 ->
  moveout_dates (isoformat (moveout_date r1)) b = Ok r2 ->
  moveout_dates current_date (a + b) =
  Ok {| current := current r1;
        moveout_date := moveout_date r2;
        days_remaining := days_remaining r1 + days_remaining r2 |}.
Proof.
  intros H1 H2. destruct r1 as [c1 m1 d1].
  cbn [current moveout_date days_remaining] in *.
  apply moveout_dates_ok in H1. destruct H1 as [t [Hp [R1 E1]]].
  injection E1 as -> -> ->.
  exact (notices_add_up_from current_date t a b r2 Hp R1 H2).
Qed.

Lemma X8_witness :
  moveout_dates "2025-03-01" (30 + 30) =
  Ok {| current := {| year := 2025; month := 3; day := 1 |};
        moveout_date := {| year := 2025; month := 4; day := 30 |};
        days_remaining := 30 + 30 |}.
Proof.
  apply (X8_notices_add_up "2025-03-01" 30 30
           {| current := {| year := 2025; month := 3; day := 1 |};
              moveout_date := {| year := 2025; month := 3; day := 31 |};
              days_remaining := 30 |}
           {| current := {| year := 2025; month := 3; day := 31 |};
              moveout_date := {| year := 2025; month := 4; day := 30 |};
              days_remaining := 30 |}); vm_compute; reflexivity.
Defined.

(** X9: a longer notice gives a later move-out date, in the order of the
    calendar (by year, then month, then day); the move-out date is after
    the notice date for a positive notice, before it for a negative one,
    and the same day for none. *)
Theorem X9_longer_notice_later_date (current_date : string) (a b : Z)
    (ra rb : MoveOutDates) :
  moveout_dates current_date a = Ok ra ->
  moveout_dates current_date b = Ok rb ->
  date_ltb (moveout_date ra) (moveout_date rb) = (a <? b) /\
  date_ltb (current ra) (moveout_date ra) = (0 <? a) /\
  date_ltb (moveout_date ra) (current ra) = (a <? 0) /\
  (a = 0 -> moveout_date ra = current ra).
Proof.
  intros Ha Hb.
  destruct (moveout_date_is_date _ _ _ Ha) as [Dc [Yc [Dm [Ym O]]]].
  destruct (moveout_date_is_date _ _ _ Hb) as [Dc' [Yc' [Dm' [Ym' O']]]].
  assert (Ec : current rb = current ra).
  { apply moveout_dates_ok in Ha, Hb.
    destruct Ha as [t [Hp [_ ->]]], Hb as [t' [Hp' [_ ->]]].
    cbn [current]. rewrite Hp in Hp'. now injection Hp'. }
  rewrite Ec in O'.
  rewrite !date_ltb_ordinals by assumption. rewrite O, O'.
  repeat split.
  - destruct (Z.ltb_spec a b), (Z.ltb_spec (toordinal (current ra) + a)
                                  (toordinal (current ra) + b)); lia.
  - destruct (Z.ltb_spec 0 a), (Z.ltb_spec (toordinal (current ra))
                                  (toordinal (current ra) + a)); lia.
  - destruct (Z.ltb_spec a 0), (Z.ltb_spec (toordinal (current ra) + a)
                                  (toordinal (current ra))); lia.
  - intros ->. rewrite Z.add_0_r in O.
    rewrite <- (fromordinal_toordinal _ Dm), O.
    now apply fromordinal_toordinal.
Qed.

Lemma X9_witness :
  date_ltb {| year := 2025; month := 3; day := 31 |}
           {| year := 2025; month := 4; day := 30 |} = (30 <? 60).
Proof.
  apply (X9_longer_notice_later_date "2025-03-01" 30 60
           {| current := {| year := 2025; month := 3; day := 1 |};
              moveout_date := {| year := 2025; month := 3; day := 31 |};
              days_remaining := 30 |}
           {| current := {| year := 2025; month := 3; day := 1 |};
              moveout_date := {| year := 2025; month := 4; day := 30 |};
              days_remaining := 60 |}); vm_compute; reflexivity.
Defined.

(** ** More of [get_repair_responsibility] *)

(** Lowering a lowered text changes nothing. *)
Lemma lower_char_idem (c : ascii) : lower_char (lower_char c) = lower_char c.
Proof. destruct c as [[] [] [] [] [] [] [] []]; reflexivity. Qed.

Lemma lower_idem (s : string) : lower (lower s) = lower s.
Proof.
  induction s as [|c s IH]; [reflexivity|].
  cbn [lower]. now rewrite lower_char_idem, IH.
Qed.

(** X10: the case of the letters of [repair_type] does not count: two
    texts that differ only in the case of their ASCII letters get the
    same verdict and the same narrative, which is that of the lowered
    text. *)
Theorem X10_case_is_ignored (a b : string) (cost : float) :
  lower a = lower b ->
  get_repair_responsibility a cost = get_repair_responsibility b cost /\
  repair_verdict a cost = repair_verdict b cost /\
  get_repair_responsibility (lower a) cost = get_repair_responsibility a cost.
Proof.
  intros E. unfold get_repair_responsibility, repair_verdict.
  rewrite lower_idem, E. auto.
Qed.

Lemma X10_witness :
  get_repair_responsibility "Light BULB" (round_int 20) =
  get_repair_responsibility "LIGHT bulb" (round_int 20).
Proof.
  apply (X10_case_is_ignored "Light BULB" "LIGHT bulb" (round_int 20)).
  reflexivity.
Defined.

(** X11: whatever the verdict, the narrative names the repair, in lower
    case. *)
Theorem X11_narrative_names_the_repair (repair_type : string) (cost : float) :
  contains (lower repair_type) (get_repair_responsibility repair_type cost)
  = true.
Proof.
  rewrite get_repair_responsibility_report.
  destruct (repair_verdict repair_type cost); cbn [repair_report];
    apply contains_spec.
  - now exists "💡 ", " maintenance responsibility: Tenant bears (needs to be replaced by themselves, cost borne by themselves)".
  - eexists "❄️ ", _. reflexivity.
  - eexists "💰 ", _. reflexivity.
  - eexists "💰 ", _. reflexivity.
  - eexists "🏗️ ", _. reflexivity.
  - eexists "ℹ️ Unable to determine ", _. reflexivity.
Qed.

(** * The accounts *)

Import Sha256 UserAuth Pages History.

(** ** SHA-256 *)

(** The digests of FIPS 180-4 and of [hashlib], for messages of one
    block and of two, and for a text that is not ASCII. *)
Lemma sha256_examples :
  sha256_hexdigest "" =
    "e3b0c44298fc1c149afbf4c8996fb92427ae41e4649b934ca495991b7852b855" /\
  sha256_hexdigest "abc" =
    "ba7816bf8f01cfea414140de5dae2223b00361a396177a9cb410ff61f20015ad" /\
  sha256_hexdigest
    "abcdbcdecdefdefgefghfghighijhijkijkljklmklmnlmnomnopnopq" =
    "248d6a61d20638b8e5c026930c3e6039a33ce45964ff2167f6ecedd419db06c1" /\
  sha256_hexdigest "密码" =
    "a621ab606db2a11f63edc576a729843b8269250dc324206871d90635ac5e531c".
Proof. vm_compute. repeat split. Qed.

(** The constants are those of the standard. *)
Lemma sha256_constants :
  List.length K = 64%nat /\
  nth 0 K 0 = 0x428a2f98 /\ nth 63 K 0 = 0xc67178f2 /\
  va H0 = 0x6a09e667 /\ vh H0 = 0x5be0cd19.
Proof. vm_compute. repeat split. Qed.

Lemma hex_is_hex_char (w i : Z) : hex_char (hex w i) = true.
Proof.
  unfold hex.
  assert (B : 0 <= Z.land (Z.shiftr w (4 * i)) 15 < 16).
  { change 15 with (Z.ones 4). rewrite Z.land_ones by lia.
    apply Z.mod_pos_bound. reflexivity. }
  assert (A : forallb (fun n => hex_char (hex_digit n)) (seq 0 16) = true)
    by reflexivity.
  rewrite forallb_forall in A. apply A. apply in_seq. lia.
Qed.

(** A digest is 64 digits of base 16, whatever the text. *)
Lemma sha256_is_digest (s : string) : is_digest (sha256_hexdigest s) = true.
Proof.
  unfold sha256_hexdigest. destruct (digest (bytes s)) as [a b c d e f g h].
  unfold is_digest, hexdigest, hex8. cbn [va vb vc vd ve vf vg vh].
  cbn [String.length Nat.eqb all_chars andb].
  now rewrite !hex_is_hex_char.
Qed.

(** ** Dicts *)

Lemma get_set_same {V : Type} (k : string) (v : V) (d : list (string * V)) :
  get k (set k v d) = Some v.
Proof.
  induction d as [|[k' v'] d IH]; cbn [set get].
  - now rewrite String.eqb_refl.
  - destruct (String.eqb k' k) eqn:E; cbn [get].
    + now rewrite String.eqb_refl.
    + now rewrite E.
Qed.

Lemma get_set_other {V : Type} (k k' : string) (v : V)
    (d : list (string * V)) :
  k <> k' -> get k' (set k v d) = get k' d.
Proof.
  intros N. induction d as [|[k0 v0] d IH]; cbn [set get].
  - apply String.eqb_neq in N. now rewrite N.
  - destruct (String.eqb k0 k) eqn:E; cbn [get].
    + apply String.eqb_eq in E. subst k0.
      apply String.eqb_neq in N. now rewrite N.
    + now rewrite IH.
Qed.

Lemma has_keys {V : Type} (k : string) (d : list (string * V)) :
  has k d = true <-> In k (keys d).
Proof.
  unfold has. induction d as [|[k' v'] d IH]; cbn [get keys map fst In].
  - split; [discriminate | contradiction].
  - destruct (String.eqb k' k) eqn:E.
    + apply String.eqb_eq in E. subst. split; auto.
    + apply String.eqb_neq in E. rewrite IH. unfold keys. split; [auto|].
      intros [H|H]; [contradiction | exact H].
Qed.

Lemma keys_set {V : Type} (k : string) (v : V) (d : list (string * V)) :
  keys (set k v d) = if has k d then keys d else (keys d ++ [k])%list.
Proof.
  unfold has. induction d as [|[k' v'] d IH]; cbn [set get keys map fst].
  - reflexivity.
  - destruct (String.eqb k' k) eqn:E; cbn [keys map fst].
    + apply String.eqb_eq in E. now subst.
    + unfold keys in IH. rewrite IH. now destruct (get k d).
Qed.

(** ** [register_user] and [authenticate_user] *)

(** The answer of [authenticate_user], from the account it finds. *)
Lemma authenticate_answer (username password role : string) (file : File) :
  authenticate_user username password role file =
  (match get role (_init_user_db file) with
   | None => (false, "Invalid user role.")
   | Some _ =>
       match account_of username role (_init_user_db file) with
       | None => (false, "User does not exist.")
       | Some account =>
           if String.eqb (UserAuth.password account) (_hash_password password)
           then (true, "Login successful!")
           else (false, "Incorrect password.")
       end
   end, Some (_init_user_db file)).
Proof.
  unfold authenticate_user, account_of.
  destruct (get role (_init_user_db file)) as [accounts|]; [|reflexivity].
  destruct (get username accounts) as [account|]; [|reflexivity].
  now destruct (String.eqb _ _).
Qed.

(** The file [register_user] leaves. *)
Lemma register_file (r : Registration) (file : File) :
  register file r =
  Some (let users := _init_user_db file in
        match get (reg_role r) users with
        | None => users
        | Some accounts =>
            if has (reg_username r) accounts then users
            else set (reg_role r)
                   (set (reg_username r)
                      {| password := _hash_password (reg_password r);
                         email := reg_email r |} accounts) users
        end).
Proof.
  unfold register, register_user. cbv zeta.
  destruct (get (reg_role r) (_init_user_db file)) as [accounts|]; [|reflexivity].
  now destruct (has (reg_username r) accounts).
Qed.

Lemma has_get {V : Type} (k : string) (d : list (string * V)) :
  has k d = false <-> get k d = None.
Proof. unfold has. destruct (get k d); split; congruence. Qed.

(** The accounts after a call: those there were, and the new one when
    the user name was free in a role of the file. *)
Lemma account_of_register (r : Registration) (file : File)
    (username role : string) :
  account_of username role (_init_user_db (register file r)) =
  match account_of username role (_init_user_db file) with
  | Some account => Some account
  | None =>
      if String.eqb (reg_username r) username &&
         String.eqb (reg_role r) role && has role (_init_user_db file)
      then Some {| password := _hash_password (reg_password r);
                   email := reg_email r |}
      else None
  end.
Proof.
  rewrite register_file. cbn [_init_user_db]. cbv zeta.
  generalize (_init_user_db file). intros users.
  destruct (get (reg_role r) users) as [accounts|] eqn:G.
  2:{ destruct (account_of username role users) eqn:A; [reflexivity|].
      destruct (String.eqb (reg_role r) role) eqn:Er;
        [|now rewrite andb_false_r].
      apply String.eqb_eq in Er. subst role.
      unfold has. rewrite G. now rewrite andb_false_r. }
  destruct (has (reg_username r) accounts) eqn:Hu.
  { destruct (account_of username role users) eqn:A; [reflexivity|].
    destruct (String.eqb (reg_role r) role) eqn:Er;
      [|now rewrite andb_false_r].
    apply String.eqb_eq in Er. subst role.
    destruct (String.eqb (reg_username r) username) eqn:Eu; [|reflexivity].
    apply String.eqb_eq in Eu. subst username.
    unfold account_of in A. rewrite G in A.
    apply has_get in A. congruence. }
  apply has_get in Hu.
  destruct (String.eqb (reg_role r) role) eqn:Er.
  - apply String.eqb_eq in Er. subst role.
    unfold account_of, has. rewrite get_set_same, G.
    rewrite andb_true_r.
    destruct (String.eqb (reg_username r) username) eqn:Eu.
    + apply String.eqb_eq in Eu. subst username.
      now rewrite get_set_same, Hu.
    + apply String.eqb_neq in Eu. rewrite get_set_other by exact Eu.
      now destruct (get username accounts).
  - rewrite andb_false_r. cbn [andb]. apply String.eqb_neq in Er.
    unfold account_of. rewrite get_set_other by exact Er.
    destruct (get role users) as [accounts'|]; [|reflexivity].
    now destruct (get username accounts').
Qed.

(** The roles of the file do not change. *)
Lemma keys_register (r : Registration) (file : File) :
  keys (_init_user_db (register file r)) = keys (_init_user_db file).
Proof.
  rewrite register_file. cbn [_init_user_db]. cbv zeta.
  destruct (get (reg_role r) (_init_user_db file)) as [accounts|] eqn:G;
    [|reflexivity].
  destruct (has (reg_username r) accounts); [reflexivity|].
  rewrite keys_set. unfold has. now rewrite G.
Qed.

Lemma has_register (r : Registration) (file : File) (role : string) :
  has role (_init_user_db (register file r)) = has role (_init_user_db file).
Proof.
  pose proof (keys_register r file) as K.
  destruct (has role (_init_user_db file)) eqn:H.
  - apply has_keys. rewrite K. now apply has_keys.
  - destruct (has role (_init_user_db (register file r))) eqn:H'; [|reflexivity].
    apply has_keys in H'. rewrite K in H'. apply has_keys in H'. congruence.
Qed.

(** X12: who has registered can log in: after a call of [register_user]
    that succeeds, [authenticate_user] accepts the same user name, role
    and password, and any password with the same digest, and no other. *)
Theorem X12_register_then_login
    (username password role email msg : string) (file file' : File) :
  register_user username password role email file = ((true, msg), file') ->
  authenticate_user username password role file' =
    ((true, "Login successful!"), file') /\
  forall password',
    fst (authenticate_user username password' role file') =
    if String.eqb (_hash_password password) (_hash_password password')
    then (true, "Login successful!") else (false, "Incorrect password.").
Proof.
  unfold register_user. cbv zeta.
  destruct (get role (_init_user_db file)) as [accounts|] eqn:G;
    [|discriminate].
  destruct (has username accounts) eqn:Hu; [discriminate|].
  intros [= <- <-].
  assert (A : forall password',
    authenticate_user username password' role
      (Some (set role
               (set username
                  {| UserAuth.password := _hash_password password;
                     UserAuth.email := email |} accounts)
               (_init_user_db file))) =
    (if String.eqb (_hash_password password) (_hash_password password')
     then (true, "Login successful!") else (false, "Incorrect password."),
     Some (set role
             (set username
                {| UserAuth.password := _hash_password password;
                   UserAuth.email := email |} accounts)
             (_init_user_db file)))).
  { intros password'. unfold authenticate_user. cbn [_init_user_db].
    rewrite !get_set_same. cbn [UserAuth.password].
    now destruct (String.eqb _ _). }
  split.
  - rewrite A. now rewrite String.eqb_refl.
  - intros password'. now rewrite A.
Qed.

Lemma X12_witness :
  authenticate_user "ken" "secret" "tenants"
    (snd (register_user "ken" "secret" "tenants" "ken@example.com" None)) =
  ((true, "Login successful!"),
   snd (register_user "ken" "secret" "tenants" "ken@example.com" None)).
Proof.
  apply (X12_register_then_login "ken" "secret" "tenants" "ken@example.com"
           "Registration successful, welcome ken!" None).
  vm_compute. reflexivity.
Defined.

(** X13: a call of [register_user] changes the answer to a login only
    for its own user name and role, and only when that user did not
    exist: an account cannot be taken over by registering its name
    again, and no other account is touched. *)
Theorem X13_registration_keeps_the_accounts
    (username password role email : string) (file : File)
    (username' password' role' : string) :
  let file' := snd (register_user username password role email file) in
  fst (authenticate_user username' password' role' file') =
  fst (authenticate_user username' password' role' file) \/
  (username' = username /\ role' = role /\
   fst (authenticate_user username' password' role' file) =
   (false, "User does not exist.")).
Proof.
  cbv zeta.
  set (r := {| reg_username := username; reg_password := password;
               reg_role := role; reg_email := email |}).
  change (snd (register_user username password role email file))
    with (register file r).
  rewrite !authenticate_answer. cbn [fst].
  pose proof (account_of_register r file username' role') as A.
  pose proof (has_register r file role') as H. unfold has in H.
  cbn [reg_username reg_role reg_password reg_email r] in A.
  destruct (get role' (_init_user_db (register file r))) as [a1|] eqn:G1;
    destruct (get role' (_init_user_db file)) as [a0|] eqn:G0;
    try discriminate H; [|now left].
  rewrite A.
  destruct (account_of username' role' (_init_user_db file)) as [acc|];
    [now left|].
  destruct (String.eqb username username') eqn:Eu; [|now left].
  destruct (String.eqb role role') eqn:Er; [|now left].
  apply String.eqb_eq in Eu, Er. right. auto.
Qed.

(** The accounts after a history of calls. *)
Lemma digest_of_history (username role : string)
    (history : list Registration) (file : File) :
  option_map UserAuth.password
    (account_of username role (_init_user_db (registered history file))) =
  match option_map UserAuth.password
          (account_of username role (_init_user_db file)) with
  | Some d => Some d
  | None =>
      if has role (_init_user_db file)
      then option_map _hash_password (first_password username role history)
      else None
  end.
Proof.
  revert file. induction history as [|r history IH]; intros file.
  - cbn [registered fold_left first_password option_map].
    destruct (option_map _ _); [reflexivity|].
    now destruct (has role _).
  - cbn [registered fold_left first_password].
    change (fold_left register history (register file r))
      with (registered history (register file r)).
    rewrite IH, account_of_register, has_register.
    destruct (account_of username role (_init_user_db file)) as [acc|];
      [reflexivity|]. cbn [option_map].
    destruct (has role (_init_user_db file)) eqn:H.
    + rewrite andb_true_r.
      now destruct (String.eqb (reg_username r) username &&
                    String.eqb (reg_role r) role).
    + now rewrite andb_false_r.
Qed.

Lemma has_registered (history : list Registration) (file : File)
    (role : string) :
  has role (_init_user_db (registered history file)) =
  has role (_init_user_db file).
Proof.
  revert file. induction history as [|r history IH]; intros file;
    [reflexivity|].
  cbn [registered fold_left].
  change (fold_left register history (register file r))
    with (registered history (register file r)).
  now rewrite IH, has_register.
Qed.

(** From no file: the roles are the two known ones, and the digest kept
    for a user name is that of the password of the first call for it. *)
Lemma accounts_from_no_file (history : list Registration)
    (username role : string) :
  has role (_init_user_db (registered history None)) = known_role role /\
  option_map UserAuth.password
    (account_of username role (_init_user_db (registered history None))) =
  if known_role role
  then option_map _hash_password (first_password username role history)
  else None.
Proof.
  assert (K : has role (_init_user_db None) = known_role role).
  { unfold has, known_role. cbn [_init_user_db get].
    rewrite (String.eqb_sym "landlords" role), (String.eqb_sym "tenants" role).
    destruct (String.eqb role "landlords"); [reflexivity|].
    now destruct (String.eqb role "tenants"). }
  assert (E : account_of username role (_init_user_db None) = None).
  { unfold account_of. cbn [_init_user_db get].
    destruct (String.eqb "landlords" role); [reflexivity|].
    now destruct (String.eqb "tenants" role). }
  split.
  - now rewrite has_registered.
  - now rewrite digest_of_history, E, K.
Qed.

(** X14: from no file, after any calls of [register_user], the answer of
    [authenticate_user] is decided by the first call made for the user
    name in the role: the login succeeds with a password of the same
    digest as the password of that call, the role being "landlords" or
    "tenants". *)
Theorem X14_login_after_registrations
    (history : list Registration) (username password role : string) :
  fst (authenticate_user username password role (registered history None)) =
  if negb (known_role role) then (false, "Invalid user role.")
  else
    match first_password username role history with
    | None => (false, "User does not exist.")
    | Some password0 =>
        if String.eqb (_hash_password password0) (_hash_password password)
        then (true, "Login successful!")
        else (false, "Incorrect password.")
    end.
Proof.
  rewrite authenticate_answer. cbn [fst].
  destruct (accounts_from_no_file history username role) as [H D].
  unfold has in H.
  destruct (get role (_init_user_db (registered history None))) as [a|];
    destruct (known_role role); try discriminate H; [|reflexivity].
  cbn [negb].
  destruct (account_of username role _) as [acc|];
    destruct (first_password username role history) as [p0|];
    cbn [option_map] in D; try discriminate D; [|reflexivity].
  injection D as ->. reflexivity.
Qed.

(** ** The file of the accounts *)

Lemma NoDup_snoc {A : Type} (l : list A) (x : A) :
  NoDup l -> ~ In x l -> NoDup (l ++ [x])%list.
Proof.
  induction 1 as [|y l Hy Hl IH]; intros Hx; cbn [app].
  - constructor; [intros [] | constructor].
  - constructor.
    + rewrite in_app_iff. cbn [In]. intros [H|[H|[]]]; [contradiction|].
      subst. apply Hx. now left.
    + apply IH. intros H. apply Hx. now right.
Qed.

Lemma register_sound (r : Registration) (file : File) :
  sound (_init_user_db file) -> sound (_init_user_db (register file r)).
Proof.
  rewrite register_file. cbn [_init_user_db]. cbv zeta.
  generalize (_init_user_db file). intros users [K S].
  destruct (get (reg_role r) users) as [accounts|] eqn:G; [|now split].
  destruct (has (reg_username r) accounts) eqn:Hu; [now split|].
  destruct (S _ _ G) as [N D]. split.
  - rewrite keys_set. unfold has. now rewrite G.
  - intros role' accounts' G'.
    destruct (String.eqb (reg_role r) role') eqn:Er.
    + apply String.eqb_eq in Er. subst role'.
      rewrite get_set_same in G'. injection G' as <-. split.
      * rewrite keys_set, Hu. apply NoDup_snoc; [exact N|].
        intros H. apply has_keys in H. congruence.
      * intros username' account' Gu.
        destruct (String.eqb (reg_username r) username') eqn:Eu.
        -- apply String.eqb_eq in Eu. subst username'.
           rewrite get_set_same in Gu. injection Gu as <-.
           apply sha256_is_digest.
        -- apply String.eqb_neq in Eu.
           rewrite get_set_other in Gu by exact Eu. now apply (D username').
    + apply String.eqb_neq in Er. rewrite get_set_other in G' by exact Er.
      exact (S role' accounts' G').
Qed.

(** X15: from no file, whatever calls of [register_user] are made, the
    file holds the two roles "landlords" and "tenants" and no other,
    each user name once in a role, and for every account a SHA-256 digest
    of 64 hexadecimal digits in the place of the password. *)
Theorem X15_file_of_accounts (history : list Registration) :
  sound (_init_user_db (registered history None)).
Proof.
  assert (G : forall file,
             sound (_init_user_db file) ->
             sound (_init_user_db (registered history file))).
  { induction history as [|r history IH]; intros file S; [exact S|].
    cbn [registered fold_left]. apply IH. now apply register_sound. }
  apply G. cbn [_init_user_db]. split; [reflexivity|].
  intros role accounts. cbn [get].
  destruct (String.eqb "landlords" role).
  - intros [= <-]. split; [constructor | discriminate].
  - destruct (String.eqb "tenants" role); [|discriminate].
    intros [= <-]. split; [constructor | discriminate].
Qed.

(** ** The forms *)

(** A form that passes the checks of the page makes one call of
    [register_user]; another leaves the file as it is. *)
Lemma submit_accepted (f : RegisterForm) (file : File) :
  submit file f =
  if accepted f then register file (registration_of f) else file.
Proof.
  unfold submit, register_click, accepted, register, registration_of.
  cbn [reg_username reg_password reg_role reg_email].
  destruct (empty (form_username f)); [reflexivity|].
  destruct (empty (form_password f)); [reflexivity|].
  cbn [orb negb andb].
  destruct (String.eqb (form_password f) (form_confirm f)); [|reflexivity].
  cbn [negb andb].
  destruct (form_role f).
  - cbn. destruct (register_user _ _ _ _ _) as [[[] msg] file']; reflexivity.
  - change (String.eqb (register_role Landlord) "landlords") with true.
    cbn [andb].
    destruct (String.eqb (form_key f) "ilovedss") eqn:Ek.
    + apply String.eqb_eq in Ek. rewrite Ek. cbn [empty orb negb].
      destruct (register_user _ _ _ _ _) as [[[] msg] file']; reflexivity.
    + rewrite orb_true_r. reflexivity.
Qed.

Lemma submitted_registered (forms : list RegisterForm) (file : File) :
  submitted forms file =
  registered (map registration_of (filter accepted forms)) file.
Proof.
  revert file. induction forms as [|f forms IH]; intros file; [reflexivity|].
  cbn [submitted fold_left filter]. fold (submitted forms (submit file f)).
  rewrite IH, submit_accepted.
  now destruct (accepted f).
Qed.

Lemma first_password_forms (username : string) (role_display : RoleDisplay)
    (forms : list RegisterForm) :
  first_password username (role_map role_display)
    (map registration_of (filter accepted forms)) =
  option_map form_password (first_form username role_display forms).
Proof.
  unfold first_form.
  induction forms as [|f forms IH]; [reflexivity|].
  cbn [filter find]. destruct (accepted f); cbn [andb map]; [|exact IH].
  cbn [first_password registration_of reg_username reg_role reg_password].
  destruct (String.eqb (form_username f) username); cbn [andb]; [|exact IH].
  destruct (form_role f), role_display; cbn; (reflexivity || exact IH).
Qed.

(** X16: from no file, after any forms sent from the registration page,
    the login page lets a user in with the role chosen exactly when the
    password has the digest of the password of the first form accepted
    for that user name and role, and sends a landlord to the landlord's
    page and a tenant to the tenant's.  A form is accepted for a
    landlord only with the key "ilovedss". *)
Theorem X16_login_after_forms
    (forms : list RegisterForm) (role_display : RoleDisplay)
    (username password : string) (session : Session) :
  fst (login_click role_display username password session
         (submitted forms None)) =
  (if empty username || empty password then
     (warning "⚠️ Please enter your username and password.", session, None)
   else
     match first_form username role_display forms with
     | None => (error "User does not exist.", session, None)
     | Some f =>
         if String.eqb (_hash_password (form_password f))
                       (_hash_password password)
         then (success "✅ Login successful! Redirecting...",
               Some (username, role_map role_display),
               Some (match role_display with
                     | Landlord => "pages/landlord_portal.py"
                     | Tenant => "pages/tenant_chat.py"
                     end))
         else (error "Incorrect password.", session, None)
     end) /\
  (forall f,
     first_form username Landlord forms = Some f ->
     form_key f = "ilovedss" /\ form_password f = form_confirm f /\
     form_username f = username).
Proof.
  split.
  - unfold login_click.
    destruct (empty username || empty password); [reflexivity|].
    rewrite authenticate_answer, submitted_registered.
    destruct (accounts_from_no_file
                (map registration_of (filter accepted forms))
                username (role_map role_display)) as [H D].
    rewrite first_password_forms in D.
    replace (known_role (role_map role_display)) with true in H, D
      by now destruct role_display.
    unfold has in H.
    destruct (get (role_map role_display) _) as [accounts|];
      [|discriminate H].
    destruct (account_of username (role_map role_display) _) as [acc|];
      destruct (first_form username role_display forms) as [f|];
      cbn [option_map] in D; try discriminate D; [|reflexivity].
    injection D as ->.
    destruct (String.eqb _ _); cbn [fst]; [|reflexivity].
    now destruct role_display.
  - intros f H. unfold first_form in H. apply find_some in H.
    destruct H as [_ H]. rewrite !andb_true_iff in H.
    destruct H as [[A U] R]. apply String.eqb_eq in U.
    unfold accepted in A. rewrite !andb_true_iff in A.
    destruct A as [[_ C] Kk]. apply String.eqb_eq in C.
    destruct (form_role f); [discriminate R|].
    apply String.eqb_eq in Kk. auto.
Qed.

(** ** The table of leases *)

(** X17: the button that deletes a lease keeps the text of the column
    "Cloud Link" of its row, not the lease: on confirmation the
    directory removed is [db/✅ 有] or [db/❌ 无], whatever the lease;
    it is the directory of the lease only for a lease of that name. *)
Theorem X17_delete_button_target (name : string)
    (m : list (string * LandlordPortal.json)) :
  let r := LandlordPortal.row name m in
  let target := LandlordPortal.confirm_delete (LandlordPortal.delete_button r) in
  LandlordPortal.item r 0 = Some (LandlordPortal.JStr name) /\
  (target = Some "db/✅ 有" \/ target = Some "db/❌ 无") /\
  (target = Some (LandlordPortal.db_path name) ->
   name = "✅ 有" \/ name = "❌ 无").
Proof.
  cbv zeta. unfold LandlordPortal.row, LandlordPortal.delete_button,
    LandlordPortal.item.
  cbn [nth_error].
  destruct (LandlordPortal.truthy _).
  - split; [reflexivity|]. split; [now left|].
    cbn. unfold LandlordPortal.db_path. intros [= E]. left. now symmetry.
  - split; [reflexivity|]. split; [now right|].
    cbn. unfold LandlordPortal.db_path. intros [= E]. right. now symmetry.
Qed.

(** * The chat *)

Import TenantChat.

(** ** The reply of the agent *)

Lemma rev_onto_acc (s acc : string) : rev_onto s acc = rev s ++ acc.
Proof.
  unfold rev. revert acc. induction s as [|c s IH]; intros acc; [reflexivity|].
  cbn [rev_onto]. rewrite IH, (IH (String c "")), append_assoc. reflexivity.
Qed.

Lemma rev_app (a b : string) : rev (a ++ b) = rev b ++ rev a.
Proof.
  induction a as [|c a IH].
  - cbn. now rewrite append_nil_r.
  - cbn [append]. unfold rev at 1 3. cbn [rev_onto].
    rewrite !rev_onto_acc, IH, append_assoc. reflexivity.
Qed.

Lemma rev_involutive (s : string) : rev (rev s) = s.
Proof.
  induction s as [|c s IH]; [reflexivity|].
  unfold rev at 2. cbn [rev_onto]. rewrite rev_onto_acc, rev_app, IH.
  reflexivity.
Qed.

(** A text that does not start with white space is its own [lstrip];
    one that does not end with white space is its own [rstrip]. *)
Lemma strip_start_kept (ws : list string) (n : nat) (s : string) :
  after_one ws s = None -> strip_start ws n s = s.
Proof. intros H. destruct n; cbn [strip_start]; [reflexivity|]. now rewrite H. Qed.

Lemma printable_not_space (c : ascii) (s : string) :
  printable c = true ->
  after_one spaces (String c s) = None /\
  after_one (map rev spaces) (String c s) = None.
Proof.
  destruct c as [[] [] [] [] [] [] [] []]; intros H;
    try discriminate H; split; reflexivity.
Qed.

Lemma strip_kept (s s' : string) (c : ascii) :
  after_one spaces s = None ->
  s = s' ++ String c "" -> printable c = true ->
  strip s = s.
Proof.
  intros Hl -> Hc. unfold strip, lstrip, rstrip.
  rewrite (strip_start_kept _ _ _ Hl).
  rewrite strip_start_kept; [apply rev_involutive|].
  rewrite rev_app. cbn [rev rev_onto append].
  now apply printable_not_space.
Qed.

(** A text without the separator is the one piece of its [split]. *)
Lemma after_last_none (sep s : string) (skip : nat) :
  contains sep s = false -> after_last sep skip s = None.
Proof.
  revert skip. induction s as [|c s IH]; intros skip H; [reflexivity|].
  cbn [contains] in H. apply orb_false_iff in H. destruct H as [H1 H2].
  cbn [after_last]. destruct skip as [|k]; [|now apply IH].
  rewrite H1. now apply IH.
Qed.

Lemma split_last_kept (sep s : string) :
  contains sep s = false -> split_last sep s = s.
Proof. intros H. unfold split_last. now rewrite after_last_none. Qed.

Lemma ends_printable_last (s : string) :
  ends_printable s = true ->
  exists body c, s = body ++ String c "" /\ printable c = true.
Proof.
  induction s as [|x s IH]; [discriminate|].
  destruct s as [|y s].
  - intros H. now exists "", x.
  - intros H. destruct (IH H) as [body [c [E P]]].
    exists (String x body), c. cbn [append]. now rewrite <- E.
Qed.

Lemma ends_printable_app (a b : string) :
  ends_printable b = true -> ends_printable (a ++ b) = true.
Proof.
  intros H. induction a as [|x a IH]; [exact H|].
  cbn [append]. destruct (a ++ b); [discriminate IH | exact IH].
Qed.

(** The reply is the output of the agent when this is a text without
    "Observation:" and without white space around. *)
Lemma agent_reply_kept (narrative : string)
    (answer result : option string) (str_result : string) :
  after_one spaces narrative = None ->
  ends_printable narrative = true ->
  follows "O" "b" false narrative = false ->
  agent_reply (Some narrative) answer result str_result = narrative.
Proof.
  intros Hl E F. unfold agent_reply.
  destruct (ends_printable_last _ E) as [body [c [Eb Hc]]].
  assert (N : or_text (Some narrative)
                (or_text answer (or_text result str_result)) = narrative).
  { destruct narrative; [discriminate E | reflexivity]. }
  rewrite N. cbv zeta.
  rewrite split_last_kept by apply (follows_contains "O" "b" "" "servation:"), F.
  now apply (strip_kept narrative body c).
Qed.

(** A stretch without [a] is skipped. *)
Lemma follows_skip_first (a b : ascii) (mid rest : string) :
  has_char a mid = false ->
  follows a b false (mid ++ rest) = follows a b false rest.
Proof.
  induction mid as [|x mid IH]; cbn [append follows has_char]; [reflexivity|].
  intros Ha. apply orb_false_iff in Ha. destruct Ha as [Ha Ha'].
  rewrite Ha. cbn [andb orb]. now apply IH.
Qed.

(** A lowered text has no capital letter of ASCII. *)
Lemma lower_char_not_upper (x c : ascii) :
  is_upper c = true -> Ascii.eqb (lower_char x) c = false.
Proof.
  intros H. destruct (Ascii.eqb (lower_char x) c) eqn:E; [|reflexivity].
  apply Ascii.eqb_eq in E. subst c. exfalso. revert H.
  destruct x as [[] [] [] [] [] [] [] []]; discriminate.
Qed.

Lemma lower_no_upper (c : ascii) (s : string) :
  is_upper c = true -> has_char c (lower s) = false.
Proof.
  intros H. induction s as [|x s IH]; [reflexivity|].
  cbn [lower has_char]. now rewrite lower_char_not_upper, IH.
Qed.

Lemma numeric_printable (c : ascii) :
  numeric_char c = true -> printable c = true.
Proof.
  destruct c as [[] [] [] [] [] [] [] []]; intros H;
    (discriminate H || reflexivity).
Qed.

Lemma numeric_ends_printable (s : string) :
  s <> "" -> all_chars numeric_char s = true -> ends_printable s = true.
Proof.
  induction s as [|x s IH]; [contradiction|]. intros _ A.
  cbn [all_chars] in A. apply andb_true_iff in A. destruct A as [Ax As].
  destruct s as [|y s]; [now apply numeric_printable|].
  cbn [ends_printable]. apply IH; [discriminate | exact As].
Qed.

(** A number printed to two decimals ends with a printable
    character. *)
Lemma format_2f_ends_printable (x : float) :
  ends_printable (format_2f x) = true.
Proof.
  apply numeric_ends_printable; [|apply numeric_format_2f].
  destruct x as [s|s| |s m e]; cbn [format_2f]; try (destruct s; discriminate);
    try discriminate.
  unfold fixed2. destruct s; cbn [append]; [discriminate|].
  destruct (str_int _); discriminate.
Qed.

(** A date as [strftime] writes it has no capital letter of ASCII. *)
Lemma has_char_app (c : ascii) (a b : string) :
  has_char c (a ++ b) = has_char c a || has_char c b.
Proof.
  induction a as [|x a IH]; [reflexivity|].
  cbn [append has_char]. now rewrite IH, orb_assoc.
Qed.

Lemma strftime_cn_no_O (t : datetime) : has_char "O" (strftime_cn t) = false.
Proof.
  assert (P2 : forall n, has_char "O" (pad2 n) = false).
  { intros n. apply (all_chars_has_char numeric_char); [|reflexivity].
    unfold pad2. destruct (n <? 10); rewrite ?all_chars_app;
      now rewrite numeric_str_int. }
  assert (P4 : forall n, has_char "O" (pad4 n) = false).
  { intros n. apply (all_chars_has_char numeric_char); [|reflexivity].
    unfold pad4.
    destruct (n <? 10); [|destruct (n <? 100); [|destruct (n <? 1000)]];
      rewrite ?all_chars_app; now rewrite numeric_str_int. }
  unfold strftime_cn. rewrite !has_char_app, P4, !P2. reflexivity.
Qed.

Ltac no_observation :=
  repeat (cbn -[format_2f str_int lower strftime_cn];
          first [ rewrite follows_skip_format_2f by reflexivity
                | rewrite follows_skip_str_int by reflexivity
                | rewrite follows_skip_first
                    by (apply lower_no_upper; reflexivity)
                | rewrite follows_skip_first by apply strftime_cn_no_O ]);
  try reflexivity.

Ltac ends_well :=
  repeat first [ reflexivity
               | apply format_2f_ends_printable
               | apply ends_printable_app ].

(** The narratives of the tools have no "Observation:" and no white
    space around. *)
Lemma repair_reply (repair_type : string) (cost : float)
    (answer result : option string) (str_result : string) :
  agent_reply (Some (get_repair_responsibility repair_type cost))
    answer result str_result = get_repair_responsibility repair_type cost.
Proof.
  rewrite get_repair_responsibility_report.
  destruct (repair_verdict repair_type cost); cbn [repair_report];
    (apply agent_reply_kept; [reflexivity | ends_well | no_observation]).
Qed.

Lemma rent_reply (monthly_rent : float) (stay_months : Z) (deposit : float)
    (early : bool) (notice : Z) (narrative : string)
    (answer result : option string) (str_result : string) :
  calculate_rent monthly_rent stay_months deposit early notice = Ok narrative ->
  agent_reply (Some narrative) answer result str_result = narrative.
Proof.
  rewrite calculate_rent_report.
  destruct (rent_amounts _ _ _ _ _) as [a|]; [|discriminate].
  intros [= <-]. unfold rent_report.
  destruct (penalty a) as [p|];
    (apply agent_reply_kept; [reflexivity | ends_well |]).
  - no_observation.
  - no_observation. cbn -[format_2f str_int].
    rewrite <- (append_nil_r (format_2f (refundable_deposit a))).
    now rewrite follows_skip_format_2f by reflexivity.
Qed.

Lemma moveout_reply (current_date : string) (notice_days : Z)
    (r : MoveOutDates) (answer result : option string)
    (str_result : string) :
  moveout_dates current_date notice_days = Ok r ->
  agent_reply (Some (calculate_moveout_date current_date notice_days))
    answer result str_result =
  calculate_moveout_date current_date notice_days.
Proof.
  intros H. rewrite calculate_moveout_date_report, H. unfold moveout_report.
  apply agent_reply_kept; [reflexivity | ends_well | no_observation].
Qed.

(** X18: the chat shows the narrative of a tool as the tool wrote it: the
    reply kept of a result of the agent whose output is a narrative of
    [get_repair_responsibility], of [calculate_rent] or a report of
    [calculate_moveout_date] is that narrative, which has no
    "Observation:" and no white space around.  The message of a date
    that does not parse quotes the text given: with "Observation:" in
    it, the chat shows only what follows. *)
Theorem X18_reply_is_the_narrative :
  (forall repair_type cost answer result str_result,
     agent_reply (Some (get_repair_responsibility repair_type cost))
       answer result str_result =
     get_repair_responsibility repair_type cost) /\
  (forall monthly_rent stay_months deposit early notice narrative
          answer result str_result,
     calculate_rent monthly_rent stay_months deposit early notice
     = Ok narrative ->
     agent_reply (Some narrative) answer result str_result = narrative) /\
  (forall current_date notice_days r answer result str_result,
     moveout_dates current_date notice_days = Ok r ->
     agent_reply (Some (calculate_moveout_date current_date notice_days))
       answer result str_result =
     calculate_moveout_date current_date notice_days) /\
  agent_reply (Some (calculate_moveout_date "Observation: 2025-03-01" 60))
    None None "" =
  "2025-03-01' does not match format '%Y-%m-%d'. Please ensure the date format is YYYY-MM-DD (e.g., 2025-03-01).".
Proof.
  split; [exact repair_reply|]. split; [exact rent_reply|].
  split; [exact moveout_reply|]. vm_compute. reflexivity.
Qed.
